(** * Agent-101, chapter 07-agent-rag: the travel-planning agent

    A shallow embedding of [TRAVEL_ASI_DEMO_GPT] (the [Agent] class, its
    embedding cache, the nearest-neighbour index it drives and the
    itinerary presenter) and of the demo shell that wraps it, together
    with the properties stated for them.

    Conventions.
    - Python [str] values are [string]s; a character is a code point below
      256.  Console literals of the source are kept byte for byte.
    - A Python [dict] that is iterated is an association list in insertion
      order; the embedding cache, which is only ever looked up, is a
      [gmap].
    - Methods run in a state-and-exception monad: an exception aborts the
      rest of the call but keeps every mutation made before it.
    - The embedding endpoint, the chat endpoint and the vector distance are
      parameters of the development. *)

From Stdlib Require Import Ascii String ZArith QArith Sorted.
From stdpp Require Import gmap strings list pretty.
Close Scope Q_scope.
Open Scope string_scope.
Open Scope list_scope.

(** ** Text primitives *)

Module Text.

(** [str.isspace] / the regex class [\s] on code points below 256. *)
Definition is_space (c : ascii) : bool :=
  let n := nat_of_ascii c in
  (((9 <=? n) && (n <=? 13)) || ((28 <=? n) && (n <=? 32))
   || (n =? 133) || (n =? 160))%nat.

(** The regex class [\d] on code points below 256. *)
Definition is_digit (c : ascii) : bool :=
  let n := nat_of_ascii c in ((48 <=? n) && (n <=? 57))%nat.

Definition is_empty (s : string) : bool :=
  match s with EmptyString => true | String _ _ => false end.

Fixpoint str_drop (n : nat) (s : string) : string :=
  match n, s with
  | O, _ => s
  | S _, EmptyString => EmptyString
  | S k, String _ s' => str_drop k s'
  end.

Fixpoint str_take (n : nat) (s : string) : string :=
  match n, s with
  | O, _ => EmptyString
  | S _, EmptyString => EmptyString
  | S k, String c s' => String c (str_take k s')
  end.

(** Number of leading characters of [s] that satisfy [p]. *)
Fixpoint span (p : ascii -> bool) (s : string) : nat :=
  match s with
  | EmptyString => O
  | String c s' => if p c then S (span p s') else O
  end.

Fixpoint lstrip (s : string) : string :=
  match s with
  | EmptyString => EmptyString
  | String c s' => if is_space c then lstrip s' else s
  end.

Fixpoint rstrip (s : string) : string :=
  match s with
  | EmptyString => EmptyString
  | String c s' =>
      let r := rstrip s' in
      if is_space c && is_empty r then EmptyString else String c r
  end.

(** [str.strip()] with no argument. *)
Definition strip (s : string) : string := rstrip (lstrip s).

(** [strip_prefix p s] is the rest of [s] after the literal [p], when [s]
    starts with [p]. *)
Fixpoint strip_prefix (p s : string) : option string :=
  match p, s with
  | EmptyString, _ => Some s
  | String _ _, EmptyString => None
  | String a p', String b s' =>
      if Ascii.eqb a b then strip_prefix p' s' else None
  end.

(** [str.replace(old, new)] for a one-character [old]. *)
Fixpoint replace_char (old : ascii) (new : string) (s : string) : string :=
  match s with
  | EmptyString => EmptyString
  | String c s' =>
      (if Ascii.eqb c old then new else String c EmptyString)
      +:+ replace_char old new s'
  end.

(** [sep.join(parts)]. *)
Fixpoint join (sep : string) (parts : list string) : string :=
  match parts with
  | [] => EmptyString
  | [x] => x
  | x :: rest => x +:+ sep +:+ join sep rest
  end.

(** [s * n]. *)
Fixpoint repeat_str (s : string) (n : nat) : string :=
  match n with
  | O => EmptyString
  | S k => s +:+ repeat_str s k
  end.

Definition chars (s : string) : list string :=
  map (fun c => String c EmptyString) (list_ascii_of_string s).

End Text.

(** ** The section-label pattern of the presenter *)

Module Regex.
Import Text.

(** [\s+\d+:] anchored at the start of [r], after a matched [Day]; the
    length of the whole match.  The two greedy runs range over disjoint
    classes and the colon is in neither, so backtracking never finds a
    match the greedy run misses. *)
Definition match_day_tail (r : string) : option nat :=
  let n := span is_space r in
  if (n =? 0)%nat then None
  else
    let r1 := str_drop n r in
    let m := span is_digit r1 in
    if (m =? 0)%nat then None
    else match str_drop m r1 with
         | String ":" _ => Some (3 + n + m + 1)%nat
         | _ => None
         end.

(** [Day\s+\d+:] anchored at the start of [s]; the length of the match. *)
Definition match_day (s : string) : option nat :=
  match strip_prefix "Day" s with
  | None => None
  | Some r => match_day_tail r
  end.

(** [(Transportation:|Accommodation:|Day\s+\d+:)] anchored at the start
    of [s]. *)
Definition match_label (s : string) : option nat :=
  match strip_prefix "Transportation:" s with
  | Some _ => Some 15%nat
  | None =>
      match strip_prefix "Accommodation:" s with
      | Some _ => Some 14%nat
      | None => match_day s
      end
  end.

(** [re.match(r"Day\s+\d+:", s)] is not [None]. *)
Definition re_match_day (s : string) : bool :=
  match match_day s with Some _ => true | None => false end.

(** The scanner behind [re.split] with one capture group: [skip] counts the
    characters of the current match still to pass over, [cur] is the text
    since the last match, reversed. *)
Fixpoint split_aux (s : string) (skip : nat) (cur : string) : list string :=
  match s with
  | EmptyString => [String.rev cur]
  | String c s' =>
      match skip with
      | S k => split_aux s' k cur
      | O =>
          match match_label s with
          | Some n =>
              String.rev cur :: str_take n s :: split_aux s' (n - 1) EmptyString
          | None => split_aux s' O (String c cur)
          end
      end
  end.

(** [re.split(r"(Transportation:|Accommodation:|Day\s+\d+:)", text)]. *)
Definition re_split (text : string) : list string :=
  split_aux text O EmptyString.

(** Some position of [s] starts a section label. *)
Fixpoint has_label (s : string) : bool :=
  match match_label s with
  | Some _ => true
  | None =>
      match s with
      | EmptyString => false
      | String _ s' => has_label s'
      end
  end.

End Regex.

(** ** The fragment of the Python runtime the program relies on *)

Module Py.

Inductive exn : Type :=
| IndexError
| ValueError
| EOFError
| OpenAIError
| AttributeError
| SystemExit (code : Z).

Inductive outcome (A : Type) : Type :=
| Return (a : A)
| Raise (e : exn).
Arguments Return {A} a.
Arguments Raise {A} e.

(** A computation over a mutable state [S]: the state survives a raise. *)
Definition M (S A : Type) : Type := S -> outcome A * S.

Definition ret {S A} (a : A) : M S A := fun s => (Return a, s).
Definition raise {S A} (e : exn) : M S A := fun s => (Raise e, s).
Definition bind {S A B} (m : M S A) (k : A -> M S B) : M S B :=
  fun s =>
    match m s with
    | (Return a, s') => k a s'
    | (Raise e, s') => (Raise e, s')
    end.
Definition gets {S A} (f : S -> A) : M S A := fun s => (Return (f s), s).
Definition modify {S} (f : S -> S) : M S unit := fun s => (Return tt, f s).
Definition lift_outcome {S A} (o : outcome A) : M S A := fun s => (o, s).

Declare Scope py_scope.
Delimit Scope py_scope with py.
Notation "x <- m ;; k" := (bind m (fun x => k))
  (at level 100, m at next level, k at level 200, right associativity)
  : py_scope.
Notation "m ;; k" := (bind m (fun _ => k))
  (at level 100, k at level 200, right associativity) : py_scope.
Open Scope py_scope.

(** [for x in l: body(x)]. *)
Fixpoint for_each {S A} (l : list A) (body : A -> M S unit) : M S unit :=
  match l with
  | [] => ret tt
  | x :: l' => body x ;; for_each l' body
  end.

(** [except Exception] catches everything but [SystemExit]. *)
Definition is_Exception (e : exn) : bool :=
  match e with SystemExit _ => false | _ => true end.

(** [try: m  except Exception as e: handler(e)]. *)
Definition try_except {S} (m : M S unit) (handler : exn -> M S unit)
  : M S unit :=
  fun s =>
    match m s with
    | (Return a, s') => (Return a, s')
    | (Raise e, s') =>
        if is_Exception e then handler e s' else (Raise e, s')
    end.

Definition state_of {S A} (r : outcome A * S) : S := snd r.
Definition outcome_of {S A} (r : outcome A * S) : outcome A := fst r.

(** [l[i]] on a list: a negative index counts from the end, and an index
    outside [-len, len) raises [IndexError]. *)
Definition getitem {A} (l : list A) (i : Z) : outcome A :=
  let len := Z.of_nat (length l) in
  let j := (if i <? 0 then len + i else i)%Z in
  if ((j <? 0) || (len <=? j))%Z then Raise IndexError
  else match l !! Z.to_nat j with
       | Some x => Return x
       | None => Raise IndexError
       end.

(** Insertion-ordered dictionaries with [str] keys. *)
Definition dict (V : Type) : Type := list (string * V).

Fixpoint dict_get {V} (k : string) (d : dict V) : option V :=
  match d with
  | [] => None
  | (k', v) :: d' => if String.eqb k' k then Some v else dict_get k d'
  end.

(** [d[k] = v]: an existing key keeps its position. *)
Fixpoint dict_set {V} (k : string) (v : V) (d : dict V) : dict V :=
  match d with
  | [] => [(k, v)]
  | (k', v') :: d' =>
      if String.eqb k' k then (k, v) :: d' else (k', v') :: dict_set k v d'
  end.

Definition keys {V} (d : dict V) : list string := map fst d.

(** The line feed, [chr(10)]. *)
Definition LF : string := String "010"%char EmptyString.

(** The double quote, [chr(34)]. *)
Definition DQ : string := String "034"%char EmptyString.

End Py.

(** ** Calendar dates: [datetime.strptime(s, "%Y-%m-%d")] and subtraction *)

Module Dates.
Import Text Py.

Definition digit_val (c : ascii) : Z := Z.of_nat (nat_of_ascii c) - 48.

(** The character class [[lo-hi]]. *)
Definition in_range (lo hi c : ascii) : bool :=
  ((nat_of_ascii lo <=? nat_of_ascii c)
   && (nat_of_ascii c <=? nat_of_ascii hi))%nat.

(** [%Y] is [\d\d\d\d]. *)
Definition parse_Y (s : string) : option (Z * string) :=
  match s with
  | String a (String b (String c (String d r))) =>
      if is_digit a && is_digit b && is_digit c && is_digit d
      then Some ((1000 * digit_val a + 100 * digit_val b
                  + 10 * digit_val c + digit_val d)%Z, r)
      else None
  | _ => None
  end.

(** [%m] is [1[0-2]|0[1-9]|[1-9]]; a literal [-] follows it in the format,
    which no later alternative can satisfy once an earlier one has matched. *)
Definition parse_m (s : string) : option (Z * string) :=
  match s with
  | String a r =>
      let two :=
        match r with
        | String b r' =>
            if (Ascii.eqb a "1" && in_range "0" "2" b)
               || (Ascii.eqb a "0" && in_range "1" "9" b)
            then Some ((10 * digit_val a + digit_val b)%Z, r')
            else None
        | EmptyString => None
        end in
      match two with
      | Some res => Some res
      | None => if in_range "1" "9" a then Some (digit_val a, r) else None
      end
  | EmptyString => None
  end.

(** [%d] is [3[0-1]|[1-2]\d|0[1-9]|[1-9]| [1-9]]; it ends the format, so
    the first alternative that matches is the one taken. *)
Definition parse_d (s : string) : option (Z * string) :=
  match s with
  | String a r =>
      let two :=
        match r with
        | String b r' =>
            if (Ascii.eqb a "3" && in_range "0" "1" b)
               || (in_range "1" "2" a && is_digit b)
               || (Ascii.eqb a "0" && in_range "1" "9" b)
            then Some ((10 * digit_val a + digit_val b)%Z, r')
            else None
        | EmptyString => None
        end in
      match two with
      | Some res => Some res
      | None =>
          if in_range "1" "9" a then Some (digit_val a, r)
          else match r with
               | String b r' =>
                   if Ascii.eqb a " " && in_range "1" "9" b
                   then Some (digit_val b, r') else None
               | EmptyString => None
               end
      end
  | EmptyString => None
  end.

Definition is_leap (y : Z) : bool :=
  ((y mod 4 =? 0) && (negb (y mod 100 =? 0) || (y mod 400 =? 0)))%Z.

Definition days_in_month (y m : Z) : Z :=
  if (m =? 2)%Z then (if is_leap y then 29 else 28)%Z
  else if ((m =? 4) || (m =? 6) || (m =? 9) || (m =? 11))%Z then 30%Z
  else 31%Z.

Definition days_before_year (y : Z) : Z :=
  let p := (y - 1)%Z in (p * 365 + p / 4 - p / 100 + p / 400)%Z.

Definition days_before_month (y m : Z) : Z :=
  (nth (Z.to_nat m)
     [0; 0; 31; 59; 90; 120; 151; 181; 212; 243; 273; 304; 334] 0
   + (if (2 <? m) && is_leap y then 1 else 0))%Z.

(** [date.toordinal()]: 1 for 0001-01-01. *)
Definition ymd2ord (y m d : Z) : Z :=
  (days_before_year y + days_before_month y m + d)%Z.

(** [datetime.datetime.strptime(s, "%Y-%m-%d")], as the ordinal of the
    day it denotes (the time of day is midnight).  A string the format
    does not match, trailing text, year 0 and a day the month does not
    have all raise [ValueError]. *)
Definition strptime (s : string) : outcome Z :=
  match parse_Y s with
  | Some (y, String "-" r1) =>
      match parse_m r1 with
      | Some (m, String "-" r2) =>
          match parse_d r2 with
          | Some (d, EmptyString) =>
              if ((1 <=? y) && (d <=? days_in_month y m))%Z
              then Return (ymd2ord y m d)
              else Raise ValueError
          | _ => Raise ValueError
          end
      | _ => Raise ValueError
      end
  | _ => Raise ValueError
  end.

End Dates.

(** ** The world outside the process *)

Module Sys.
Import Py.

(** What the process has exchanged with its surroundings: the texts sent
    to the embedding endpoint, the message pairs sent to the chat endpoint,
    what was written to the console, the lines still to be read from it,
    and what the interpreter wrote to the error stream. *)
Record World : Type := mkWorld {
  embedding_requests : list string;
  chat_requests : list (string * string);
  stdout : list string;
  stdin : list string;
  stderr : list string
}.

Definition fresh_world (input_lines : list string) : World :=
  mkWorld [] [] [] input_lines [].

Definition network_calls (w : World) : nat :=
  (length (embedding_requests w) + length (chat_requests w))%nat.

Definition log_embedding (text : string) (w : World) : World :=
  mkWorld (embedding_requests w ++ [text]) (chat_requests w)
          (stdout w) (stdin w) (stderr w).

Definition log_chat (sys usr : string) (w : World) : World :=
  mkWorld (embedding_requests w) (chat_requests w ++ [(sys, usr)])
          (stdout w) (stdin w) (stderr w).

Definition write_stdout (line : string) (w : World) : World :=
  mkWorld (embedding_requests w) (chat_requests w)
          (stdout w ++ [line]) (stdin w) (stderr w).

Definition write_stderr (line : string) (w : World) : World :=
  mkWorld (embedding_requests w) (chat_requests w)
          (stdout w) (stdin w) (stderr w ++ [line]).

Definition set_stdin (lines : list string) (w : World) : World :=
  mkWorld (embedding_requests w) (chat_requests w)
          (stdout w) lines (stderr w).

(** [print(line)]. *)
Definition print (line : string) : M World unit := modify (write_stdout line).

(** [input(prompt)]: the prompt goes to the console, one line is consumed;
    end of input raises [EOFError]. *)
Definition input (prompt : string) : M World string :=
  modify (write_stdout prompt) ;;
  lines <- gets stdin ;;
  match lines with
  | [] => raise EOFError
  | line :: rest => modify (set_stdin rest) ;; ret line
  end.

End Sys.

(** ** The knowledge base *)

Module Knowledge.
Import Py.

(** An attribute value of a record: a string (description, address,
    website) or a list of strings (tips, activities). *)
Inductive value : Type :=
| VStr (s : string)
| VList (l : list string).

(** The body of a titled record. *)
Definition record : Type := dict value.

(** [{category: {title: body}}]. *)
Definition knowledge_base : Type := dict (dict record).

(** Every titled record, in iteration order. *)
Definition titled_records (kb : knowledge_base) : list (string * record) :=
  concat (map snd kb).

Definition titles (kb : knowledge_base) : list string :=
  map fst (titled_records kb).

Definition bodies (kb : knowledge_base) : list record :=
  map snd (titled_records kb).

Definition nyc_knowledge : knowledge_base :=
  [("attractions",
    [("Empire State Building",
      [("description", VStr "Iconic skyscraper with observation decks offering stunning views of the city.");
       ("address", VStr "350 Fifth Avenue, Manhattan");
       ("website", VStr "www.esbnyc.com");
       ("tips", VList
          ["Purchase tickets online in advance to avoid long lines.";
           "Visit during the day and at night for different perspectives."])]);
     ("Central Park",
      [("description", VStr "A vast green oasis in the heart of Manhattan, perfect for picnics, walks, bike rides, and boating.");
       ("activities", VList
          ["visit the Central Park Zoo";
           "rent a rowboat on The Lake";
           "see a performance at the Delacorte Theater";
           "have a picnic on the Great Lawn"]);
       ("tips", VList
          ["Download a map of the park to navigate its many paths and attractions."])]);
     ("The Metropolitan Museum of Art",
      [("description", VStr "One of the world's largest and finest art museums.");
       ("address", VStr "1000 Fifth Avenue, Manhattan");
       ("website", VStr "www.metmuseum.org");
       ("tips", VList
          ["Allow ample time to explore the vast collection.";
           "Consider purchasing a guided tour for a more in-depth experience."])])])].

End Knowledge.

(** ** The agent *)

Module TravelAgent.
Import Text Regex Py Sys Knowledge Dates.

Section Agent.

(** Embedding vectors: arrays of [embedding_dim] floats. *)
Variable vec : Type.

(** The squared Euclidean distance by which the flat L2 index ranks. *)
Variable fvec_L2sqr : vec -> vec -> Q.

(** [client.embeddings.create]: the vector in the answer to the [n]-th
    request of the process (counted from 0), for the given input text. *)
Variable embeddings_create : nat -> string -> vec.

(** [client.chat.completions.create]: the text of the first choice in the
    answer to the [n]-th request, for the system and user messages. *)
Variable chat_completions_create : nat -> string -> string -> string.

(** [str(l)] for a list of strings [l]. *)
Variable str_of_list : list string -> string.

Record Agent : Type := mkAgent {
  name : string;
  cache_size : Z;
  embedding_dim : Z;
  index : list vec;
  knowledge_embeddings : list vec;
  knowledge_data : list record;
  embedding_cache : gmap string vec
}.

(** [Agent(name, cache_size, embedding_dim)]. *)
Definition __init__ (name : string) (cache_size embedding_dim : Z) : Agent :=
  mkAgent name cache_size embedding_dim [] [] [] ∅.

Definition default_embedding_dim : Z := 1536.

Record State : Type := mkState { self : Agent; world : World }.

Definition in_world {A} (m : M World A) : M State A :=
  fun s =>
    match m (world s) with
    | (o, w') => (o, mkState (self s) w')
    end.

Definition on_self (f : Agent -> Agent) : M State unit :=
  modify (fun s => mkState (f (self s)) (world s)).

Definition cache_put (key : string) (e : vec) (a : Agent) : Agent :=
  mkAgent (name a) (cache_size a) (embedding_dim a) (index a)
          (knowledge_embeddings a) (knowledge_data a)
          (<[key := e]> (embedding_cache a)).

Definition append_embedding (e : vec) (a : Agent) : Agent :=
  mkAgent (name a) (cache_size a) (embedding_dim a) (index a)
          (knowledge_embeddings a ++ [e]) (knowledge_data a)
          (embedding_cache a).

Definition append_data (r : record) (a : Agent) : Agent :=
  mkAgent (name a) (cache_size a) (embedding_dim a) (index a)
          (knowledge_embeddings a) (knowledge_data a ++ [r])
          (embedding_cache a).

Definition index_extend (batch : list vec) (a : Agent) : Agent :=
  mkAgent (name a) (cache_size a) (embedding_dim a) (index a ++ batch)
          (knowledge_embeddings a) (knowledge_data a)
          (embedding_cache a).

(** [get_embedding(text)]: line feeds become spaces, then one request. *)
Definition get_embedding (text : string) : M World vec :=
  let text := replace_char "010" " " text in
  n <- gets (fun w => length (embedding_requests w)) ;;
  modify (log_embedding text) ;;
  ret (embeddings_create n text).

(** *** The flat L2 index *)

(** [index.add(np.array(batch))]: the vectors are appended in order.  An
    empty batch is a one-dimensional array, which the binding rejects
    with [ValueError] when it unpacks the shape. *)
Definition IndexFlatL2_add (batch : list vec) : M State unit :=
  match batch with
  | [] => raise ValueError
  | _ :: _ => on_self (index_extend batch)
  end.

Fixpoint insert_by (x : Q * nat) (l : list (Q * nat)) : list (Q * nat) :=
  match l with
  | [] => [x]
  | y :: l' =>
      if Qle_bool (fst x) (fst y) then x :: l else y :: insert_by x l'
  end.

(** Every stored vector with its distance to [q] and its position, by
    non-decreasing distance (equal distances keep insertion order). *)
Definition ranked (xb : list vec) (q : vec) : list (Q * nat) :=
  foldr insert_by [] (imap (fun i x => (fvec_L2sqr q x, i)) xb).

(** [index.search(np.array([q]), k)], second component, row 0: the labels
    of the [k] nearest stored vectors; when fewer than [k] vectors are
    stored the row is filled up with [-1]. *)
Definition IndexFlatL2_search (xb : list vec) (q : vec) (k : nat) : list Z :=
  let labels := map (fun p => Z.of_nat (snd p)) (take k (ranked xb q)) in
  labels ++ replicate (k - length labels) (-1)%Z.

(** *** Loading and retrieval *)

(** The body of the inner loop of [load_knowledge], for one titled
    record [key: value]. *)
Definition load_record (entry : string * record) : M State unit :=
  let '(key, value) := entry in
  cache <- gets (fun s => embedding_cache (self s)) ;;
  embedding <-
    match cache !! key with
    | Some e => ret e
    | None =>
        e <- in_world (get_embedding key) ;;
        on_self (cache_put key e) ;;
        ret e
    end ;;
  on_self (append_embedding embedding) ;;
  on_self (append_data value).

Definition load_knowledge (kb : knowledge_base) : M State unit :=
  for_each kb (fun '(category, subcategories) =>
    for_each subcategories load_record) ;;
  embeddings <- gets (fun s => knowledge_embeddings (self s)) ;;
  IndexFlatL2_add embeddings.

(** [for i in I[0]: relevant_info.append(self.knowledge_data[i])]. *)
Fixpoint gather (data : list record) (I : list Z) (relevant_info : list record)
  : outcome (list record) :=
  match I with
  | [] => Return relevant_info
  | i :: I' =>
      match getitem data i with
      | Return r => gather data I' (relevant_info ++ [r])%list
      | Raise e => Raise e
      end
  end.

Definition retrieve_knowledge (query : string) : M State (list record) :=
  cache <- gets (fun s => embedding_cache (self s)) ;;
  query_embedding <-
    match cache !! query with
    | Some e => ret e
    | None =>
        e <- in_world (get_embedding query) ;;
        on_self (cache_put query e) ;;
        ret e
    end ;;
  xb <- gets (fun s => index (self s)) ;;
  let I := IndexFlatL2_search xb query_embedding 5 in
  data <- gets (fun s => knowledge_data (self s)) ;;
  lift_outcome (gather data I []).

(** *** The knowledge digest *)

(** [str(v)], as an f-string renders an attribute value. *)
Definition str_of_value (v : value) : string :=
  match v with
  | VStr s => s
  | VList l => str_of_list l
  end.

(** The strings [v] yields when iterated, as [str.join] consumes them. *)
Definition iterate (v : value) : list string :=
  match v with
  | VStr s => chars s
  | VList l => l
  end.

(** The body of the loop of [summarize_knowledge]: [summary] extended by
    the lines of one record. *)
Definition summarize_item (summary : string) (item : record) : outcome string :=
  match keys item with
  | [] => Raise IndexError
  | name :: _ =>
      let summary := summary +:+ "**" +:+ name +:+ "**" +:+ LF in
      let summary :=
        summary +:+ "Description: "
        +:+ match dict_get "description" item with
            | Some v => str_of_value v
            | None => "N/A"
            end +:+ LF in
      let summary :=
        match dict_get "address" item with
        | Some v => summary +:+ "Address: " +:+ str_of_value v +:+ LF
        | None => summary
        end in
      let summary :=
        match dict_get "website" item with
        | Some v => summary +:+ "Website: " +:+ str_of_value v +:+ LF
        | None => summary
        end in
      let summary :=
        match dict_get "tips" item with
        | Some v =>
            summary +:+ (("Tips:" +:+ LF) +:+ join LF (iterate v) +:+ LF)
        | None => summary
        end in
      Return (summary +:+ LF)
  end.

Fixpoint summarize_loop (summary : string) (knowledge_list : list record)
  : outcome string :=
  match knowledge_list with
  | [] => Return summary
  | item :: rest =>
      match summarize_item summary item with
      | Return summary' => summarize_loop summary' rest
      | Raise e => Raise e
      end
  end.

Definition summarize_knowledge (knowledge_list : list record) : outcome string :=
  match knowledge_list with
  | [] => Return EmptyString
  | _ :: _ => summarize_loop EmptyString knowledge_list
  end.

(** *** The presenter *)

(** [d[k].append(x)]; the presenter only appends under a key it has set. *)
Fixpoint dict_append (k x : string) (d : dict (list string))
  : dict (list string) :=
  match d with
  | [] => []
  | (k', v) :: d' =>
      if String.eqb k' k then (k', (v ++ [x])%list) :: d'
      else (k', v) :: dict_append k x d'
  end.

(** One turn of the parsing loop over the pieces of the split; the state is
    [(itinerary, current_section)], with [None] for Python's [None]. *)
Definition parse_step (st : dict (list string) * option string)
    (section : string) : dict (list string) * option string :=
  let '(itinerary, current_section) := st in
  let section := strip section in
  if is_empty section then st
  else if String.eqb section "Transportation:"
          || String.eqb section "Accommodation:"
  then (dict_set section [] itinerary, Some section)
  else if re_match_day section
  then (dict_set section [] itinerary, Some section)
  else match current_section with
       | Some cur => (dict_append cur section itinerary, current_section)
       | None => st
       end.

(** The [itinerary] mapping the presenter builds from the generated text. *)
Definition parse_itinerary (itinerary_text : string) : dict (list string) :=
  let sections := re_split itinerary_text in
  fst (fold_left parse_step sections ([], None)).

(** The trip length the presenter computes: [(end_date - start_date).days]. *)
Definition num_days {S} (travel_dates : list string) : M S Z :=
  d0 <- lift_outcome (getitem travel_dates 0) ;;
  start_date <- lift_outcome (strptime d0) ;;
  d1 <- lift_outcome (getitem travel_dates 1) ;;
  end_date <- lift_outcome (strptime d1) ;;
  ret (end_date - start_date)%Z.

Definition present_itinerary {B} (itinerary_text : string) (budget : B)
    (travel_dates : list string) : M State unit :=
  let itinerary := parse_itinerary itinerary_text in
  days <- num_days travel_dates ;;
  in_world (print (LF +:+ repeat_str "=" 50)) ;;
  in_world (print "📋 您的详细旅行计划") ;;
  in_world (print (repeat_str "=" 50)) ;;
  for_each itinerary (fun '(section, items) =>
    in_world (print (LF +:+ section)) ;;
    in_world (print (repeat_str "-" 30)) ;;
    for_each items (fun item => in_world (print item)) ;;
    in_world (print (repeat_str "-" 20))).

(** *** Planning *)

Definition system_prompt (transport_mode accommodation_type : string) : string :=
  "You are an expert travel agent specializing in NYC.
                Create a detailed itinerary that includes transportation
                from Montreal to NYC and accommodation in NYC.
                The preferred mode of transport is "
  +:+ transport_mode
  +:+ " and
                the preferred accommodation type is "
  +:+ accommodation_type
  +:+ ".

                The user wants to visit Yankee Stadium and prefers upscale
                hotels and dining experiences.

                For the Yankee Stadium visit, suggest one of the following
                premium seating options: the Legends Suite Club, the Ford Field
                MVP Club, or the Champion Suite. Do NOT suggest just a basic tour.

                On the day of the Yankee Stadium visit, the dinner will be
                INSIDE the stadium, either at the Legends Suite Club,
                the Ford Field MVP Club, or the Champion Suite.

                The Yankee Stadium visit should be scheduled in the AFTERNOON
                or EVENING, as baseball games are not typically played in
                the morning.

                Use the following format:

                **Transportation:**
                * [Flight/Train details] ([Estimated Cost: $xxx])

                **Accommodation:**
                * [Hotel details] ([Estimated Cost per night: $xxx])

                **Day 1:**
                * **Morning:** [Activity 1] ([Estimated Cost: $xx]) - [Brief Description]
                * **Afternoon:** [Activity 2] ([Estimated Cost: $xx]) - [Brief Description]
                * **Evening:** [Activity 3] ([Estimated Cost: $xx]) - [Brief Description]
                * **Dinner:** [Restaurant Suggestion] ([Estimated Cost per person: $xx])

                **Day 2:**
                * ... and so on ...

                Include transportation suggestions, estimated costs, and practical tips.
                Consider the user's budget: $10000

                It's crucial that you provide specific cost estimations for EACH
                item in the itinerary, including transportation, accommodation,
                activities, meals, and shows.  Do NOT use general price ranges
                like "
  +:+ DQ
  +:+ "expensive"
  +:+ DQ
  +:+ " or "
  +:+ DQ
  +:+ "$$$"
  +:+ DQ
  +:+ " as these are not helpful for budget
                planning.  Instead, provide numerical estimates like "
  +:+ DQ
  +:+ "$25"
  +:+ DQ
  +:+ ", "
  +:+ DQ
  +:+ "$150"
  +:+ DQ
  +:+ ",
                or "
  +:+ DQ
  +:+ "$40-$60"
  +:+ DQ
  +:+ ".

                At the end of the itinerary, please provide the following:
                * **Total Estimated Cost:** $[total cost]
                * **Remaining Budget:** $[remaining budget]
                * **Budget Utilization:** [total cost]/[budget]
                ".

Definition user_query (date0 date1 preferences : string)
    (interests : list string) (digest : string) : string :=
  "Plan a NYC trip from "
  +:+ date0
  +:+ " to "
  +:+ date1
  +:+ ".
                The traveler's preferences are: "
  +:+ preferences
  +:+ " and their interests include: "
  +:+ join ", " interests
  +:+ ".

                Here's some relevant information about NYC: "
  +:+ digest
  +:+ "
                ".

(** [for interest in interests: relevant_knowledge += retrieve(interest)]. *)
Fixpoint retrieve_interests (interests : list string)
    (relevant_knowledge : list record) : M State (list record) :=
  match interests with
  | [] => ret relevant_knowledge
  | interest :: rest =>
      more <- retrieve_knowledge interest ;;
      retrieve_interests rest (relevant_knowledge ++ more)%list
  end.

(** [client.chat.completions.create(model="gpt-4", messages=[system, user],
    max_tokens=4096)], returning [choices[0].message.content]. *)
Definition chat (sys usr : string) : M World string :=
  n <- gets (fun w => length (chat_requests w)) ;;
  modify (log_chat sys usr) ;;
  ret (chat_completions_create n sys usr).

Definition plan_nyc_trip {B} (travel_dates : list string) (budget : B)
    (preferences : string) (interests : list string) : M State unit :=
  in_world (print "正在收集您的旅行偏好...") ;;
  transport_mode <-
    in_world (input "Preferred mode of transport (airplane, train, bus, car): ") ;;
  accommodation_type <-
    in_world (input "Preferred accommodation type (hotel, Airbnb): ") ;;
  relevant_knowledge <- retrieve_knowledge preferences ;;
  relevant_knowledge <- retrieve_interests interests relevant_knowledge ;;
  let sys := system_prompt transport_mode accommodation_type in
  date0 <- lift_outcome (getitem travel_dates 0) ;;
  date1 <- lift_outcome (getitem travel_dates 1) ;;
  digest <- lift_outcome (summarize_knowledge relevant_knowledge) ;;
  let usr := user_query date0 date1 preferences interests digest in
  in_world (print "🤖 AI正在为您生成个性化旅行计划...") ;;
  content <- in_world (chat sys usr) ;;
  in_world (print LF) ;;
  in_world (print "🎉 您的个性化旅行计划已生成:") ;;
  in_world (print content) ;;
  present_itinerary content budget travel_dates.

(** *** The script *)

(** A method call on an agent object held in a local variable. *)
Definition call {A} (agent : Agent) (m : M State A) : M World (A * Agent) :=
  fun w =>
    match m (mkState agent w) with
    | (Return a, s) => (Return (a, self s), world s)
    | (Raise e, s) => (Raise e, world s)
    end.

(** [os.environ]. *)
Definition environ : Type := gmap string string.

(** [OpenAI(api_key=api_key)]: a missing argument falls back on the
    environment variable, and the constructor raises [OpenAIError] when
    that is missing too.  No request is sent. *)
Definition OpenAI (env : environ) (api_key : option string) : M World unit :=
  let api_key :=
    match api_key with
    | Some k => Some k
    | None => env !! "OPENAI_API_KEY"
    end in
  match api_key with
  | Some _ => ret tt
  | None => raise OpenAIError
  end.

(** The statements executed when the module is loaded: the imports, then
    [client = OpenAI(api_key=os.getenv("OPENAI_API_KEY"))]. *)
Definition module_body (env : environ) : M World unit :=
  OpenAI env (env !! "OPENAI_API_KEY").

Definition main : M World unit :=
  print "🚀 AI旅行规划系统启动" ;;
  print (repeat_str "=" 50) ;;
  print "🤖 初始化AI旅行代理..." ;;
  let agent := __init__ "NYCAI" 1000 default_embedding_dim in
  print "📚 加载纽约旅行知识库..." ;;
  r <- call agent (load_knowledge nyc_knowledge) ;;
  let agent := snd r in
  let travel_dates := ["2024-04-10"; "2024-04-15"] in
  let budget := "$10000" in
  let preferences := "I prefer a mix of sightseeing, cultural experiences, and trying local food. I like to walk a lot but also want to use public transport." in
  let interests := ["museums"; "Broadway shows"; "Central Park"] in
  print ("📅 旅行日期: 2024-04-10 到 2024-04-15") ;;
  print ("💰 预算: " +:+ budget) ;;
  print ("🎯 偏好: " +:+ preferences) ;;
  print ("❤️ 兴趣: " +:+ join ", " interests) ;;
  print (repeat_str "=" 50) ;;
  r <- call agent (plan_nyc_trip travel_dates budget preferences interests) ;;
  ret tt.

(** What the interpreter does with a finished script: exit status 0 on a
    normal return, the code of a [SystemExit], and for any other uncaught
    exception a traceback on the error stream and status 1. *)
Definition python (script : M World unit) (w : World) : Z * World :=
  match script w with
  | (Return _, w') => (0%Z, w')
  | (Raise (SystemExit code), w') => (code, w')
  | (Raise _, w') =>
      (1%Z, write_stderr "Traceback (most recent call last):" w')
  end.

(** [python TRAVEL_ASI_DEMO_GPT.py]. *)
Definition run_module (env : environ) : World -> Z * World :=
  python (module_body env ;; main).

End Agent.

Arguments mkAgent {vec}.
Arguments mkState {vec}.
Arguments name {vec}.
Arguments cache_size {vec}.
Arguments embedding_dim {vec}.
Arguments index {vec}.
Arguments knowledge_embeddings {vec}.
Arguments knowledge_data {vec}.
Arguments embedding_cache {vec}.
Arguments self {vec}.
Arguments world {vec}.
Arguments __init__ {vec}.

End TravelAgent.

(** ** The demo shell *)

Module Demo.
Import Text Regex Py Sys Knowledge Dates TravelAgent.

Section Demo.

Variable vec : Type.
Variable fvec_L2sqr : vec -> vec -> Q.
Variable embeddings_create : nat -> string -> vec.
Variable chat_completions_create : nat -> string -> string -> string.
Variable str_of_list : list string -> string.

(** [str(e)] for a caught exception. *)
Variable str_of_exn : exn -> string.

(** A [TravelPlannerDemo] object (its [agent] attribute) and the world. *)
Record DemoState : Type := mkDemo {
  agent : option (Agent vec);
  demo_world : World
}.

Definition in_world {A} (m : M World A) : M DemoState A :=
  fun s =>
    match m (demo_world s) with
    | (o, w') => (o, mkDemo (agent s) w')
    end.

Definition set_agent (a : option (Agent vec)) : M DemoState unit :=
  modify (fun s => mkDemo a (demo_world s)).

(** [self.agent.method(...)]; the attribute is set by [initialize_agent]
    before any such call. *)
Definition on_agent {A} (m : M (State vec) A) : M DemoState A :=
  fun s =>
    match agent s with
    | None => (Raise AttributeError, s)
    | Some a =>
        match m (mkState a (demo_world s)) with
        | (o, s') => (o, mkDemo (Some (self s')) (world s'))
        end
    end.

(** [sys.exit(code)]. *)
Definition sys_exit {A} (code : Z) : M DemoState A := raise (SystemExit code).

(** [not api_key] for the result of [os.getenv]. *)
Definition falsy (api_key : option string) : bool :=
  match api_key with
  | None => true
  | Some k => is_empty k
  end.

(** The packages probed by the [try: import ...] block were already
    imported when the agent module was loaded, so the block succeeds. *)
Definition setup_environment (env : environ) : M DemoState unit :=
  in_world (print "🔧 正在设置运行环境...") ;;
  let api_key := env !! "OPENAI_API_KEY" in
  (if falsy api_key then
     in_world (print "❌ 错误: 未找到OPENAI_API_KEY环境变量") ;;
     in_world (print "请设置您的OpenAI API密钥:") ;;
     in_world (print "export OPENAI_API_KEY='your_api_key_here'") ;;
     sys_exit 1
   else ret tt) ;;
  in_world (print "✅ OpenAI API密钥已配置") ;;
  in_world (print "✅ 所有依赖包已安装").

(** [TravelPlannerDemo()]. *)
Definition __init__ (env : environ) : M DemoState unit :=
  set_agent None ;;
  setup_environment env.

Definition initialize_agent : M DemoState unit :=
  in_world (print (LF +:+ "🤖 正在初始化AI旅行代理...")) ;;
  set_agent (Some (TravelAgent.__init__ "NYCAI" 1000 1536)) ;;
  in_world (print "📚 正在加载纽约旅行知识库...") ;;
  on_agent (load_knowledge vec embeddings_create nyc_knowledge) ;;
  in_world (print "✅ AI旅行代理初始化完成").

(** The [user_prefs] dictionary. *)
Record Prefs : Type := mkPrefs {
  travel_dates : list string;
  budget : string;
  transport_mode : string;
  accommodation_type : string;
  preferences : string;
  interests : list string
}.

Definition generate_travel_plan (user_prefs : Prefs) : M DemoState unit :=
  in_world (print (LF +:+ "🚀 正在生成您的个性化旅行计划...")) ;;
  in_world (print (repeat_str "=" 60)) ;;
  in_world (print "📋 您的旅行偏好:") ;;
  d0 <- lift_outcome (getitem (travel_dates user_prefs) 0) ;;
  d1 <- lift_outcome (getitem (travel_dates user_prefs) 1) ;;
  in_world (print ("   📅 旅行日期: " +:+ d0 +:+ " 到 " +:+ d1)) ;;
  in_world (print ("   💰 预算: " +:+ budget user_prefs)) ;;
  in_world (print ("   🚗 交通方式: " +:+ transport_mode user_prefs)) ;;
  in_world (print ("   🏨 住宿类型: " +:+ accommodation_type user_prefs)) ;;
  in_world (print ("   🎯 偏好: " +:+ preferences user_prefs)) ;;
  in_world (print ("   ❤️ 兴趣: " +:+ join ", " (interests user_prefs))) ;;
  in_world (print (repeat_str "=" 60)) ;;
  on_agent (plan_nyc_trip vec fvec_L2sqr embeddings_create
              chat_completions_create str_of_list
              (travel_dates user_prefs) (budget user_prefs)
              (preferences user_prefs) (interests user_prefs)).

Definition analyze_results (user_prefs : Prefs) : M DemoState unit :=
  in_world (print (LF +:+ "📊 旅行计划分析:")) ;;
  in_world (print (repeat_str "=" 40)) ;;
  days <- num_days (travel_dates user_prefs) ;;
  in_world (print ("📅 旅行天数: " +:+ pretty days +:+ " 天")) ;;
  in_world (print ("💰 预算: " +:+ budget user_prefs)) ;;
  in_world (print ("🎯 主要兴趣: " +:+ join ", " (interests user_prefs))) ;;
  in_world (print (LF +:+ "🎨 兴趣分析:")) ;;
  for_each (interests user_prefs) (fun interest =>
    in_world (print ("   • " +:+ interest))) ;;
  in_world (print (LF +:+ "✅ 旅行计划生成完成！")).

Definition demo_prefs : Prefs :=
  mkPrefs ["2024-04-10"; "2024-04-15"] "$10000" "airplane" "hotel"
    "I prefer a mix of sightseeing, cultural experiences, and trying local food. I like to walk a lot but also want to use public transport."
    ["museums"; "Broadway shows"; "Central Park"].

Definition run_quick_demo (env : environ) : M DemoState unit :=
  in_world (print "🚀 AI旅行规划系统 - 快速演示") ;;
  in_world (print (repeat_str "=" 50)) ;;
  try_except
    (__init__ env ;;
     initialize_agent ;;
     generate_travel_plan demo_prefs ;;
     analyze_results demo_prefs)
    (fun e => in_world (print ("❌ 演示过程中发生错误: " +:+ str_of_exn e))).

(** [python 使用示例.py]: the import of the agent module runs its body;
    [main_body] is whatever the shell does afterwards. *)
Definition run_script (env : environ) (main_body : M World unit)
  : World -> Z * World :=
  python (module_body env ;; main_body).

End Demo.

Arguments mkDemo {vec}.
Arguments agent {vec}.
Arguments demo_world {vec}.

End Demo.

(** ** Auxiliary functions used in statements and proofs *)

Module Aux.
Import Text Regex Py Sys Knowledge Dates TravelAgent.

Section LoadStep.

Variable vec : Type.
Variable embeddings_create : nat -> string -> vec.

(** The state change made by [load_record]. *)
Definition load_step (entry : string * record) (s : State vec) : State vec :=
  match embedding_cache (self s) !! fst entry with
  | Some e =>
      mkState (append_data vec (snd entry) (append_embedding vec e (self s)))
              (world s)
  | None =>
      let text := replace_char "010" " " (fst entry) in
      let e := embeddings_create (length (embedding_requests (world s))) text in
      mkState (append_data vec (snd entry)
                 (append_embedding vec e (cache_put vec (fst entry) e (self s))))
              (log_embedding text (world s))
  end.

(** The state after the two nested loops of [load_knowledge] have run over
    the records [l]. *)
Definition loaded (l : list (string * record)) (s : State vec) : State vec :=
  fold_left (fun s x => load_step x s) l s.

End LoadStep.

Section Operations.

Variable vec : Type.
Variable fvec_L2sqr : vec -> vec -> Q.
Variable embeddings_create : nat -> string -> vec.
Variable chat_completions_create : nat -> string -> string -> string.
Variable str_of_list : list string -> string.

(** A call of one of the agent's methods that can touch its state. *)
Inductive operation : Type :=
| Load (kb : knowledge_base)
| Retrieve (query : string)
| Plan (travel_dates : list string) (budget preferences : string)
       (interests : list string)
| Present (itinerary_text budget : string) (travel_dates : list string).

(** The state a call leaves behind, whether it returns or raises. *)
Definition perform (op : operation) (s : State vec) : State vec :=
  match op with
  | Load kb => state_of (load_knowledge vec embeddings_create kb s)
  | Retrieve query =>
      state_of (retrieve_knowledge vec fvec_L2sqr embeddings_create query s)
  | Plan travel_dates budget preferences interests =>
      state_of (plan_nyc_trip vec fvec_L2sqr embeddings_create
                  chat_completions_create str_of_list
                  travel_dates budget preferences interests s)
  | Present itinerary_text budget travel_dates =>
      state_of (present_itinerary vec itinerary_text budget travel_dates s)
  end.

Definition perform_all (ops : list operation) (s : State vec) : State vec :=
  fold_left (fun s op => perform op s) ops s.

(** The console lines [setup_environment] writes before it exits. *)
Definition missing_key_report : list string :=
  ["🔧 正在设置运行环境...";
   "❌ 错误: 未找到OPENAI_API_KEY环境变量";
   "请设置您的OpenAI API密钥:";
   "export OPENAI_API_KEY='your_api_key_here'"].

(** What the presenter stores for the text between two labels: the text
    stripped of surrounding whitespace, or nothing when none is left. *)
Definition fragments (gap : string) : list string :=
  if is_empty (strip gap) then [] else [strip gap].

(** The first letters of the three label patterns. *)
Definition label_start (c : ascii) : bool :=
  Ascii.eqb c "T" || Ascii.eqb c "A" || Ascii.eqb c "D".

(** No character of [p] is the first letter of a label. *)
Definition no_label_start (p : string) : bool :=
  forallb (fun c => negb (label_start c)) (list_ascii_of_string p).

(** [t] is empty or starts like a label. *)
Definition boundary (t : string) : bool :=
  match t with
  | EmptyString => true
  | String c _ => label_start c
  end.

(** The concatenation of a list of strings. *)
Definition concat_str (l : list string) : string :=
  foldr String.append EmptyString l.

(** The lines the loop of [summarize_knowledge] appends for one record. *)
Definition digest_block (item : record) : string :=
  match summarize_item str_of_list EmptyString item with
  | Return b => b
  | Raise _ => EmptyString
  end.

(** A computation that keeps every cache entry and the configured size. *)
Definition keeps {A} (m : M (State vec) A) : Prop :=
  forall s,
    embedding_cache (self s) ⊆ embedding_cache (self (state_of (m s)))
    /\ cache_size (self (state_of (m s))) = cache_size (self s).

(** [n] pairwise distinct query strings. *)
Definition distinct_queries (n : nat) : list string :=
  map (repeat_str "a") (seq 0 n).

End Operations.

End Aux.

(** ** Stand-ins for the external services, for concrete runs *)

Module Stub.
Import Text Regex Py Sys Knowledge Dates TravelAgent.

(** Vectors of rationals with the squared Euclidean distance. *)
Definition vec : Type := list Q.

Fixpoint fvec_L2sqr (x y : vec) : Q :=
  match x, y with
  | a :: x', b :: y' => ((a - b) * (a - b) + fvec_L2sqr x' y')%Q
  | _, _ => 0%Q
  end.

(** An embedding endpoint that answers with a 1536-long vector whose first
    coordinate is the length of the text and whose other coordinates
    are 0. *)
Definition embeddings_create (n : nat) (text : string) : vec :=
  (Z.of_nat (String.length text) # 1)%Q :: replicate 1535 0%Q.

(** A chat endpoint that always answers with the same short itinerary. *)
Definition chat_completions_create (n : nat) (sys usr : string) : string :=
  "**Transportation:** flight **Accommodation:** hotel **Day 1:** museum".

Definition str_of_list (l : list string) : string :=
  "[" +:+ join ", " l +:+ "]".

(** An itinerary in the format the system prompt asks for. *)
Definition sample_itinerary : string :=
  "Your plan. **Transportation:** flight **Accommodation:** hotel **Day 1:** museum **Day 2:** park  ".

(** An itinerary whose sections are set off by single blanks. *)
Definition spaced_itinerary : string :=
  "Transportation: fly Accommodation: hotel Day 1: walk Day 2: rest".

(** A fresh agent after one load of the built-in knowledge base. *)
Definition loaded_nyc : State vec :=
  state_of (load_knowledge vec embeddings_create nyc_knowledge
              (mkState (__init__ "NYCAI" 1000 1536) (fresh_world []))).

End Stub.

From stdpp Require Import sorting.

(** ** Further auxiliary functions *)

Module Aux2.
Import Text Regex Py Sys Knowledge Dates TravelAgent.

Section Retrieval.

Variable vec : Type.
Variable embeddings_create : nat -> string -> vec.

(** The titles for which a load sends a request: those not in [seen],
    each once, in order of first occurrence. *)
Fixpoint uncached (seen : gset string) (titles : list string) : list string :=
  match titles with
  | [] => []
  | t :: rest =>
      if decide (t ∈ seen) then uncached seen rest
      else t :: uncached ({[t]} ∪ seen) rest
  end.

(** The vector a retrieval searches with: the cached one, or the answer
    to the request it sends. *)
Definition query_embedding (s : State vec) (query : string) : vec :=
  match embedding_cache (self s) !! query with
  | Some e => e
  | None =>
      embeddings_create (length (embedding_requests (world s)))
        (replace_char "010" " " query)
  end.

(** The state a retrieval leaves behind. *)
Definition after_query (s : State vec) (query : string) : State vec :=
  match embedding_cache (self s) !! query with
  | Some _ => s
  | None =>
      mkState (cache_put vec query (query_embedding s query) (self s))
              (log_embedding (replace_char "010" " " query) (world s))
  end.

(** The state after retrievals for the queries [qs], one after another. *)
Definition after_queries (qs : list string) (s : State vec) : State vec :=
  fold_left after_query qs s.

(** [s'] differs from [s] by cached queries only: at most [n] requests
    were added to the log, and cache entries. *)
Definition cached_more (n : nat) (s s' : State vec) : Prop :=
  index (self s') = index (self s)
  /\ knowledge_data (self s') = knowledge_data (self s)
  /\ knowledge_embeddings (self s') = knowledge_embeddings (self s)
  /\ chat_requests (world s') = chat_requests (world s)
  /\ stdout (world s') = stdout (world s)
  /\ stdin (world s') = stdin (world s)
  /\ stderr (world s') = stderr (world s)
  /\ (exists sent, embedding_requests (world s')
                   = embedding_requests (world s) ++ sent
                   /\ length sent <= n).

(** An agent whose index and data are aligned and hold a record. *)
Definition ready (s : State vec) : Prop :=
  length (index (self s)) = length (knowledge_data (self s))
  /\ knowledge_data (self s) <> [].

End Retrieval.

(** The console lines the presenter writes for the sections of an
    itinerary. *)
Definition rendered (itinerary : dict (list string)) : list string :=
  concat (map (fun entry : string * list string =>
                 [LF +:+ fst entry; repeat_str "-" 30] ++ snd entry
                 ++ [repeat_str "-" 20]) itinerary).

(** The three lines the presenter writes first. *)
Definition banner : list string :=
  [LF +:+ repeat_str "=" 50; "📋 您的详细旅行计划"; repeat_str "=" 50].

Definition add_stdout (lines : list string) (w : World) : World :=
  mkWorld (embedding_requests w) (chat_requests w) (stdout w ++ lines)
          (stdin w) (stderr w).

(** [L] is, as a whole, one match of the label pattern. *)
Definition is_label (L : string) : bool :=
  match match_label L with
  | Some n => (n =? String.length L)%nat
  | None => false
  end.

(** The text made of labels, each followed by its section text. *)
Fixpoint assemble (parts : list (string * string)) : string :=
  match parts with
  | [] => EmptyString
  | (L, g) :: rest => L +:+ g +:+ assemble rest
  end.

(** The pieces of an assembled text behind its first one. *)
Fixpoint pieces (parts : list (string * string)) : list string :=
  match parts with
  | [] => []
  | (L, g) :: rest => L :: g :: pieces rest
  end.

(** What the parsing loop does with a label and the text behind it. *)
Definition store (itinerary : dict (list string)) (part : string * string)
  : dict (list string) :=
  dict_set (fst part) (Aux.fragments (snd part)) itinerary.

(** The section text behind the last occurrence of the label [L]. *)
Definition last_section (L : string) (parts : list (string * string))
  : option string :=
  fold_left (fun acc part =>
               if String.eqb (fst part) L then Some (snd part) else acc)
            parts None.

(** The year, month and day [strptime] reads from a string that matches
    the format, before it checks that the date exists. *)
Definition date_fields (s : string) : option (Z * Z * Z) :=
  match parse_Y s with
  | Some (y, String "-" r1) =>
      match parse_m r1 with
      | Some (m, String "-" r2) =>
          match parse_d r2 with
          | Some (d, EmptyString) => Some (y, m, d)
          | _ => None
          end
      | _ => None
      end
  | _ => None
  end.

(** A date of the calendar. *)
Definition valid_date (date : Z * Z * Z) : Prop :=
  let '(y, m, d) := date in
  (1 <= y <= 9999 /\ 1 <= m <= 12 /\ 1 <= d <= days_in_month y m)%Z.

(** Earlier in the calendar. *)
Definition date_lt (a b : Z * Z * Z) : Prop :=
  let '(y1, m1, d1) := a in
  let '(y2, m2, d2) := b in
  (y1 < y2 \/ (y1 = y2 /\ (m1 < m2 \/ (m1 = m2 /\ d1 < d2))))%Z.

(** The order of the ranking: by distance. *)
Definition by_distance (a b : Q * nat) : Prop := (fst a <= fst b)%Q.

End Aux2.

(** ** The rest of the demo shell *)

Module Shell.
Import Text Regex Py Sys Knowledge Dates TravelAgent.

(** [s.split(sep)] for a one-character [sep]. *)
Fixpoint split_char (sep : ascii) (s : string) : list string :=
  match s with
  | EmptyString => [EmptyString]
  | String c s' =>
      if Ascii.eqb c sep then EmptyString :: split_char sep s'
      else match split_char sep s' with
           | piece :: rest => String c piece :: rest
           | [] => [String c EmptyString]
           end
  end.

(** [answer or default]. *)
Definition or_default (answer default : string) : string :=
  if is_empty answer then default else answer.

(** [v[:100]] on an attribute value. *)
Definition first_100 (v : value) : value :=
  match v with
  | VStr s => VStr (str_take 100 s)
  | VList l => VList (take 100 l)
  end.

Section Shell.

Variable vec : Type.
Variable fvec_L2sqr : vec -> vec -> Q.
Variable embeddings_create : nat -> string -> vec.
Variable chat_completions_create : nat -> string -> string -> string.
Variable str_of_list : list string -> string.
Variable str_of_exn : exn -> string.

Local Abbreviation in_world := (Demo.in_world vec).
Local Abbreviation on_agent := (Demo.on_agent vec).

Definition get_user_preferences : M (Demo.DemoState vec) Demo.Prefs :=
  in_world (print (LF +:+ "📝 请提供您的旅行偏好:")) ;;
  a1 <- in_world (input "出发日期 (YYYY-MM-DD): ") ;;
  let start_date := or_default a1 "2024-04-10" in
  a2 <- in_world (input "返回日期 (YYYY-MM-DD): ") ;;
  let end_date := or_default a2 "2024-04-15" in
  a3 <- in_world (input "预算金额 (美元): ") ;;
  let budget := or_default a3 "10000" in
  a4 <- in_world (input "交通方式 (airplane/train/bus/car): ") ;;
  let transport_mode := or_default a4 "airplane" in
  a5 <- in_world (input "住宿类型 (hotel/Airbnb): ") ;;
  let accommodation_type := or_default a5 "hotel" in
  a6 <- in_world (input "旅行偏好描述: ") ;;
  let preferences := or_default a6 "I prefer cultural experiences and local food" in
  a7 <- in_world (input "兴趣列表 (用逗号分隔): ") ;;
  let interests_input := or_default a7 "museums, Broadway shows, Central Park" in
  let interests := map strip (split_char "," interests_input) in
  ret (Demo.mkPrefs [start_date; end_date] ("$" +:+ budget) transport_mode
         accommodation_type preferences interests).

(** [run_demo]; the [except KeyboardInterrupt] branch is for a signal
    from the terminal, which is not among the modelled exceptions. *)
Definition run_demo : M (Demo.DemoState vec) unit :=
  in_world (print "🎉 欢迎使用AI旅行规划系统！") ;;
  in_world (print (repeat_str "=" 60)) ;;
  try_except
    (Demo.initialize_agent vec embeddings_create ;;
     user_prefs <- get_user_preferences ;;
     Demo.generate_travel_plan vec fvec_L2sqr embeddings_create
       chat_completions_create str_of_list user_prefs ;;
     Demo.analyze_results vec user_prefs)
    (fun e =>
       in_world (print (LF +:+ "❌ 发生错误: " +:+ str_of_exn e)) ;;
       in_world (modify (write_stderr "Traceback (most recent call last):"))).

Definition test_queries : list string :=
  ["museums and art galleries"; "fine dining restaurants";
   "outdoor activities"; "cultural experiences"].

(** The line printed for the [i]-th of the first two results. *)
Definition result_line (i : Z) (result : record) : outcome string :=
  match keys result with
  | [] => Raise IndexError
  | name :: _ =>
      let description :=
        match dict_get "description" result with
        | Some v => v
        | None => VStr "N/A"
        end in
      Return ("   " +:+ pretty i +:+ ". " +:+ name +:+ ": "
              +:+ str_of_value str_of_list (first_100 description) +:+ "...")
  end.

(** [for i, result in enumerate(results, start): print(...)]. *)
Fixpoint print_results (start : Z) (results : list record)
  : M (Demo.DemoState vec) unit :=
  match results with
  | [] => ret tt
  | result :: rest =>
      line <- lift_outcome (result_line start result) ;;
      in_world (print line) ;;
      print_results (start + 1) rest
  end.

(** [test_vector_search]; the local variable [agent] is kept in the
    [agent] slot of the state. *)
Definition test_vector_search : M (Demo.DemoState vec) unit :=
  in_world (print "🔍 测试向量搜索功能") ;;
  in_world (print (repeat_str "=" 30)) ;;
  try_except
    (Demo.set_agent vec (Some (TravelAgent.__init__ "TestAgent" 100 1536)) ;;
     on_agent (load_knowledge vec embeddings_create nyc_knowledge) ;;
     for_each test_queries (fun query =>
       in_world (print (LF +:+ "🔎 查询: " +:+ query)) ;;
       results <- on_agent (retrieve_knowledge vec fvec_L2sqr
                              embeddings_create query) ;;
       in_world (print ("📋 找到 " +:+ pretty (Z.of_nat (length results))
                        +:+ " 个相关结果")) ;;
       print_results 1 (take 2 results)))
    (fun e => in_world (print ("❌ 测试失败: " +:+ str_of_exn e))).

(** One turn of the menu loop and the turns after it.  Every turn reads
    a line, so the pending input [lines] bounds the number of turns; with
    no line left [input] has already raised [EOFError]. *)
Fixpoint menu (env : environ) (lines : list string)
  : M (Demo.DemoState vec) unit :=
  answer <- in_world (input (LF +:+ "请输入选择 (1-4): ")) ;;
  let choice := strip answer in
  if String.eqb choice "1" then
    Demo.__init__ vec env ;; run_demo
  else if String.eqb choice "2" then
    Demo.run_quick_demo vec fvec_L2sqr embeddings_create
      chat_completions_create str_of_list str_of_exn env
  else if String.eqb choice "3" then test_vector_search
  else if String.eqb choice "4" then in_world (print "👋 再见！")
  else
    in_world (print "❌ 无效选择，请重新输入") ;;
    match lines with
    | [] => raise EOFError
    | _ :: rest => menu env rest
    end.

Definition main (env : environ) : M (Demo.DemoState vec) unit :=
  in_world (print "🎯 AI旅行规划系统 - 使用示例") ;;
  in_world (print (repeat_str "=" 50)) ;;
  in_world (print "请选择运行模式:") ;;
  in_world (print "1. 完整演示 (交互式)") ;;
  in_world (print "2. 快速演示 (预设参数)") ;;
  in_world (print "3. 测试向量搜索") ;;
  in_world (print "4. 退出") ;;
  fun s => menu env (stdin (Demo.demo_world s)) s.

End Shell.

End Shell.

(** ** More stand-ins for concrete runs *)

Module Stub2.
Import Text Regex Py Sys Knowledge Dates TravelAgent.

(** A knowledge base of six records whose titles have different lengths. *)
Definition six_records : knowledge_base :=
  [("sights",
    [("a", [("description", VStr "first")]);
     ("bb", [("description", VStr "second")]);
     ("ccc", [("description", VStr "third")]);
     ("dddd", [("description", VStr "fourth")]);
     ("eeeee", [("description", VStr "fifth")]);
     ("ffffff", [("description", VStr "sixth")])])].

Definition fresh_agent (lines : list string) : State Stub.vec :=
  mkState (__init__ "NYCAI" 1000 1536) (fresh_world lines).

(** A fresh agent after one load of [six_records]. *)
Definition loaded_six : State Stub.vec :=
  state_of (load_knowledge Stub.vec Stub.embeddings_create six_records
              (fresh_agent [])).

(** A fresh agent after one load of the built-in base, with two lines
    waiting on the console. *)
Definition loaded_nyc_with_input : State Stub.vec :=
  state_of (load_knowledge Stub.vec Stub.embeddings_create nyc_knowledge
              (fresh_agent ["train"; "hotel"])).

(** [str(e)] as the interpreter renders the modelled exceptions. *)
Definition str_of_exn (e : exn) : string :=
  match e with
  | IndexError => "list index out of range"
  | ValueError => "time data does not match format '%Y-%m-%d'"
  | EOFError => "EOF when reading a line"
  | OpenAIError => "The api_key client option must be set"
  | AttributeError => "'NoneType' object has no attribute"
  | SystemExit code => pretty code
  end.

(** An environment in which the key is set. *)
Definition env_with_key : environ := {["OPENAI_API_KEY" := "sk-test"]}.

(** A shell that has made no agent yet, with the given lines to read. *)
Definition fresh_shell (lines : list string) : Demo.DemoState Stub.vec :=
  Demo.mkDemo None (fresh_world lines).

End Stub2.

(** ** Auxiliary notions for the demo shell *)

Module Aux3.
Import Text Regex Py Sys Knowledge Dates TravelAgent.

(** A computation from which no [SystemExit] escapes: it returns, or
    raises something [except Exception] catches. *)
Definition no_exit {S A} (m : M S A) : Prop :=
  forall s,
    match outcome_of (m s) with
    | Return _ => True
    | Raise e => is_Exception e = true
    end.

(** An answer the menu of [main] accepts. *)
Definition valid_choice (answer : string) : bool :=
  let choice := strip answer in
  String.eqb choice "1" || String.eqb choice "2"
  || String.eqb choice "3" || String.eqb choice "4".

(** The lines [main] prints before it asks. *)
Definition menu_header : list string :=
  ["🎯 AI旅行规划系统 - 使用示例"; repeat_str "=" 50; "请选择运行模式:";
   "1. 完整演示 (交互式)"; "2. 快速演示 (预设参数)"; "3. 测试向量搜索";
   "4. 退出"].

Definition menu_prompt : string := LF +:+ "请输入选择 (1-4): ".

(** What the console shows for a turn with an answer that is turned
    away. *)
Definition turned_away (answers : list string) : list string :=
  concat (map (fun _ : string => [menu_prompt; "❌ 无效选择，请重新输入"])
            answers).

(** The prompts of [get_user_preferences]. *)
Definition preference_prompts : list string :=
  ["出发日期 (YYYY-MM-DD): "; "返回日期 (YYYY-MM-DD): "; "预算金额 (美元): ";
   "交通方式 (airplane/train/bus/car): "; "住宿类型 (hotel/Airbnb): ";
   "旅行偏好描述: "; "兴趣列表 (用逗号分隔): "].

(** No comma occurs in [s]. *)
Definition comma_free (s : string) : Prop :=
  ","%char ∉ list_ascii_of_string s.

End Aux3.

(** ** The preset parameters of the two scripts *)

Module Preset.
Import Text Regex Py Sys Knowledge Dates TravelAgent.

(** The preference text both scripts pass to [plan_nyc_trip]. *)
Definition preferences : string :=
  "I prefer a mix of sightseeing, cultural experiences, and trying local food. I like to walk a lot but also want to use public transport.".

Definition interests : list string :=
  ["museums"; "Broadway shows"; "Central Park"].

(** The texts a preset run embeds after the titles of the base. *)
Definition queries_sent : list string :=
  [preferences; "museums"; "Broadway shows"].

(** What [analyze_results] prints for the preset parameters. *)
Definition analysis : list string :=
  [LF +:+ "📊 旅行计划分析:"; repeat_str "=" 40; "📅 旅行天数: 5 天";
   "💰 预算: $10000"; "🎯 主要兴趣: museums, Broadway shows, Central Park";
   LF +:+ "🎨 兴趣分析:"; "   • museums"; "   • Broadway shows";
   "   • Central Park"; LF +:+ "✅ 旅行计划生成完成！"].

(** The start of the description of every record of the built-in base,
    as [test_vector_search] shows it. *)
Definition excerpts : list string :=
  map (fun item : record =>
         match dict_get "description" item with
         | Some (VStr d) => str_take 100 d
         | _ => EmptyString
         end)
      (bodies nyc_knowledge).

(** What [test_vector_search] prints for a query whose two nearest
    records have the descriptions starting with [d1] and [d2]. *)
Definition search_report (query d1 d2 : string) : list string :=
  [LF +:+ "🔎 查询: " +:+ query; "📋 找到 5 个相关结果";
   "   1. description: " +:+ d1 +:+ "...";
   "   2. description: " +:+ d2 +:+ "..."].

End Preset.

(** * Properties *)

Import Text Regex Py Sys Knowledge Dates TravelAgent.

(** ** Strings *)

Lemma app_cons c s t : String c s +:+ t = String c (s +:+ t).
Proof. reflexivity. Qed.

Lemma app_nil_l_str s : EmptyString +:+ s = s.
Proof. reflexivity. Qed.

Lemma app_nil_r_str s : s +:+ EmptyString = s.
Proof. induction s as [|c s IH]; [done|]. by rewrite app_cons, IH. Qed.

Lemma app_assoc_str s t u : (s +:+ t) +:+ u = s +:+ (t +:+ u).
Proof. induction s as [|c s IH]; [done|]. by rewrite !app_cons, IH. Qed.

Lemma app_length_str s t :
  String.length (s +:+ t) = (String.length s + String.length t)%nat.
Proof.
  induction s as [|c s IH]; [done|].
  rewrite app_cons. cbn [String.length]. by rewrite IH.
Qed.

Lemma app_inv_tail_str s1 s2 t : s1 +:+ t = s2 +:+ t -> s1 = s2.
Proof.
  revert s2. induction s1 as [|c s1 IH]; intros s2 H.
  - destruct s2 as [|d s2]; [done|]. exfalso.
    apply (f_equal String.length) in H.
    rewrite app_cons in H. cbn [String.length] in H.
    rewrite app_nil_l_str, app_length_str in H. lia.
  - destruct s2 as [|d s2].
    + exfalso. apply (f_equal String.length) in H.
      rewrite app_cons in H. cbn [String.length] in H.
      rewrite app_nil_l_str, app_length_str in H. lia.
    + rewrite !app_cons in H. injection H as -> H. f_equal. by apply IH.
Qed.

(** ** The monad *)

Lemma for_each_app {S A} (l1 l2 : list A) (body : A -> M S unit) (s : S) :
  for_each (l1 ++ l2) body s = (for_each l1 body ;; for_each l2 body) s.
Proof.
  revert s. induction l1 as [|x l1 IH]; intros s; simpl.
  - reflexivity.
  - unfold bind in *. destruct (body x s) as [[[]|e] s']; [|reflexivity].
    apply IH.
Qed.

Lemma bind_return {S A B} (m : M S A) (k : A -> M S B) s a s' :
  m s = (Return a, s') -> bind m k s = k a s'.
Proof. intros H. unfold bind. by rewrite H. Qed.

Lemma bind_raise {S A B} (m : M S A) (k : A -> M S B) s e s' :
  m s = (Raise e, s') -> bind m k s = (Raise e, s').
Proof. intros H. unfold bind. by rewrite H. Qed.

Lemma try_except_exit {S} (m : M S unit) handler s code s' :
  m s = (Raise (SystemExit code), s') ->
  try_except m handler s = (Raise (SystemExit code), s').
Proof. intros H. unfold try_except. by rewrite H. Qed.

(** A loop whose body always returns is a left fold of its state change. *)
Lemma for_each_total {S A} (step : A -> S -> S) (body : A -> M S unit) :
  (forall x s, body x s = (Return tt, step x s)) ->
  forall l s, for_each l body s = (Return tt, fold_left (fun s x => step x s) l s).
Proof.
  intros Hb l. induction l as [|x l IH]; intros s; simpl.
  - reflexivity.
  - unfold bind. rewrite Hb. apply IH.
Qed.

(** ** Loading *)

Section Loading.

Variable vec : Type.
Variable embeddings_create : nat -> string -> vec.

Local Abbreviation load_record := (load_record vec embeddings_create).
Local Abbreviation load_knowledge := (load_knowledge vec embeddings_create).
Local Abbreviation load_step := (Aux.load_step vec embeddings_create).
Local Abbreviation loaded := (Aux.loaded vec embeddings_create).
Local Abbreviation clean := (replace_char "010" " ").

Lemma load_record_step entry s : load_record entry s = (Return tt, load_step entry s).
Proof.
  destruct entry as [key value]. destruct s as [a w].
  unfold TravelAgent.load_record, Aux.load_step, bind, gets; simpl.
  destruct (embedding_cache a !! key) as [e|]; reflexivity.
Qed.

Lemma nested_loops (kb : knowledge_base) s :
  for_each kb (fun '(category, subcategories) =>
    for_each subcategories load_record) s
  = (Return tt, loaded (titled_records kb) s).
Proof.
  unfold titled_records, Aux.loaded. revert s.
  induction kb as [|[category subcategories] kb IH]; intros s; simpl.
  - reflexivity.
  - unfold bind.
    rewrite (for_each_total _ _ load_record_step subcategories s).
    rewrite IH, fold_left_app. reflexivity.
Qed.

Lemma loaded_cons entry l s : loaded (entry :: l) s = loaded l (load_step entry s).
Proof. reflexivity. Qed.

Lemma loaded_app l1 l2 s : loaded (l1 ++ l2) s = loaded l2 (loaded l1 s).
Proof. apply fold_left_app. Qed.

Lemma load_step_data entry s :
  knowledge_data (self (load_step entry s)) = knowledge_data (self s) ++ [snd entry].
Proof. unfold Aux.load_step. destruct (_ !! _); reflexivity. Qed.

Lemma load_step_index entry s : index (self (load_step entry s)) = index (self s).
Proof. unfold Aux.load_step. destruct (_ !! _); reflexivity. Qed.

Lemma load_step_cache_size entry s :
  cache_size (self (load_step entry s)) = cache_size (self s).
Proof. unfold Aux.load_step. destruct (_ !! _); reflexivity. Qed.

Lemma load_step_cache_mono entry s :
  embedding_cache (self s) ⊆ embedding_cache (self (load_step entry s)).
Proof.
  unfold Aux.load_step. destruct (_ !! _) eqn:E; simpl; [done|].
  by apply insert_subseteq.
Qed.

Lemma loaded_data l s :
  knowledge_data (self (loaded l s)) = knowledge_data (self s) ++ map snd l.
Proof.
  revert s. induction l as [|x l IH]; intros s.
  - simpl. by rewrite app_nil_r.
  - rewrite loaded_cons, IH, load_step_data, <- app_assoc. reflexivity.
Qed.

Lemma loaded_index l s : index (self (loaded l s)) = index (self s).
Proof.
  revert s. induction l as [|x l IH]; intros s; [reflexivity|].
  by rewrite loaded_cons, IH, load_step_index.
Qed.

Lemma loaded_cache_size l s : cache_size (self (loaded l s)) = cache_size (self s).
Proof.
  revert s. induction l as [|x l IH]; intros s; [reflexivity|].
  by rewrite loaded_cons, IH, load_step_cache_size.
Qed.

Lemma loaded_cache_mono l s :
  embedding_cache (self s) ⊆ embedding_cache (self (loaded l s)).
Proof.
  revert s. induction l as [|x l IH]; intros s; [done|].
  rewrite loaded_cons. etrans; [apply load_step_cache_mono | apply IH].
Qed.

Lemma load_step_embeddings entry s :
  exists e,
    knowledge_embeddings (self (load_step entry s))
    = knowledge_embeddings (self s) ++ [e]
    /\ embedding_cache (self (load_step entry s)) !! fst entry = Some e.
Proof.
  unfold Aux.load_step. destruct (_ !! _) as [e|] eqn:E; simpl.
  - exists e. done.
  - eexists. split; [reflexivity|]. apply lookup_insert_eq.
Qed.

(** The vectors a load appends are the cached embeddings of the titles, in
    the order of the records. *)
Lemma loaded_embeddings l s :
  exists es,
    knowledge_embeddings (self (loaded l s)) = knowledge_embeddings (self s) ++ es
    /\ Forall2 (fun tb e => embedding_cache (self (loaded l s)) !! fst tb = Some e) l es.
Proof.
  revert s. induction l as [|x l IH]; intros s.
  - exists []. simpl. rewrite app_nil_r. split; [done|constructor].
  - rewrite loaded_cons.
    destruct (load_step_embeddings x s) as (e & He & Hc).
    destruct (IH (load_step x s)) as (es & Hes & Hf).
    exists (e :: es). split.
    + rewrite Hes, He, <- app_assoc. reflexivity.
    + constructor; [|exact Hf].
      eapply lookup_weaken; [exact Hc | apply loaded_cache_mono].
Qed.

Lemma loaded_titles_cached l s t :
  t ∈ map fst l -> is_Some (embedding_cache (self (loaded l s)) !! t).
Proof.
  intros Ht. destruct (loaded_embeddings l s) as (es & _ & Hf).
  apply list_elem_of_fmap in Ht as ([t' b] & -> & Hin).
  apply list_elem_of_lookup in Hin as [i Hi].
  destruct (Forall2_lookup_l _ _ _ _ _ Hf Hi) as (e & _ & He). eauto.
Qed.

(** A load over titles that are all cached sends nothing and leaves the
    cache as it is. *)
Lemma loaded_cached l s :
  (forall t, t ∈ map fst l -> is_Some (embedding_cache (self s) !! t)) ->
  world (loaded l s) = world s
  /\ embedding_cache (self (loaded l s)) = embedding_cache (self s).
Proof.
  revert s. induction l as [|[t b] l IH]; intros s Hc; [done|].
  rewrite loaded_cons.
  assert (Hs : world (load_step (t, b) s) = world s
               /\ embedding_cache (self (load_step (t, b) s))
                  = embedding_cache (self s)).
  { unfold Aux.load_step. simpl.
    destruct (Hc t) as [e He]; [simpl; left|]. rewrite He. done. }
  destruct Hs as [Hw Hk].
  destruct (IH (load_step (t, b) s)) as [Hw' Hk'].
  - intros t' Ht'. rewrite Hk. apply Hc. simpl. by right.
  - split; congruence.
Qed.

(** A load over pairwise distinct titles none of which is cached sends one
    request per title, in order, and appends the answers. *)
Lemma loaded_fresh l s :
  NoDup (map fst l) ->
  (forall t, t ∈ map fst l -> embedding_cache (self s) !! t = None) ->
  let n0 := length (embedding_requests (world s)) in
  knowledge_embeddings (self (loaded l s))
  = knowledge_embeddings (self s)
    ++ imap (fun i tb => embeddings_create (n0 + i) (clean (fst tb))) l
  /\ embedding_requests (world (loaded l s))
     = embedding_requests (world s) ++ map (fun tb => clean (fst tb)) l.
Proof.
  revert s. induction l as [|[t b] l IH]; intros s Hnd Hnone n0.
  - simpl. by rewrite !app_nil_r.
  - rewrite loaded_cons. simpl in Hnd. apply NoDup_cons in Hnd as [Hnotin Hnd].
    assert (Ht : embedding_cache (self s) !! t = None)
      by (apply Hnone; simpl; left).
    set (s1 := load_step (t, b) s).
    assert (Hs1 : s1 = mkState
              (append_data vec b (append_embedding vec
                 (embeddings_create n0 (clean t))
                 (cache_put vec t (embeddings_create n0 (clean t)) (self s))))
              (log_embedding (clean t) (world s))).
    { unfold s1, Aux.load_step. simpl. rewrite Ht. reflexivity. }
    destruct (IH s1 Hnd) as [He Hr].
    { intros t' Ht'. rewrite Hs1. simpl. rewrite lookup_insert_ne.
      - apply Hnone. simpl. by right.
      - intros ->. contradiction. }
    rewrite He, Hr, Hs1. simpl. rewrite length_app. simpl.
    rewrite <- !app_assoc. simpl. split; [|reflexivity].
    do 2 f_equal.
    + f_equal. unfold n0. lia.
    + apply imap_ext. intros i x _. simpl. f_equal. unfold n0. lia.
Qed.

Lemma index_extend_nil (a : Agent vec) : index_extend vec [] a = a.
Proof. destruct a. unfold index_extend. simpl. by rewrite app_nil_r. Qed.

(** The state a call of [load_knowledge] leaves behind, whether it returns
    or raises. *)
Lemma load_knowledge_state kb s :
  let s1 := loaded (titled_records kb) s in
  state_of (load_knowledge kb s)
  = mkState (index_extend vec (knowledge_embeddings (self s1)) (self s1))
            (world s1).
Proof.
  intros s1. unfold TravelAgent.load_knowledge, bind, state_of.
  rewrite nested_loops. fold s1. unfold gets, IndexFlatL2_add.
  destruct (knowledge_embeddings (self s1)) eqn:E.
  - unfold raise. simpl. rewrite index_extend_nil. by destruct s1.
  - reflexivity.
Qed.

Lemma load_knowledge_outcome kb s :
  let s1 := loaded (titled_records kb) s in
  outcome_of (load_knowledge kb s)
  = match knowledge_embeddings (self s1) with
    | [] => Raise ValueError
    | _ :: _ => Return tt
    end.
Proof.
  intros s1. unfold TravelAgent.load_knowledge, bind, outcome_of.
  rewrite nested_loops. fold s1. unfold gets, IndexFlatL2_add.
  destruct (knowledge_embeddings (self s1)); reflexivity.
Qed.

Lemma loaded_embeddings_length l s :
  length (knowledge_embeddings (self (loaded l s)))
  = (length (knowledge_embeddings (self s)) + length l)%nat.
Proof.
  destruct (loaded_embeddings l s) as (es & -> & Hf).
  rewrite length_app. by rewrite (Forall2_length _ _ _ Hf).
Qed.

(** C1: for a knowledge base with N titled records and no duplicate
    titles, one [load_knowledge] on a fresh agent leaves exactly N vectors
    in the index and N records in [knowledge_data]; position [i] of
    [knowledge_data] holds the body of the [i]-th record, and position [i]
    of the index holds the embedding of that record's title (the answer to
    the [i]-th request the load sent, which is also what the cache holds
    for the title).  The call returns normally when N is not 0. *)
Theorem load_knowledge_alignment (kb : knowledge_base) (nm : string)
    (cs dim : Z) (w : World) :
  NoDup (titles kb) ->
  let r := load_knowledge kb (mkState (__init__ nm cs dim) w) in
  let a' := self (state_of r) in
  let N := length (titled_records kb) in
  length (index a') = N
  /\ length (knowledge_data a') = N
  /\ (forall i title body,
        titled_records kb !! i = Some (title, body) ->
        knowledge_data a' !! i = Some body
        /\ index a' !! i
           = Some (embeddings_create (length (embedding_requests w) + i)
                     (clean title))
        /\ embedding_cache a' !! title = index a' !! i)
  /\ (N <> 0%nat -> outcome_of r = Return tt).
Proof.
  intros Hnd r a' N.
  set (s0 := mkState (__init__ (vec:=vec) nm cs dim) w).
  set (s1 := loaded (titled_records kb) s0).
  assert (Hst : state_of r
                = mkState (index_extend vec (knowledge_embeddings (self s1)) (self s1))
                          (world s1)) by apply load_knowledge_state.
  destruct (loaded_fresh (titled_records kb) s0 Hnd) as [He Hr].
  { intros t _. apply lookup_empty. }
  fold s1 in He, Hr. simpl in He, Hr.
  assert (Hidx : index a'
                 = imap (fun i tb => embeddings_create
                           (length (embedding_requests w) + i) (clean (fst tb)))
                        (titled_records kb)).
  { unfold a'. rewrite Hst. simpl. unfold s1. rewrite loaded_index. simpl.
    fold s1. exact He. }
  assert (Hdata : knowledge_data a' = map snd (titled_records kb)).
  { unfold a'. rewrite Hst. simpl. unfold s1. by rewrite loaded_data. }
  assert (Hcache : embedding_cache a' = embedding_cache (self s1)).
  { unfold a'. rewrite Hst. reflexivity. }
  split; [by rewrite Hidx, length_imap|].
  split; [by rewrite Hdata, length_map|].
  split.
  - intros i title body Hi.
    assert (Hix : index a' !! i
                  = Some (embeddings_create (length (embedding_requests w) + i)
                            (clean title))).
    { rewrite Hidx, list_lookup_imap, Hi. reflexivity. }
    split; [by rewrite Hdata, list_lookup_fmap, Hi|].
    split; [exact Hix|].
    rewrite Hix, Hcache.
    destruct (loaded_embeddings (titled_records kb) s0) as (es & Hes & Hf).
    fold s1 in Hes, Hf. simpl in Hes. rewrite He in Hes. subst es.
    destruct (Forall2_lookup_l _ _ _ _ _ Hf Hi) as (e & Hei & Hce).
    simpl in Hce. rewrite Hce. rewrite list_lookup_imap, Hi in Hei.
    simpl in Hei. congruence.
  - intros HN. unfold r. rewrite load_knowledge_outcome. fold s0 s1.
    rewrite He. destruct (titled_records kb); [done|reflexivity].
Qed.

(** C3: a second [load_knowledge] of the same base on the same agent sends
    no embedding request: the requests made up to the end of the second
    load are those made up to the end of the first, because every title
    of the base is in [embedding_cache] once the first load is over. *)
Theorem reload_sends_no_embedding_request (kb : knowledge_base) (s : State vec) :
  let s1 := state_of (load_knowledge kb s) in
  let s2 := state_of (load_knowledge kb s1) in
  embedding_requests (world s2) = embedding_requests (world s1)
  /\ length (embedding_requests (world s2)) = length (embedding_requests (world s1))
  /\ (forall title, title ∈ titles kb ->
        is_Some (embedding_cache (self s1) !! title))
  /\ embedding_cache (self s2) = embedding_cache (self s1).
Proof.
  intros s1 s2.
  assert (Hc : forall title, title ∈ titles kb ->
                 is_Some (embedding_cache (self s1) !! title)).
  { intros t Ht. unfold s1. rewrite load_knowledge_state. simpl.
    by apply loaded_titles_cached. }
  destruct (loaded_cached (titled_records kb) s1 Hc) as [Hw Hk].
  assert (Hw2 : world s2 = world s1).
  { unfold s2. rewrite load_knowledge_state. simpl. exact Hw. }
  assert (Hk2 : embedding_cache (self s2) = embedding_cache (self s1)).
  { unfold s2. rewrite load_knowledge_state. simpl. exact Hk. }
  rewrite Hw2. done.
Qed.

(** C8: two [load_knowledge] calls with the same N-record base on a fresh
    agent leave 3*N vectors in the index and 2*N records in
    [knowledge_data]: the second call adds the whole accumulated
    [knowledge_embeddings] list, whose first N vectors the first call had
    already added.  So the index and the data are aligned after the first
    load and, for N other than 0, no longer after the second. *)
Theorem double_load_index_size (kb : knowledge_base) (nm : string)
    (cs dim : Z) (w : World) :
  let N := length (titled_records kb) in
  let s1 := state_of (load_knowledge kb (mkState (__init__ nm cs dim) w)) in
  let s2 := state_of (load_knowledge kb s1) in
  length (index (self s1)) = N
  /\ length (knowledge_data (self s1)) = N
  /\ length (index (self s2)) = (3 * N)%nat
  /\ length (knowledge_data (self s2)) = (2 * N)%nat
  /\ index (self s2) = index (self s1) ++ knowledge_embeddings (self s2)
  /\ (exists es, knowledge_embeddings (self s2) = index (self s1) ++ es
                 /\ length es = N)
  /\ (N <> 0%nat -> length (index (self s2)) <> length (knowledge_data (self s2))).
Proof.
  intros N s1 s2.
  set (s0 := mkState (__init__ (vec:=vec) nm cs dim) w).
  set (t0 := loaded (titled_records kb) s0).
  set (t1 := loaded (titled_records kb) s1).
  assert (H1 : s1 = mkState (index_extend vec (knowledge_embeddings (self t0))
                               (self t0)) (world t0))
    by apply load_knowledge_state.
  assert (H2 : s2 = mkState (index_extend vec (knowledge_embeddings (self t1))
                               (self t1)) (world t1))
    by apply load_knowledge_state.
  assert (E0 : length (knowledge_embeddings (self t0)) = N)
    by (unfold t0; rewrite loaded_embeddings_length; reflexivity).
  assert (I0 : index (self t0) = []) by (unfold t0; by rewrite loaded_index).
  assert (D0 : knowledge_data (self t0) = map snd (titled_records kb))
    by (unfold t0; by rewrite loaded_data).
  assert (Hi1 : index (self s1) = knowledge_embeddings (self t0))
    by (rewrite H1; cbn [self index index_extend]; by rewrite I0).
  assert (He1 : knowledge_embeddings (self s1) = knowledge_embeddings (self t0))
    by (rewrite H1; reflexivity).
  assert (Hd1 : knowledge_data (self s1) = map snd (titled_records kb))
    by (rewrite H1; exact D0).
  destruct (loaded_embeddings (titled_records kb) s1) as (es & Hes & Hf).
  fold t1 in Hes, Hf.
  assert (Les : length es = N) by (symmetry; apply (Forall2_length _ _ _ Hf)).
  assert (Hi2 : index (self s2) = index (self s1) ++ knowledge_embeddings (self s2)).
  { rewrite H2. cbn [self index index_extend knowledge_embeddings].
    unfold t1 at 1. by rewrite loaded_index. }
  assert (He2 : knowledge_embeddings (self s2) = index (self s1) ++ es).
  { rewrite H2. cbn [self index_extend knowledge_embeddings].
    rewrite Hes, He1, Hi1. reflexivity. }
  assert (Hd2 : length (knowledge_data (self s2)) = (2 * N)%nat).
  { rewrite H2. cbn [self index_extend knowledge_data].
    unfold t1. rewrite loaded_data, length_app, Hd1.
    rewrite !length_map. fold N. lia. }
  assert (L1 : length (index (self s1)) = N) by (rewrite Hi1; exact E0).
  assert (L2 : length (index (self s2)) = (3 * N)%nat).
  { rewrite Hi2, He2, !length_app, L1, Les. lia. }
  split; [exact L1|].
  split; [by rewrite Hd1, length_map|].
  split; [exact L2|].
  split; [exact Hd2|].
  split; [exact Hi2|].
  split; [by exists es|].
  intros HN. rewrite L2, Hd2. lia.
Qed.

End Loading.

(** ** The presenter: trip length and the budget argument *)

Section Presenter.

Variable vec : Type.


Lemma in_world_print line (s : State vec) :
  in_world vec (print line) s
  = (Return tt, mkState (self s) (write_stdout line (world s))).
Proof. reflexivity. Qed.

Lemma print_items_returns (items : list string) (s : State vec) :
  outcome_of (for_each items (fun item => in_world vec (print item)) s) = Return tt.
Proof.
  revert s. induction items as [|x items IH]; intros s; simpl; [done|].
  unfold bind. rewrite in_world_print. apply IH.
Qed.

Lemma print_sections_returns (itinerary : dict (list string)) (s : State vec) :
  outcome_of (for_each itinerary (fun '(section, items) =>
     in_world vec (print (LF +:+ section)) ;;
     in_world vec (print (repeat_str "-" 30)) ;;
     for_each items (fun item => in_world vec (print item)) ;;
     in_world vec (print (repeat_str "-" 20))) s) = Return tt.
Proof.
  revert s. induction itinerary as [|[section items] it IH]; intros s; [done|].
  cbn [for_each]. unfold bind at 1 2 3 4. rewrite !in_world_print.
  match goal with
  | |- context [for_each items ?f ?s0] =>
      pose proof (print_items_returns items s0) as Ho;
      unfold outcome_of in Ho;
      destruct (for_each items f s0) as [[[]|e] s']; [|discriminate]
  end.
  rewrite in_world_print. apply IH.
Qed.

(** C7: for the travel dates 2024-04-10 and 2024-04-15 the trip length
    [present_itinerary] computes, end date minus start date in days, is 5
    (and with these dates the presenter runs to its end). *)
Theorem trip_length_april (B : Type) (itinerary_text : string) (budget : B)
    (s : State vec) :
  num_days ["2024-04-10"; "2024-04-15"] s = (Return 5%Z, s)
  /\ outcome_of (present_itinerary vec itinerary_text budget
                   ["2024-04-10"; "2024-04-15"] s) = Return tt.
Proof.
  split; [reflexivity|].
  unfold TravelAgent.present_itinerary.
  change (num_days ["2024-04-10"; "2024-04-15"]) with
    (fun s : State vec => (Return 5%Z, s)).
  unfold bind at 1 2 3 4. rewrite !in_world_print.
  apply print_sections_returns.
Qed.

(** C10: the budget argument does not influence [present_itinerary]: for
    the same text, dates and starting state, two budgets (of any types)
    give the same outcome, the same console output and the same final
    agent state. *)
Theorem present_itinerary_budget_noninterference (B1 B2 : Type)
    (itinerary_text : string) (b1 : B1) (b2 : B2)
    (travel_dates : list string) (s : State vec) :
  let r1 := present_itinerary vec itinerary_text b1 travel_dates s in
  let r2 := present_itinerary vec itinerary_text b2 travel_dates s in
  outcome_of r1 = outcome_of r2
  /\ stdout (world (state_of r1)) = stdout (world (state_of r2))
  /\ self (state_of r1) = self (state_of r2)
  /\ world (state_of r1) = world (state_of r2).
Proof. repeat split. Qed.

End Presenter.

(** ** The embedding cache only grows *)

Section Cache.

Variable vec : Type.
Variable fvec_L2sqr : vec -> vec -> Q.
Variable embeddings_create : nat -> string -> vec.
Variable chat_completions_create : nat -> string -> string -> string.
Variable str_of_list : list string -> string.

Local Abbreviation retrieve_knowledge :=
  (retrieve_knowledge vec fvec_L2sqr embeddings_create).
Local Abbreviation perform :=
  (Aux.perform vec fvec_L2sqr embeddings_create chat_completions_create
     str_of_list).
Local Abbreviation perform_all :=
  (Aux.perform_all vec fvec_L2sqr embeddings_create chat_completions_create
     str_of_list).

Local Abbreviation keeps := (@Aux.keeps vec _).

Lemma keeps_ret {A} (a : A) : keeps (ret a).
Proof. intros s. done. Qed.

Lemma keeps_raise {A} e : keeps (raise (A:=A) e).
Proof. intros s. done. Qed.

Lemma keeps_gets {A} (f : State vec -> A) : keeps (gets f).
Proof. intros s. done. Qed.

Lemma keeps_lift_outcome {A} (o : outcome A) : keeps (lift_outcome o).
Proof. intros s. done. Qed.

Lemma keeps_in_world {A} (m : M World A) : keeps (in_world vec m).
Proof.
  intros s. unfold in_world, state_of. destruct (m (world s)). done.
Qed.

Lemma keeps_on_self (f : Agent vec -> Agent vec) :
  (forall a, embedding_cache a ⊆ embedding_cache (f a)
             /\ cache_size (f a) = cache_size a) ->
  keeps (on_self vec f).
Proof. intros Hf s. apply Hf. Qed.

Lemma keeps_bind {A B} (m : M (State vec) A) (k : A -> M (State vec) B) :
  keeps m -> (forall a, keeps (k a)) -> keeps (bind m k).
Proof.
  intros Hm Hk s. unfold bind, state_of.
  specialize (Hm s). unfold state_of in Hm.
  destruct (m s) as [[a|e] s1]; simpl in *; [|exact Hm].
  specialize (Hk a s1). unfold state_of in Hk.
  destruct Hm as [Hm1 Hm2]. destruct Hk as [Hk1 Hk2].
  split; [by etrans | congruence].
Qed.

Lemma keeps_for_each {A} (l : list A) (body : A -> M (State vec) unit) :
  (forall x, keeps (body x)) -> keeps (for_each l body).
Proof.
  intros Hb. induction l as [|x l IH]; simpl.
  - apply keeps_ret.
  - apply keeps_bind; [apply Hb | intros _; exact IH].
Qed.

Ltac keeps_step :=
  first
    [ apply keeps_ret | apply keeps_raise | apply keeps_gets
    | apply keeps_lift_outcome | apply keeps_in_world
    | apply keeps_for_each; intros ?
    | apply keeps_bind; [|intros ?] ].

Lemma retrieve_knowledge_spec query s :
  let s' := state_of (retrieve_knowledge query s) in
  embedding_cache (self s) ⊆ embedding_cache (self s')
  /\ cache_size (self s') = cache_size (self s)
  /\ is_Some (embedding_cache (self s') !! query).
Proof.
  destruct s as [a w].
  unfold TravelAgent.retrieve_knowledge, bind, gets, state_of, lift_outcome.
  simpl. destruct (embedding_cache a !! query) as [e|] eqn:E; simpl.
  - split; [done|]. split; [done|]. rewrite E. eauto.
  - split; [by apply insert_subseteq|]. split; [done|].
    rewrite lookup_insert_eq. eauto.
Qed.

Lemma retrieve_knowledge_keeps query : keeps (retrieve_knowledge query).
Proof. intros s. destruct (retrieve_knowledge_spec query s) as (?&?&?). done. Qed.

Lemma load_knowledge_keeps kb : keeps (load_knowledge vec embeddings_create kb).
Proof.
  intros s. rewrite load_knowledge_state. simpl.
  split; [apply loaded_cache_mono | apply loaded_cache_size].
Qed.

Lemma retrieve_interests_keeps interests relevant_knowledge :
  keeps (retrieve_interests vec fvec_L2sqr embeddings_create interests
           relevant_knowledge).
Proof.
  revert relevant_knowledge.
  induction interests as [|interest rest IH]; intros relevant_knowledge; simpl.
  - apply keeps_ret.
  - apply keeps_bind; [apply retrieve_knowledge_keeps | intros more; apply IH].
Qed.

Lemma num_days_keeps travel_dates : keeps (num_days travel_dates).
Proof. unfold num_days. repeat keeps_step. Qed.

Lemma present_itinerary_keeps {B} itinerary_text (budget : B) travel_dates :
  keeps (present_itinerary vec itinerary_text budget travel_dates).
Proof.
  unfold present_itinerary.
  apply keeps_bind; [apply num_days_keeps | intros days].
  repeat keeps_step. destruct x as [section items]. repeat keeps_step.
Qed.

Lemma plan_nyc_trip_keeps {B} travel_dates (budget : B) preferences interests :
  keeps (plan_nyc_trip vec fvec_L2sqr embeddings_create chat_completions_create
           str_of_list travel_dates budget preferences interests).
Proof.
  unfold plan_nyc_trip.
  do 3 (apply keeps_bind; [apply keeps_in_world | intros ?]).
  apply keeps_bind; [apply retrieve_knowledge_keeps | intros ?].
  apply keeps_bind; [apply retrieve_interests_keeps | intros ?].
  do 3 (apply keeps_bind; [apply keeps_lift_outcome | intros ?]).
  do 5 (apply keeps_bind; [apply keeps_in_world | intros ?]).
  apply present_itinerary_keeps.
Qed.

Lemma perform_keeps op s :
  embedding_cache (self s) ⊆ embedding_cache (self (perform op s))
  /\ cache_size (self (perform op s)) = cache_size (self s).
Proof.
  destruct op; simpl.
  - apply load_knowledge_keeps.
  - apply retrieve_knowledge_keeps.
  - apply plan_nyc_trip_keeps.
  - apply present_itinerary_keeps.
Qed.

Lemma perform_all_keeps ops s :
  embedding_cache (self s) ⊆ embedding_cache (self (perform_all ops s))
  /\ cache_size (self (perform_all ops s)) = cache_size (self s).
Proof.
  revert s. induction ops as [|op ops IH]; intros s; [done|].
  change (perform_all (op :: ops) s) with (perform_all ops (perform op s)).
  destruct (perform_keeps op s) as [H1 H2].
  destruct (IH (perform op s)) as [H3 H4].
  split; [by etrans | by rewrite H4, H2].
Qed.

Lemma retrievals_cache_queries (queries : list string) s q :
  q ∈ queries ->
  is_Some (embedding_cache (self (perform_all (map Aux.Retrieve queries) s)) !! q).
Proof.
  revert s. induction queries as [|q0 queries IH]; intros s Hq.
  - by apply elem_of_nil in Hq.
  - change (perform_all (map Aux.Retrieve (q0 :: queries)) s)
      with (perform_all (map Aux.Retrieve queries) (perform (Aux.Retrieve q0) s)).
    apply elem_of_cons in Hq as [->|Hq]; [|by apply IH].
    destruct (retrieve_knowledge_spec q0 s) as (_ & _ & [e He]).
    exists e. eapply lookup_weaken; [exact He|].
    apply perform_all_keeps.
Qed.

Lemma repeat_str_length n : String.length (repeat_str "a" n) = n.
Proof.
  induction n as [|n IH]; [done|].
  change (S (String.length (repeat_str "a" n)) = S n). by rewrite IH.
Qed.

Lemma distinct_queries_NoDup n : NoDup (Aux.distinct_queries n).
Proof.
  unfold Aux.distinct_queries. apply NoDup_fmap_2_strong; [|apply NoDup_seq].
  intros i j _ _ Hij. rewrite <- (repeat_str_length i), Hij.
  apply repeat_str_length.
Qed.

(** C6: no operation of the agent removes an entry of [embedding_cache] or
    changes the configured [cache_size], and the configured size does not
    bound the cache: from every state some sequence of operations makes the
    cache strictly larger than [cache_size]. *)
Theorem embedding_cache_append_only_unbounded :
  (forall op s key e,
      embedding_cache (self s) !! key = Some e ->
      embedding_cache (self (perform op s)) !! key = Some e)
  /\ (forall op s, cache_size (self (perform op s)) = cache_size (self s))
  /\ (forall s, exists ops,
        (cache_size (self (perform_all ops s))
         < Z.of_nat (size (embedding_cache (self (perform_all ops s)))))%Z).
Proof.
  split; [|split].
  - intros op s key e He. eapply lookup_weaken; [exact He|].
    apply perform_keeps.
  - intros op s. apply perform_keeps.
  - intros s.
    set (n := S (Z.to_nat (cache_size (self s)))).
    exists (map Aux.Retrieve (Aux.distinct_queries n)).
    destruct (perform_all_keeps (map Aux.Retrieve (Aux.distinct_queries n)) s)
      as [_ ->].
    set (c := embedding_cache (self (perform_all _ s))).
    assert (Hsub : list_to_set (Aux.distinct_queries n) ⊆ dom c).
    { intros q Hq. apply elem_of_list_to_set in Hq. apply elem_of_dom.
      by apply retrievals_cache_queries. }
    apply subseteq_size in Hsub.
    rewrite size_list_to_set in Hsub by apply distinct_queries_NoDup.
    rewrite size_dom in Hsub.
    unfold Aux.distinct_queries in Hsub.
    rewrite length_map, length_seq in Hsub. unfold n in Hsub. lia.
Qed.

End Cache.

(** ** The knowledge digest *)

Section Digest.

Variable vec : Type.
Variable embeddings_create : nat -> string -> vec.
Variable str_of_list : list string -> string.

Local Abbreviation summarize_item := (summarize_item str_of_list).
Local Abbreviation summarize_loop := (summarize_loop str_of_list).
Local Abbreviation summarize_knowledge := (summarize_knowledge str_of_list).
Local Abbreviation digest_block := (Aux.digest_block str_of_list).

Lemma summarize_item_appends summary item :
  item <> [] ->
  summarize_item summary item = Return (summary +:+ digest_block item).
Proof.
  intros Hne. destruct item as [|[name v] attrs]; [done|].
  unfold Aux.digest_block, TravelAgent.summarize_item.
  cbn [keys map fst]. f_equal.
  destruct (dict_get "address" _), (dict_get "website" _), (dict_get "tips" _);
    rewrite ?app_assoc_str, ?app_nil_l_str; reflexivity.
Qed.

Lemma digest_block_header name v attrs :
  exists tail,
    digest_block ((name, v) :: attrs) = "**" +:+ name +:+ "**" +:+ LF +:+ tail.
Proof.
  unfold Aux.digest_block, TravelAgent.summarize_item.
  cbn [keys map fst].
  destruct (dict_get "address" _), (dict_get "website" _), (dict_get "tips" _);
    rewrite ?app_assoc_str, ?app_nil_l_str; eexists; reflexivity.
Qed.

Lemma summarize_loop_blocks knowledge_list summary :
  Forall (fun item => item <> []) knowledge_list ->
  summarize_loop summary knowledge_list
  = Return (summary +:+ Aux.concat_str (map digest_block knowledge_list)).
Proof.
  intros Hne. revert summary.
  induction Hne as [|item rest Hitem _ IH]; intros summary.
  - simpl. by rewrite app_nil_r_str.
  - cbn [TravelAgent.summarize_loop]. rewrite summarize_item_appends by done.
    rewrite IH. cbn [map Aux.concat_str foldr]. by rewrite app_assoc_str.
Qed.

Lemma summarize_loop_raises knowledge_list summary :
  Exists (fun item => item = []) knowledge_list ->
  summarize_loop summary knowledge_list = Raise IndexError.
Proof.
  intros Hex. revert summary.
  induction Hex as [item rest Hitem|item rest _ IH]; intros summary.
  - subst item. reflexivity.
  - cbn [TravelAgent.summarize_loop].
    destruct item as [|[name v] attrs]; [reflexivity|].
    rewrite summarize_item_appends by done. apply IH.
Qed.

(** C9: for a non-empty list of retrieved records the digest is the
    concatenation of one block per record, and the header line of a block
    names the first attribute key of the record body, not the record's
    title: [load_knowledge] stores the bodies only, and a first key other
    than the title gives a header other than the title's.  (A record
    without any attribute has no first key: the call then raises
    [IndexError] and builds no digest.) *)
Theorem digest_headers_name_first_attribute (knowledge_list : list record) :
  knowledge_list <> [] ->
  (Forall (fun item => item <> []) knowledge_list ->
   summarize_knowledge knowledge_list
   = Return (Aux.concat_str (map digest_block knowledge_list))
   /\ Forall (fun item =>
        exists name v attrs tail,
          item = (name, v) :: attrs
          /\ digest_block item = "**" +:+ name +:+ "**" +:+ LF +:+ tail)
        knowledge_list)
  /\ (Exists (fun item => item = []) knowledge_list ->
      summarize_knowledge knowledge_list = Raise IndexError)
  /\ (forall name title : string,
        name <> title ->
        "**" +:+ name +:+ "**" +:+ LF <> "**" +:+ title +:+ "**" +:+ LF)
  /\ (forall kb (s : State vec),
        knowledge_data (self (state_of (load_knowledge vec embeddings_create kb s)))
        = knowledge_data (self s) ++ bodies kb).
Proof.
  intros Hne. split; [|split; [|split]].
  - intros Hitems. split.
    + destruct knowledge_list as [|item rest]; [done|].
      unfold TravelAgent.summarize_knowledge.
      rewrite summarize_loop_blocks by done. by rewrite app_nil_l_str.
    + eapply Forall_impl; [exact Hitems|]. intros item Hitem.
      destruct item as [|[name v] attrs]; [done|].
      destruct (digest_block_header name v attrs) as [tail Ht].
      exists name, v, attrs, tail. done.
  - intros Hex. destruct knowledge_list as [|item rest]; [done|].
    unfold TravelAgent.summarize_knowledge. by apply summarize_loop_raises.
  - intros name title Hnt H. apply Hnt.
    apply (String.app_inj "**") in H.
    by apply app_inv_tail_str in H.
  - intros kb s. rewrite load_knowledge_state. simpl.
    by rewrite loaded_data.
Qed.

End Digest.

(** ** Retrieval *)

Section Retrieval.

Variable vec : Type.
Variable fvec_L2sqr : vec -> vec -> Q.
Variable embeddings_create : nat -> string -> vec.

Local Abbreviation ranked := (ranked vec fvec_L2sqr).
Local Abbreviation IndexFlatL2_search := (IndexFlatL2_search vec fvec_L2sqr).
Local Abbreviation retrieve_knowledge :=
  (retrieve_knowledge vec fvec_L2sqr embeddings_create).

Lemma insert_by_Forall (P : Q * nat -> Prop) x l :
  P x -> Forall P l -> Forall P (insert_by x l).
Proof.
  intros Hx Hl. induction Hl as [|y l Hy Hl IH]; simpl.
  - by constructor.
  - destruct (Qle_bool (fst x) (fst y)); by repeat constructor.
Qed.

Lemma insert_by_length x l : length (insert_by x l) = S (length l).
Proof.
  induction l as [|y l IH]; simpl; [done|].
  destruct (Qle_bool (fst x) (fst y)); simpl; congruence.
Qed.

Lemma foldr_insert_by_Forall (P : Q * nat -> Prop) l :
  Forall P l -> Forall P (foldr insert_by [] l).
Proof.
  induction 1 as [|x l Hx Hl IH]; simpl; [constructor|].
  by apply insert_by_Forall.
Qed.

Lemma foldr_insert_by_length l : length (foldr insert_by [] l) = length l.
Proof.
  induction l as [|x l IH]; simpl; [done|]. by rewrite insert_by_length, IH.
Qed.

Lemma ranked_length xb q : length (ranked xb q) = length xb.
Proof. unfold TravelAgent.ranked. by rewrite foldr_insert_by_length, length_imap. Qed.

Lemma ranked_labels xb q :
  Forall (fun p => (snd p < length xb)%nat) (ranked xb q).
Proof.
  unfold TravelAgent.ranked. apply foldr_insert_by_Forall.
  apply Forall_lookup. intros i p Hp.
  rewrite list_lookup_imap in Hp.
  destruct (xb !! i) as [x|] eqn:E; [|discriminate].
  injection Hp as <-. simpl. by apply lookup_lt_Some in E.
Qed.

(** The ranking is by non-decreasing distance. *)
Lemma insert_by_sorted x l :
  Sorted (fun a b => (fst a <= fst b)%Q) l ->
  Sorted (fun a b => (fst a <= fst b)%Q) (insert_by x l).
Proof.
  induction 1 as [|y l Hl IH Hhd]; simpl.
  - repeat constructor.
  - destruct (Qle_bool (fst x) (fst y)) eqn:E.
    + constructor; [by constructor|]. constructor. by apply Qle_bool_iff.
    + assert (Hyx : (fst y <= fst x)%Q).
      { destruct (Qlt_le_dec (fst y) (fst x)) as [Hlt|Hle].
        - by apply Qlt_le_weak.
        - apply Qle_bool_iff in Hle. congruence. }
      constructor; [exact IH|].
      destruct l as [|z l]; simpl.
      * by constructor.
      * destruct (Qle_bool (fst x) (fst z)); constructor; [exact Hyx|].
        by inversion Hhd.
Qed.

Lemma ranked_sorted xb q :
  Sorted (fun a b => (fst a <= fst b)%Q) (ranked xb q).
Proof.
  unfold TravelAgent.ranked.
  induction (imap _ xb) as [|x l IH]; simpl; [constructor|].
  by apply insert_by_sorted.
Qed.

(** The search always answers with [k] labels, each a stored position
    or [-1]; the [-1]s are exactly the missing neighbours. *)
Lemma search_length xb q k : length (IndexFlatL2_search xb q k) = k.
Proof.
  unfold TravelAgent.IndexFlatL2_search.
  rewrite length_app, length_replicate, !length_map, !length_take.
  generalize (length (ranked xb q)). intros n. lia.
Qed.

Lemma search_labels xb q k :
  Forall (fun z => z = (-1)%Z \/ (0 <= z < Z.of_nat (length xb))%Z)
         (IndexFlatL2_search xb q k).
Proof.
  unfold TravelAgent.IndexFlatL2_search. apply Forall_app. split.
  - apply Forall_fmap. apply Forall_take.
    eapply Forall_impl; [apply ranked_labels|].
    intros p Hp. simpl in *. right. lia.
  - apply Forall_replicate. by left.
Qed.

Lemma getitem_in_range {A} (data : list A) z :
  data <> [] ->
  z = (-1)%Z \/ (0 <= z < Z.of_nat (length data))%Z ->
  exists r, getitem data z = Return r.
Proof.
  intros Hne Hz. unfold getitem.
  assert (Hlen : (0 < length data)%nat) by (destruct data; [done|simpl; lia]).
  destruct Hz as [->|Hz].
  - replace (-1 <? 0)%Z with true by reflexivity.
    destruct (_ || _)%bool eqn:E.
    + apply orb_true_iff in E as [E|E]; [apply Z.ltb_lt in E|apply Z.leb_le in E]; lia.
    + destruct (data !! _) as [r|] eqn:El; [eauto|].
      apply lookup_ge_None in El. lia.
  - replace (z <? 0)%Z with false by (symmetry; apply Z.ltb_ge; lia).
    destruct (_ || _)%bool eqn:E.
    + apply orb_true_iff in E as [E|E]; [apply Z.ltb_lt in E|apply Z.leb_le in E]; lia.
    + destruct (data !! _) as [r|] eqn:El; [eauto|].
      apply lookup_ge_None in El. lia.
Qed.

Lemma gather_length (data : list record) I acc :
  data <> [] ->
  Forall (fun z => z = (-1)%Z \/ (0 <= z < Z.of_nat (length data))%Z) I ->
  exists l, gather data I acc = Return l
            /\ length l = (length acc + length I)%nat.
Proof.
  intros Hne HI. revert acc.
  induction HI as [|z I Hz HI IH]; intros acc; simpl.
  - exists acc. split; [done|lia].
  - destruct (getitem_in_range data z Hne Hz) as [r ->].
    destruct (IH (acc ++ [r])) as (l & Hl & Hlen).
    exists l. split; [done|]. rewrite Hlen, length_app. simpl. lia.
Qed.

(** On an agent whose index and data are aligned and not empty, a
    retrieval returns five records, whatever the number of records. *)
Lemma retrieve_knowledge_returns_five query (s : State vec) :
  length (index (self s)) = length (knowledge_data (self s)) ->
  knowledge_data (self s) <> [] ->
  exists l, outcome_of (retrieve_knowledge query s) = Return l
            /\ length l = 5%nat.
Proof.
  intros Hal Hne. destruct s as [a w]. simpl in Hal, Hne.
  unfold TravelAgent.retrieve_knowledge, bind, gets, outcome_of, lift_outcome.
  simpl.
  destruct (embedding_cache a !! query) as [e|] eqn:E; simpl.
  - destruct (gather_length (knowledge_data a)
                (IndexFlatL2_search (index a) e 5) [] Hne) as (l & -> & Hl).
    { rewrite <- Hal. apply search_labels. }
    exists l. split; [done|]. rewrite Hl, search_length. done.
  - match goal with |- context [IndexFlatL2_search _ ?e 5] =>
      destruct (gather_length (knowledge_data a)
                  (IndexFlatL2_search (index a) e 5) [] Hne) as (l & -> & Hl)
    end.
    { rewrite <- Hal. apply search_labels. }
    exists l. split; [done|]. rewrite Hl, search_length. done.
Qed.

Lemma gather_app (data : list record) I1 I2 acc :
  gather data (I1 ++ I2) acc
  = match gather data I1 acc with
    | Return l => gather data I2 l
    | Raise e => Raise e
    end.
Proof.
  revert acc. induction I1 as [|i I1 IH]; intros acc; simpl; [done|].
  destruct (getitem data i); [apply IH|done].
Qed.

Lemma gather_padding (data : list record) r n acc :
  getitem data (-1) = Return r ->
  gather data (replicate n (-1)%Z) acc = Return (acc ++ replicate n r).
Proof.
  intros Hr. revert acc. induction n as [|n IH]; intros acc; simpl.
  - by rewrite app_nil_r.
  - rewrite Hr, IH, <- app_assoc. reflexivity.
Qed.

(** With fewer than five records loaded, the answer is filled up to five
    with copies of the last record, [knowledge_data[-1]]. *)
Lemma retrieve_knowledge_pads_with_last query (s : State vec) :
  let N := length (knowledge_data (self s)) in
  length (index (self s)) = N ->
  (0 < N < 5)%nat ->
  exists nearest r,
    getitem (knowledge_data (self s)) (-1) = Return r
    /\ length nearest = N
    /\ outcome_of (retrieve_knowledge query s)
       = Return (nearest ++ replicate (5 - N) r).
Proof.
  intros N Hal HN. destruct s as [a w]. simpl in N, Hal.
  assert (Hne : knowledge_data a <> []).
  { intros Heq. unfold N in HN. rewrite Heq in HN. simpl in HN. lia. }
  destruct (getitem_in_range (knowledge_data a) (-1) Hne) as [r Hr]; [by left|].
  assert (Hq : forall e,
    exists nearest, length nearest = N
      /\ gather (knowledge_data a) (IndexFlatL2_search (index a) e 5) []
         = Return (nearest ++ replicate (5 - N) r)).
  { intros e. unfold TravelAgent.IndexFlatL2_search.
    set (labels := map (fun p : Q * nat => Z.of_nat (snd p))
                     (take 5 (ranked (index a) e))).
    assert (Hlen : length labels = N).
    { unfold labels. rewrite length_map, length_take, ranked_length, Hal. lia. }
    rewrite gather_app.
    destruct (gather_length (knowledge_data a) labels [] Hne)
      as (nearest & -> & Hn).
    { unfold labels. apply Forall_fmap. apply Forall_take.
      eapply Forall_impl; [apply ranked_labels|].
      intros p Hp. simpl in *. right. fold N. lia. }
    exists nearest. split; [simpl in Hn; lia|].
    rewrite Hlen. by apply gather_padding. }
  unfold TravelAgent.retrieve_knowledge, bind, gets, outcome_of, lift_outcome.
  simpl.
  destruct (embedding_cache a !! query) as [e|]; simpl.
  - destruct (Hq e) as (nearest & Hn & ->). by exists nearest, r.
  - match goal with |- context [IndexFlatL2_search _ ?e 5] =>
      destruct (Hq e) as (nearest & Hn & ->)
    end.
    by exists nearest, r.
Qed.

End Retrieval.

(** C2, on the built-in knowledge base: with its three records loaded,
    [retrieve_knowledge("museums")] returns five records, not three: the
    search pads its answer with the label [-1], and [knowledge_data[-1]] is
    the last record, which comes back three times. *)
Theorem retrieve_on_three_records_returns_five :
  length (knowledge_data (self Stub.loaded_nyc)) = 3%nat
  /\ length (index (self Stub.loaded_nyc)) = 3%nat
  /\ IndexFlatL2_search Stub.vec Stub.fvec_L2sqr (index (self Stub.loaded_nyc))
       (Stub.embeddings_create 3 "museums") 5
     = [1; 0; 2; -1; -1]%Z
  /\ exists r0 r1 r2,
       knowledge_data (self Stub.loaded_nyc) = [r0; r1; r2]
       /\ outcome_of
            (retrieve_knowledge Stub.vec Stub.fvec_L2sqr Stub.embeddings_create
               "museums" Stub.loaded_nyc)
          = Return [r1; r0; r2; r2; r2].
Proof.
  split; [reflexivity|]. split; [reflexivity|]. split; [by vm_compute|].
  do 3 eexists. split; [reflexivity|]. by vm_compute.
Qed.

(** ** Start-up without a credential *)

Section Startup.

Variable vec : Type.
Variable fvec_L2sqr : vec -> vec -> Q.
Variable embeddings_create : nat -> string -> vec.
Variable chat_completions_create : nat -> string -> string -> string.
Variable str_of_list : list string -> string.
Variable str_of_exn : exn -> string.

Local Abbreviation run_module :=
  (run_module vec fvec_L2sqr embeddings_create chat_completions_create
     str_of_list).
Local Abbreviation setup_environment := (Demo.setup_environment vec).
Local Abbreviation run_quick_demo :=
  (Demo.run_quick_demo vec fvec_L2sqr embeddings_create
     chat_completions_create str_of_list str_of_exn).

Lemma module_body_without_key env w :
  env !! "OPENAI_API_KEY" = None ->
  module_body env w = (Raise OpenAIError, w).
Proof. intros H. unfold module_body, OpenAI. rewrite H. reflexivity. Qed.

Lemma setup_environment_without_key env (s : Demo.DemoState vec) :
  env !! "OPENAI_API_KEY" = None ->
  setup_environment env s
  = (Raise (SystemExit 1),
     Demo.mkDemo (Demo.agent s)
       (mkWorld (embedding_requests (Demo.demo_world s))
                (chat_requests (Demo.demo_world s))
                (stdout (Demo.demo_world s) ++ Aux.missing_key_report)
                (stdin (Demo.demo_world s))
                (stderr (Demo.demo_world s)))).
Proof.
  intros H. unfold Demo.setup_environment. rewrite H.
  destruct s as [a [er cr out inp err]].
  unfold bind, Demo.in_world, print, modify, Demo.sys_exit, raise,
    write_stdout, Aux.missing_key_report; simpl.
  rewrite <- !app_assoc. reflexivity.
Qed.

Lemma run_quick_demo_without_key env (s : Demo.DemoState vec) :
  env !! "OPENAI_API_KEY" = None ->
  run_quick_demo env s
  = (Raise (SystemExit 1),
     Demo.mkDemo None
       (mkWorld (embedding_requests (Demo.demo_world s))
                (chat_requests (Demo.demo_world s))
                (stdout (Demo.demo_world s)
                 ++ ["🚀 AI旅行规划系统 - 快速演示"; repeat_str "=" 50]
                 ++ Aux.missing_key_report)
                (stdin (Demo.demo_world s))
                (stderr (Demo.demo_world s)))).
Proof.
  intros H. unfold Demo.run_quick_demo.
  erewrite bind_return by reflexivity.
  erewrite bind_return by reflexivity.
  erewrite try_except_exit; [reflexivity|].
  erewrite bind_raise; [reflexivity|].
  unfold Demo.__init__. erewrite bind_return by reflexivity.
  rewrite setup_environment_without_key by done.
  destruct s as [a [er cr out inp err]]. simpl.
  rewrite <- !app_assoc. reflexivity.
Qed.

(** C5: with [OPENAI_API_KEY] absent from the environment, both scripts
    end at the construction of the client, when the agent module is
    loaded: exit status 1, a traceback on the error stream, nothing sent
    to either endpoint, whatever the input and the services would answer.
    The check of the demo shell itself, [setup_environment], ends the same
    way when reached: it reports the missing key on the console and exits
    with status 1 before any request, also through the [except Exception]
    of the quick demo. *)
Theorem missing_credential_stops_before_network (env : environ) :
  env !! "OPENAI_API_KEY" = None ->
  (forall w,
      run_module env w
      = (1%Z, write_stderr "Traceback (most recent call last):" w))
  /\ (forall main_body w,
        Demo.run_script env main_body w
        = (1%Z, write_stderr "Traceback (most recent call last):" w))
  /\ (forall w, network_calls
                  (write_stderr "Traceback (most recent call last):" w)
                = network_calls w)
  /\ (forall s : Demo.DemoState vec,
        let r := setup_environment env s in
        outcome_of r = Raise (SystemExit 1)
        /\ stdout (Demo.demo_world (state_of r))
           = stdout (Demo.demo_world s) ++ Aux.missing_key_report
        /\ network_calls (Demo.demo_world (state_of r))
           = network_calls (Demo.demo_world s))
  /\ (forall s : Demo.DemoState vec,
        let r := run_quick_demo env s in
        outcome_of r = Raise (SystemExit 1)
        /\ network_calls (Demo.demo_world (state_of r))
           = network_calls (Demo.demo_world s)).
Proof.
  intros H. split; [|split; [|split; [|split]]].
  - intros w. unfold TravelAgent.run_module, python, bind.
    rewrite module_body_without_key by done. reflexivity.
  - intros main_body w. unfold Demo.run_script, python, bind.
    rewrite module_body_without_key by done. reflexivity.
  - intros w. reflexivity.
  - intros s r. unfold r. rewrite setup_environment_without_key by done.
    done.
  - intros s r. unfold r. rewrite run_quick_demo_without_key by done.
    done.
Qed.

End Startup.

(** ** Splitting the itinerary text *)

Section Splitting.

Lemma rev_app_rev s a b :
  String.rev_app (String.rev_app s a) b = String.rev_app a (s +:+ b).
Proof.
  revert a b. induction s as [|c s IH]; intros a b; [reflexivity|].
  cbn [String.rev_app]. rewrite IH. reflexivity.
Qed.

Lemma rev_rev_app s : String.rev (String.rev_app s EmptyString) = s.
Proof.
  unfold String.rev. rewrite rev_app_rev. cbn [String.rev_app].
  apply app_nil_r_str.
Qed.

Lemma str_take_app s t : str_take (String.length s) (s +:+ t) = s.
Proof.
  induction s as [|c s IH]; [by destruct t|].
  rewrite app_cons. cbn [String.length str_take]. by rewrite IH.
Qed.

Lemma str_drop_app n s t :
  (n <= String.length s)%nat -> str_drop n (s +:+ t) = str_drop n s +:+ t.
Proof.
  revert s. induction n as [|n IH]; intros s Hn; [reflexivity|].
  destruct s as [|c s]; [cbn [String.length] in Hn; lia|].
  rewrite app_cons. cbn [str_drop]. apply IH. cbn [String.length] in Hn. lia.
Qed.

Lemma span_le p s : (span p s <= String.length s)%nat.
Proof.
  induction s as [|c s IH]; cbn [span String.length]; [lia|].
  destruct (p c); lia.
Qed.

(** A run that stops inside [s], or at its end when [t] does not continue
    it, is the same in [s +:+ t]. *)
Lemma span_app p s t :
  span p s <> String.length s \/ span p t = 0%nat ->
  span p (s +:+ t) = span p s.
Proof.
  induction s as [|c s IH]; intros H.
  - rewrite app_nil_l_str. cbn [span String.length] in *.
    destruct H as [H|H]; [done|exact H].
  - rewrite app_cons. cbn [span String.length] in *.
    destruct (p c); [|reflexivity]. f_equal. apply IH.
    destruct H as [H|H]; [left; lia | by right].
Qed.

Lemma str_drop_all s : str_drop (String.length s) s = EmptyString.
Proof. induction s as [|c s IH]; [done|exact IH]. Qed.

Lemma strip_prefix_app p s t r :
  strip_prefix p s = Some r -> strip_prefix p (s +:+ t) = Some (r +:+ t).
Proof.
  revert s. induction p as [|a p IH]; intros s H.
  - cbn [strip_prefix] in *. by injection H as ->.
  - destruct s as [|b s]; [discriminate|].
    rewrite app_cons. cbn [strip_prefix] in *.
    destruct (Ascii.eqb a b); [by apply IH | discriminate].
Qed.

(** A literal without label initials that matches [s +:+ t], where [t]
    is a boundary, matches inside [s]. *)
Lemma strip_prefix_boundary p s t r :
  Aux.no_label_start p = true ->
  Aux.boundary t = true ->
  strip_prefix p (s +:+ t) = Some r ->
  exists r', strip_prefix p s = Some r'.
Proof.
  revert s. induction p as [|a p IH]; intros s Hp Ht Hm.
  - cbn [strip_prefix]. eauto.
  - unfold Aux.no_label_start in Hp. cbn [list_ascii_of_string forallb] in Hp.
    apply andb_true_iff in Hp as [Ha Hp].
    destruct s as [|b s].
    + rewrite app_nil_l_str in Hm. destruct t as [|c t]; [discriminate|].
      cbn [strip_prefix] in Hm. destruct (Ascii.eqb a c) eqn:E; [|discriminate].
      apply Ascii.eqb_eq in E as <-. cbn [Aux.boundary] in Ht.
      rewrite Ht in Ha. discriminate.
    + rewrite app_cons in Hm. cbn [strip_prefix] in *.
      destruct (Ascii.eqb a b); [|discriminate]. by eapply IH.
Qed.

Lemma boundary_span_space t : Aux.boundary t = true -> span is_space t = 0%nat.
Proof.
  destruct t as [|c t]; [done|]. cbn [Aux.boundary span]. intros H.
  destruct (is_space c) eqn:E; [|done]. exfalso.
  unfold Aux.label_start in H.
  repeat (apply orb_true_iff in H as [H|H]);
    apply Ascii.eqb_eq in H; subst c; discriminate.
Qed.

Lemma boundary_span_digit t : Aux.boundary t = true -> span is_digit t = 0%nat.
Proof.
  destruct t as [|c t]; [done|]. cbn [Aux.boundary span]. intros H.
  destruct (is_digit c) eqn:E; [|done]. exfalso.
  unfold Aux.label_start in H.
  repeat (apply orb_true_iff in H as [H|H]);
    apply Ascii.eqb_eq in H; subst c; discriminate.
Qed.

Lemma boundary_not_colon t r : Aux.boundary t = true -> t <> String ":" r.
Proof. intros H ->. discriminate. Qed.

(** The tail of a day label found in [r] is found in every extension. *)
Lemma match_day_tail_app r t n :
  match_day_tail r = Some n -> match_day_tail (r +:+ t) = Some n.
Proof.
  unfold match_day_tail. cbv zeta.
  set (n1 := span is_space r).
  destruct (n1 =? 0)%nat eqn:E1; [discriminate|].
  set (r1 := str_drop n1 r).
  set (m := span is_digit r1).
  destruct (m =? 0)%nat eqn:E2; [discriminate|].
  destruct (str_drop m r1) as [|c x] eqn:E3; [discriminate|].
  intros H.
  assert (Hr1 : r1 <> EmptyString).
  { intros Hr. unfold m in E2. rewrite Hr in E2. discriminate. }
  assert (Hs1 : span is_space (r +:+ t) = n1).
  { apply span_app. left. intros Heq. apply Hr1. unfold r1, n1.
    rewrite Heq. apply str_drop_all. }
  rewrite Hs1, E1.
  rewrite str_drop_app by apply span_le. fold r1.
  assert (Hs2 : span is_digit (r1 +:+ t) = m).
  { apply span_app. left. intros Heq. fold m in Heq.
    rewrite Heq, str_drop_all in E3. discriminate. }
  rewrite Hs2, E2.
  rewrite str_drop_app by apply span_le. fold m. rewrite E3, app_cons.
  exact H.
Qed.

(** The tail of a day label found in [r +:+ t], where [t] is a boundary,
    lies inside [r]. *)
Lemma match_day_tail_boundary r t n :
  Aux.boundary t = true ->
  match_day_tail (r +:+ t) = Some n -> match_day_tail r = Some n.
Proof.
  intros Ht. unfold match_day_tail. cbv zeta.
  rewrite (span_app is_space r t) by (right; by apply boundary_span_space).
  set (n1 := span is_space r).
  destruct (n1 =? 0)%nat; [done|].
  rewrite str_drop_app by apply span_le.
  set (r1 := str_drop n1 r).
  rewrite (span_app is_digit r1 t) by (right; by apply boundary_span_digit).
  set (m := span is_digit r1).
  destruct (m =? 0)%nat; [done|].
  rewrite str_drop_app by apply span_le.
  destruct (str_drop m r1) as [|c x].
  - rewrite app_nil_l_str. destruct t as [|c t]; [done|].
    destruct (Ascii.eqb c ":") eqn:E.
    + apply Ascii.eqb_eq in E as ->. discriminate.
    + intros H. exfalso. revert H E. clear.
      destruct c as [[] [] [] [] [] [] [] []]; try discriminate.
  - rewrite app_cons. intros H. exact H.
Qed.

Lemma match_day_cons b s :
  match_day (String b s)
  = if Ascii.eqb "D" b
    then match strip_prefix "ay" s with
         | Some r => match_day_tail r
         | None => None
         end
    else None.
Proof. unfold match_day. cbn [strip_prefix]. by destruct (Ascii.eqb "D" b). Qed.

Lemma match_label_cons b s :
  match_label (String b s)
  = if Ascii.eqb "T" b
    then match strip_prefix "ransportation:" s with
         | Some _ => Some 15%nat
         | None => None
         end
    else if Ascii.eqb "A" b
    then match strip_prefix "ccommodation:" s with
         | Some _ => Some 14%nat
         | None => None
         end
    else match_day (String b s).
Proof.
  unfold match_label. cbn [strip_prefix].
  destruct (Ascii.eqb "T" b) eqn:E1.
  - apply Ascii.eqb_eq in E1 as <-.
    destruct (strip_prefix "ransportation:" s); reflexivity.
  - destruct (Ascii.eqb "A" b) eqn:E2; [|reflexivity].
    apply Ascii.eqb_eq in E2 as <-.
    destruct (strip_prefix "ccommodation:" s); reflexivity.
Qed.

(** A label found at the start of [s] is found at the start of every
    extension of [s]. *)
Lemma match_label_app s t n :
  match_label s = Some n -> match_label (s +:+ t) = Some n.
Proof.
  destruct s as [|b s]; [discriminate|].
  rewrite app_cons, !match_label_cons, !match_day_cons.
  destruct (Ascii.eqb "T" b).
  { destruct (strip_prefix "ransportation:" s) as [r|] eqn:E; [|discriminate].
    by rewrite (strip_prefix_app _ _ t _ E). }
  destruct (Ascii.eqb "A" b).
  { destruct (strip_prefix "ccommodation:" s) as [r|] eqn:E; [|discriminate].
    by rewrite (strip_prefix_app _ _ t _ E). }
  destruct (Ascii.eqb "D" b); [|discriminate].
  destruct (strip_prefix "ay" s) as [r|] eqn:E; [|discriminate].
  rewrite (strip_prefix_app _ _ t _ E). apply match_day_tail_app.
Qed.

(** A label found at the start of [s +:+ t], where [s] is not empty and
    [t] is a boundary, lies inside [s]. *)
Lemma match_label_boundary s t n :
  s <> EmptyString ->
  Aux.boundary t = true ->
  match_label (s +:+ t) = Some n -> match_label s = Some n.
Proof.
  intros Hs Ht. destruct s as [|b s]; [done|].
  rewrite app_cons, !match_label_cons, !match_day_cons.
  destruct (Ascii.eqb "T" b).
  { destruct (strip_prefix "ransportation:" (s +:+ t)) as [r|] eqn:E;
      [|discriminate].
    apply strip_prefix_boundary in E as [r' ->]; done. }
  destruct (Ascii.eqb "A" b).
  { destruct (strip_prefix "ccommodation:" (s +:+ t)) as [r|] eqn:E;
      [|discriminate].
    apply strip_prefix_boundary in E as [r' ->]; done. }
  destruct (Ascii.eqb "D" b); [|discriminate].
  destruct (strip_prefix "ay" (s +:+ t)) as [r|] eqn:E; [|discriminate].
  destruct (strip_prefix_boundary "ay" s t r eq_refl Ht E) as [r' E'].
  rewrite E'. rewrite (strip_prefix_app _ _ t _ E') in E.
  injection E as <-. by apply match_day_tail_boundary.
Qed.

Lemma has_label_head s : has_label s = false -> match_label s = None.
Proof. destruct s; cbn [has_label]; by destruct (match_label _). Qed.

Lemma has_label_tail c s : has_label (String c s) = false -> has_label s = false.
Proof. cbn [has_label]. by destruct (match_label _). Qed.

(** Text without a label, up to a boundary, is passed over as one piece. *)
Lemma split_aux_gap g t cur :
  has_label g = false ->
  Aux.boundary t = true ->
  split_aux (g +:+ t) 0 cur = split_aux t 0 (String.rev_app g cur).
Proof.
  revert cur. induction g as [|c g IH]; intros cur Hg Ht; [reflexivity|].
  rewrite app_cons. cbn [split_aux String.rev_app].
  destruct (match_label (String c (g +:+ t))) as [n|] eqn:E.
  - rewrite <- app_cons in E. apply match_label_boundary in E; [|done|done].
    apply has_label_head in Hg. congruence.
  - apply IH; [by eapply has_label_tail | done].
Qed.

Lemma split_aux_skip x t cur :
  split_aux (x +:+ t) (String.length x) cur = split_aux t 0 cur.
Proof.
  induction x as [|c x IH]; [reflexivity|].
  rewrite app_cons. cbn [split_aux String.length]. exact IH.
Qed.

(** A label is emitted after the piece before it, and scanning resumes
    behind it. *)
Lemma split_aux_label L t cur :
  L <> EmptyString ->
  match_label L = Some (String.length L) ->
  split_aux (L +:+ t) 0 cur
  = String.rev cur :: L :: split_aux t 0 EmptyString.
Proof.
  intros HL Hm. apply (match_label_app _ t) in Hm.
  destruct L as [|c L]; [done|].
  rewrite app_cons in *. cbn [split_aux]. rewrite Hm.
  f_equal. f_equal.
  - rewrite <- app_cons. apply str_take_app.
  - cbn [String.length]. replace (S (String.length L) - 1)%nat
      with (String.length L) by lia.
    apply split_aux_skip.
Qed.

Lemma split_gap_label g L t cur :
  has_label g = false ->
  L <> EmptyString ->
  Aux.boundary (L +:+ t) = true ->
  match_label L = Some (String.length L) ->
  split_aux (g +:+ L +:+ t) 0 cur
  = String.rev (String.rev_app g cur) :: L :: split_aux t 0 EmptyString.
Proof.
  intros Hg HL Hb Hm. rewrite split_aux_gap by done.
  by apply split_aux_label.
Qed.

Lemma split_gap_end g cur :
  has_label g = false ->
  split_aux g 0 cur = [String.rev (String.rev_app g cur)].
Proof.
  intros Hg. rewrite <- (app_nil_r_str g) at 1.
  rewrite split_aux_gap by done. reflexivity.
Qed.

(** The pieces of a text with the four labels in order and no other. *)
Lemma re_split_four_labels pre g1 g2 g3 g4 :
  has_label pre = false -> has_label g1 = false -> has_label g2 = false ->
  has_label g3 = false -> has_label g4 = false ->
  re_split (pre +:+ "Transportation:" +:+ g1 +:+ "Accommodation:" +:+ g2
            +:+ "Day 1:" +:+ g3 +:+ "Day 2:" +:+ g4)
  = [pre; "Transportation:"; g1; "Accommodation:"; g2;
     "Day 1:"; g3; "Day 2:"; g4].
Proof.
  intros H0 H1 H2 H3 H4. unfold re_split.
  rewrite split_gap_label by done.
  rewrite split_gap_label by done.
  rewrite split_gap_label by done.
  rewrite split_gap_label by done.
  rewrite split_gap_end by done.
  by rewrite !rev_rev_app.
Qed.

(** *** Stripping keeps text free of labels *)

Lemma has_label_lstrip g : has_label g = false -> has_label (lstrip g) = false.
Proof.
  induction g as [|c g IH]; intros H; [done|].
  cbn [lstrip]. destruct (is_space c); [|exact H].
  apply IH. by eapply has_label_tail.
Qed.

Lemma rstrip_prefix x : exists w, x = rstrip x +:+ w.
Proof.
  induction x as [|c x [w IH]]; [by exists EmptyString|].
  cbn [rstrip]. destruct (is_space c && is_empty (rstrip x))%bool.
  - exists (String c x). reflexivity.
  - exists w. rewrite app_cons. by rewrite <- IH.
Qed.

Lemma match_label_strip g : has_label g = false -> match_label (strip g) = None.
Proof.
  intros Hg. apply has_label_lstrip, has_label_head in Hg.
  unfold strip. destruct (rstrip_prefix (lstrip g)) as [w Hw].
  destruct (match_label (rstrip (lstrip g))) as [n|] eqn:E; [|done].
  apply (match_label_app _ w) in E. rewrite <- Hw in E. congruence.
Qed.

Lemma match_label_none_day s : match_label s = None -> re_match_day s = false.
Proof.
  unfold match_label, re_match_day.
  destruct (strip_prefix "Transportation:" s); [discriminate|].
  destruct (strip_prefix "Accommodation:" s); [discriminate|].
  by intros ->.
Qed.

(** The parsing loop on a piece without a label. *)
Lemma parse_step_gap g itinerary current_section :
  has_label g = false ->
  parse_step (itinerary, current_section) g
  = match current_section with
    | Some cur =>
        (if is_empty (strip g) then itinerary
         else dict_append cur (strip g) itinerary, current_section)
    | None => (itinerary, current_section)
    end.
Proof.
  intros Hg. apply match_label_strip in Hg. unfold parse_step.
  destruct (is_empty (strip g)) eqn:E; [by destruct current_section|].
  destruct (String.eqb (strip g) "Transportation:") eqn:E1.
  { apply String.eqb_eq in E1. rewrite E1 in Hg. discriminate. }
  destruct (String.eqb (strip g) "Accommodation:") eqn:E2.
  { apply String.eqb_eq in E2. rewrite E2 in Hg. discriminate. }
  rewrite (match_label_none_day _ Hg). reflexivity.
Qed.

(** The parsing loop on a label. *)
Lemma parse_step_label L itinerary current_section :
  L = "Transportation:" \/ L = "Accommodation:" \/ L = "Day 1:" \/ L = "Day 2:" ->
  parse_step (itinerary, current_section) L = (dict_set L [] itinerary, Some L).
Proof. intros [->|[->|[->| ->]]]; reflexivity. Qed.

(** C4, amended: for a text made of the labels [Transportation:],
    [Accommodation:], [Day 1:], [Day 2:] in this order, with text free of
    labels before, between and after them, the presenter builds a mapping
    whose keys are exactly these four labels in this order; each key maps
    to the text between its label and the next (or the end) stripped of
    surrounding whitespace, as a one-element list, or to the empty list
    when that text is only whitespace; the text before the first label is
    under no key. *)
Theorem parse_itinerary_four_sections (pre g1 g2 g3 g4 : string) :
  has_label pre = false -> has_label g1 = false -> has_label g2 = false ->
  has_label g3 = false -> has_label g4 = false ->
  let text := pre +:+ "Transportation:" +:+ g1 +:+ "Accommodation:" +:+ g2
              +:+ "Day 1:" +:+ g3 +:+ "Day 2:" +:+ g4 in
  parse_itinerary text
  = [("Transportation:", Aux.fragments g1);
     ("Accommodation:", Aux.fragments g2);
     ("Day 1:", Aux.fragments g3);
     ("Day 2:", Aux.fragments g4)]
  /\ keys (parse_itinerary text)
     = ["Transportation:"; "Accommodation:"; "Day 1:"; "Day 2:"].
Proof.
  intros H0 H1 H2 H3 H4 text.
  assert (Hp : parse_itinerary text
               = [("Transportation:", Aux.fragments g1);
                  ("Accommodation:", Aux.fragments g2);
                  ("Day 1:", Aux.fragments g3);
                  ("Day 2:", Aux.fragments g4)]).
  { unfold parse_itinerary, text. cbv zeta.
    rewrite re_split_four_labels by done.
    cbn [fold_left].
    rewrite (parse_step_gap pre) by done.
    rewrite (parse_step_label "Transportation:") by tauto.
    rewrite (parse_step_gap g1) by done.
    rewrite (parse_step_label "Accommodation:") by tauto.
    rewrite (parse_step_gap g2) by done.
    rewrite (parse_step_label "Day 1:") by tauto.
    rewrite (parse_step_gap g3) by done.
    rewrite (parse_step_label "Day 2:") by tauto.
    rewrite (parse_step_gap g4) by done.
    unfold Aux.fragments.
    destruct (is_empty (strip g1)), (is_empty (strip g2)),
      (is_empty (strip g3)), (is_empty (strip g4)); reflexivity. }
  split; [exact Hp|]. rewrite Hp. reflexivity.
Qed.

End Splitting.

(** ** Concrete runs *)

Lemma load_knowledge_alignment_witness :
  NoDup (titles nyc_knowledge)
  /\ length (index (self Stub.loaded_nyc)) = length (titled_records nyc_knowledge).
Proof.
  assert (H : NoDup (titles nyc_knowledge)) by compute_done.
  split; [exact H|].
  exact (proj1 (load_knowledge_alignment Stub.vec Stub.embeddings_create
                  nyc_knowledge "NYCAI" 1000 1536 (fresh_world []) H)).
Defined.

Lemma parse_itinerary_four_sections_witness :
  has_label "Your plan. **" = false
  /\ parse_itinerary Stub.sample_itinerary
     = [("Transportation:", ["** flight **"]);
        ("Accommodation:", ["** hotel **"]);
        ("Day 1:", ["** museum **"]);
        ("Day 2:", ["** park"])].
Proof.
  split; [reflexivity|].
  exact (proj1 (parse_itinerary_four_sections
                  "Your plan. **" "** flight **" "** hotel **"
                  "** museum **" "** park  "
                  eq_refl eq_refl eq_refl eq_refl eq_refl)).
Defined.

(** C4 as stated fails on a text whose sections are set off by blanks: the
    text between [Transportation:] and [Accommodation:] is [" fly "], and
    the mapping holds ["fly"]. *)
Lemma parse_itinerary_strips_counterexample :
  parse_itinerary Stub.spaced_itinerary
  = [("Transportation:", ["fly"]); ("Accommodation:", ["hotel"]);
     ("Day 1:", ["walk"]); ("Day 2:", ["rest"])]
  /\ parse_itinerary Stub.spaced_itinerary
     <> [("Transportation:", [" fly "]); ("Accommodation:", [" hotel "]);
         ("Day 1:", [" walk "]); ("Day 2:", [" rest"])]
  /\ dict_get "Transportation:" (parse_itinerary Stub.spaced_itinerary)
     <> Some [" fly "].
Proof. split; [reflexivity|]. split; discriminate. Qed.

Lemma missing_credential_stops_before_network_witness :
  (∅ : environ) !! "OPENAI_API_KEY" = None
  /\ Demo.run_script ∅ (main Stub.vec Stub.fvec_L2sqr Stub.embeddings_create
                          Stub.chat_completions_create Stub.str_of_list)
       (fresh_world [])
     = (1%Z, write_stderr "Traceback (most recent call last):" (fresh_world [])).
Proof.
  split; [reflexivity|].
  exact (proj1 (proj2 (missing_credential_stops_before_network
                         Stub.vec Stub.fvec_L2sqr Stub.embeddings_create
                         Stub.chat_completions_create Stub.str_of_list
                         (fun _ => "error") ∅ eq_refl)) _ _).
Defined.

Lemma digest_headers_name_first_attribute_witness :
  bodies nyc_knowledge <> []
  /\ summarize_knowledge Stub.str_of_list (bodies nyc_knowledge)
     = Return (Aux.concat_str
                 (map (Aux.digest_block Stub.str_of_list) (bodies nyc_knowledge))).
Proof.
  assert (H1 : bodies nyc_knowledge <> []) by discriminate.
  assert (H2 : Forall (fun item : record => item <> []) (bodies nyc_knowledge))
    by (repeat constructor; discriminate).
  split; [exact H1|].
  exact (proj1 (proj1 (digest_headers_name_first_attribute Stub.vec
                         Stub.embeddings_create Stub.str_of_list
                         (bodies nyc_knowledge) H1) H2)).
Defined.

(** * Further properties *)

(** ** The embedding client *)

Section Embedding.

Variable vec : Type.
Variable embeddings_create : nat -> string -> vec.

Local Abbreviation clean := (replace_char "010" " ").

Lemma list_ascii_app s t :
  list_ascii_of_string (s +:+ t) = list_ascii_of_string s ++ list_ascii_of_string t.
Proof.
  induction s as [|c s IH]; [done|].
  rewrite app_cons. cbn [list_ascii_of_string]. by rewrite IH.
Qed.

Lemma replace_char_no_old old new s :
  old ∉ list_ascii_of_string new ->
  old ∉ list_ascii_of_string (replace_char old new s).
Proof.
  intros Hnew. induction s as [|c s IH]; cbn [replace_char].
  - cbn. apply not_elem_of_nil.
  - rewrite list_ascii_app. apply not_elem_of_app. split; [|exact IH].
    destruct (Ascii.eqb c old) eqn:E; [exact Hnew|].
    cbn. intros H. apply list_elem_of_singleton in H. subst c.
    by rewrite Ascii.eqb_refl in E.
Qed.

Lemma replace_char_length old c s :
  String.length (replace_char old (String c EmptyString) s) = String.length s.
Proof.
  induction s as [|d s IH]; [done|]. cbn [replace_char].
  destruct (Ascii.eqb d old); rewrite app_cons, app_nil_l_str;
    cbn [String.length]; by rewrite IH.
Qed.

Lemma replace_char_id old new s :
  old ∉ list_ascii_of_string s -> replace_char old new s = s.
Proof.
  induction s as [|c s IH]; [done|]. cbn [replace_char list_ascii_of_string].
  intros H. apply not_elem_of_cons in H as [Hc Hs].
  destruct (Ascii.eqb c old) eqn:E.
  - apply Ascii.eqb_eq in E. congruence.
  - rewrite app_cons, app_nil_l_str. by rewrite IH.
Qed.

(** X1: [get_embedding] sends exactly one request; the text sent has the
    length of the argument and no line feed in it (each one has become a
    blank), and is the argument itself when that has none.  Nothing else
    of the world changes. *)
Theorem get_embedding_sends_one_clean_request (text : string) (w : World) :
  let r := get_embedding vec embeddings_create text w in
  exists sent,
    embedding_requests (state_of r) = embedding_requests w ++ [sent]
    /\ outcome_of r
       = Return (embeddings_create (length (embedding_requests w)) sent)
    /\ ("010"%char ∉ list_ascii_of_string sent)
    /\ String.length sent = String.length text
    /\ (("010"%char ∉ list_ascii_of_string text) -> sent = text)
    /\ chat_requests (state_of r) = chat_requests w
    /\ stdout (state_of r) = stdout w
    /\ stdin (state_of r) = stdin w
    /\ stderr (state_of r) = stderr w.
Proof.
  intros r. exists (clean text). repeat split.
  - apply replace_char_no_old. cbn. intros H.
    apply list_elem_of_singleton in H. discriminate.
  - apply replace_char_length.
  - apply replace_char_id.
Qed.

End Embedding.

(** ** Requests sent by a load *)

Section LoadRequests.

Variable vec : Type.
Variable embeddings_create : nat -> string -> vec.

Local Abbreviation load_knowledge := (load_knowledge vec embeddings_create).
Local Abbreviation load_step := (Aux.load_step vec embeddings_create).
Local Abbreviation loaded := (Aux.loaded vec embeddings_create).
Local Abbreviation clean := (replace_char "010" " ").

Lemma load_step_requests t b (s : State vec) :
  match embedding_cache (self s) !! t with
  | Some _ =>
      embedding_requests (world (load_step (t, b) s))
      = embedding_requests (world s)
      /\ dom (embedding_cache (self (load_step (t, b) s)))
         = dom (embedding_cache (self s))
  | None =>
      embedding_requests (world (load_step (t, b) s))
      = embedding_requests (world s) ++ [clean t]
      /\ dom (embedding_cache (self (load_step (t, b) s)))
         = {[t]} ∪ dom (embedding_cache (self s))
  end.
Proof.
  unfold Aux.load_step. cbn [fst snd].
  destruct (embedding_cache (self s) !! t) as [e|]; [done|].
  split; [reflexivity|]. cbn. apply dom_insert_L.
Qed.

Lemma loaded_requests l (s : State vec) :
  embedding_requests (world (loaded l s))
  = embedding_requests (world s)
    ++ map clean (Aux2.uncached (dom (embedding_cache (self s))) (map fst l)).
Proof.
  revert s. induction l as [|[t b] l IH]; intros s.
  - simpl. by rewrite app_nil_r.
  - rewrite loaded_cons, IH. cbn [map fst Aux2.uncached].
    pose proof (load_step_requests t b s) as H.
    destruct (embedding_cache (self s) !! t) as [e|] eqn:E;
      destruct H as [-> ->].
    + rewrite decide_True by (apply elem_of_dom; eauto). reflexivity.
    + rewrite decide_False by (by apply not_elem_of_dom).
      cbn [map]. rewrite <- app_assoc. reflexivity.
Qed.

Lemma uncached_spec seen titles :
  NoDup (Aux2.uncached seen titles)
  /\ (forall t, t ∈ Aux2.uncached seen titles <-> t ∈ titles /\ t ∉ seen)
  /\ length (Aux2.uncached seen titles) <= length titles.
Proof.
  revert seen. induction titles as [|t rest IH]; intros seen; cbn [Aux2.uncached].
  - split; [constructor|]. split; [|done]. intros t. set_solver.
  - destruct (decide (t ∈ seen)) as [Hin|Hnot].
    + destruct (IH seen) as (Hnd & Hiff & Hlen).
      split; [exact Hnd|]. split; [|simpl; lia].
      intros t'. rewrite Hiff. set_solver.
    + destruct (IH ({[t]} ∪ seen)) as (Hnd & Hiff & Hlen).
      split; [|split; [|simpl; lia]].
      * constructor; [|exact Hnd]. rewrite Hiff. set_solver.
      * intros t'. rewrite elem_of_cons, Hiff.
        destruct (decide (t' = t)) as [->|Hne]; set_solver.
Qed.

(** X2: a load sends one embedding request per distinct title that is not
    in the cache when the load starts, in the order of first occurrence,
    and nothing for the others: the requests number at most the records of
    the base, and a title that occurs twice or is already cached costs no
    second request. *)
Theorem load_knowledge_requests (kb : knowledge_base) (s : State vec) :
  let s' := state_of (load_knowledge kb s) in
  let sent := Aux2.uncached (dom (embedding_cache (self s))) (titles kb) in
  embedding_requests (world s')
  = embedding_requests (world s) ++ map clean sent
  /\ NoDup sent
  /\ (forall t, t ∈ sent <-> t ∈ titles kb /\ embedding_cache (self s) !! t = None)
  /\ length sent <= length (titled_records kb)
  /\ chat_requests (world s') = chat_requests (world s)
  /\ stdout (world s') = stdout (world s).
Proof.
  intros s' sent.
  assert (Hs' : world s' = world (loaded (titled_records kb) s)).
  { unfold s'. rewrite load_knowledge_state. reflexivity. }
  destruct (uncached_spec (dom (embedding_cache (self s))) (titles kb))
    as (Hnd & Hiff & Hlen).
  split; [rewrite Hs'; apply loaded_requests|].
  split; [exact Hnd|].
  split; [intros t; unfold sent; rewrite Hiff, not_elem_of_dom; done|].
  split; [unfold titles in Hlen; rewrite length_map in Hlen; exact Hlen|].
  rewrite Hs'. clear. generalize (titled_records kb). intros l.
  revert s. induction l as [|x l IH]; intros s; [done|].
  rewrite loaded_cons.
  destruct (IH (load_step x s)) as [-> ->].
  unfold Aux.load_step. destruct (_ !! _); done.
Qed.

End LoadRequests.

(** ** More on retrieval *)

Section RetrievalShape.

Variable vec : Type.
Variable fvec_L2sqr : vec -> vec -> Q.
Variable embeddings_create : nat -> string -> vec.

Local Abbreviation IndexFlatL2_search := (IndexFlatL2_search vec fvec_L2sqr).
Local Abbreviation retrieve_knowledge :=
  (retrieve_knowledge vec fvec_L2sqr embeddings_create).
Local Abbreviation load_knowledge := (load_knowledge vec embeddings_create).
Local Abbreviation query_embedding := (Aux2.query_embedding vec embeddings_create).
Local Abbreviation after_query := (Aux2.after_query vec embeddings_create).
Local Abbreviation clean := (replace_char "010" " ").

(** A retrieval, spelled out: the search with the query's vector over the
    index, the lookup of the labels in the data, and the state with the
    query cached. *)
Lemma retrieve_knowledge_eq query (s : State vec) :
  retrieve_knowledge query s
  = (gather (knowledge_data (self s))
       (IndexFlatL2_search (index (self s)) (query_embedding s query) 5) [],
     after_query s query).
Proof.
  destruct s as [a w].
  unfold TravelAgent.retrieve_knowledge, Aux2.query_embedding,
    Aux2.after_query, bind, gets, lift_outcome.
  simpl. destruct (embedding_cache a !! query) as [e|] eqn:E; simpl;
    unfold Aux2.query_embedding; simpl; rewrite ?E; reflexivity.
Qed.

Lemma getitem_outcome {A} (l : list A) i :
  match getitem l i with
  | Return x => x ∈ l
  | Raise e => e = IndexError
  end.
Proof.
  unfold getitem. destruct (_ || _)%bool; [done|].
  destruct (l !! _) as [x|] eqn:E; [|done].
  by eapply list_elem_of_lookup_2.
Qed.

Lemma gather_outcome (data : list record) I acc :
  match gather data I acc with
  | Return l =>
      length l = (length acc + length I)%nat
      /\ forall x, x ∈ l -> x ∈ acc \/ x ∈ data
  | Raise e => e = IndexError
  end.
Proof.
  revert acc. induction I as [|i I IH]; intros acc; simpl.
  - split; [lia|]. intros x Hx. by left.
  - pose proof (getitem_outcome data i) as Hi.
    destruct (getitem data i) as [r|e]; [|exact Hi].
    specialize (IH (acc ++ [r])).
    destruct (gather data I (acc ++ [r])) as [l|e]; [|exact IH].
    destruct IH as [Hlen Hin]. split.
    + rewrite Hlen, length_app. simpl. lia.
    + intros x Hx. destruct (Hin x Hx) as [Hacc|Hd]; [|by right].
      apply elem_of_app in Hacc as [Hacc|Hr]; [by left|].
      apply list_elem_of_singleton in Hr as ->. by right.
Qed.

(** X3: whatever the state of the agent and the query, a retrieval either
    returns exactly five records, each of them an element of
    [knowledge_data], or raises [IndexError]; it never returns fewer or
    more than five and never raises anything else. *)
Theorem retrieve_knowledge_five_or_IndexError (query : string) (s : State vec) :
  match outcome_of (retrieve_knowledge query s) with
  | Return l =>
      length l = 5%nat /\ forall r, r ∈ l -> r ∈ knowledge_data (self s)
  | Raise e => e = IndexError
  end.
Proof.
  rewrite retrieve_knowledge_eq. unfold outcome_of. cbn [fst].
  match goal with |- context [gather ?d ?I []] =>
    pose proof (gather_outcome d I []) as H;
    pose proof (search_length vec fvec_L2sqr (index (self s))
                  (query_embedding s query) 5) as HI;
    destruct (gather d I []) as [l|e]; [|exact H]
  end.
  destruct H as [Hlen Hin]. split.
  - rewrite Hlen, HI. reflexivity.
  - intros r Hr. destruct (Hin r Hr) as [Hnil|Hd]; [|exact Hd].
    by apply elem_of_nil in Hnil.
Qed.

(** X4: a retrieval reads the index and the data without changing them:
    only the cache and the request log can change, and they change exactly
    when the query is not yet cached (one request, one new cache entry
    under the query as typed).  The chat log and the console are not
    touched. *)
Theorem retrieve_knowledge_frame (query : string) (s : State vec) :
  let s' := state_of (retrieve_knowledge query s) in
  index (self s') = index (self s)
  /\ knowledge_data (self s') = knowledge_data (self s)
  /\ knowledge_embeddings (self s') = knowledge_embeddings (self s)
  /\ chat_requests (world s') = chat_requests (world s)
  /\ stdout (world s') = stdout (world s)
  /\ stdin (world s') = stdin (world s)
  /\ match embedding_cache (self s) !! query with
     | Some e =>
         s' = s
     | None =>
         embedding_requests (world s')
         = embedding_requests (world s) ++ [clean query]
         /\ embedding_cache (self s')
            = <[query := embeddings_create
                           (length (embedding_requests (world s)))
                           (clean query)]> (embedding_cache (self s))
     end.
Proof.
  intros s'. unfold s'. rewrite retrieve_knowledge_eq.
  unfold state_of, Aux2.after_query, Aux2.query_embedding. cbn [snd].
  destruct (embedding_cache (self s) !! query) as [e|]; repeat split.
Qed.

(** X5: asking the same query again changes nothing and gives the same
    answer: the second retrieval sends no request, leaves the state as the
    first left it, and has the outcome of the first. *)
Theorem retrieve_knowledge_idempotent (query : string) (s : State vec) :
  let r1 := retrieve_knowledge query s in
  retrieve_knowledge query (state_of r1) = (outcome_of r1, state_of r1).
Proof.
  intros r1. unfold r1. rewrite !retrieve_knowledge_eq.
  unfold state_of, outcome_of. cbn [fst snd].
  assert (Hc : exists e,
    embedding_cache (self (after_query s query)) !! query = Some e
    /\ e = query_embedding s query).
  { unfold Aux2.after_query, Aux2.query_embedding.
    destruct (embedding_cache (self s) !! query) as [e|] eqn:E.
    - exists e. rewrite E. done.
    - eexists. split; [|reflexivity]. cbn. apply lookup_insert_eq. }
  destruct Hc as (e & Hc & He).
  assert (Hq : query_embedding (after_query s query) query = query_embedding s query).
  { unfold Aux2.query_embedding at 1. rewrite Hc. exact He. }
  assert (Ha : after_query (after_query s query) query = after_query s query).
  { unfold Aux2.after_query at 1. by rewrite Hc. }
  assert (Hi : index (self (after_query s query)) = index (self s)
               /\ knowledge_data (self (after_query s query))
                  = knowledge_data (self s)).
  { unfold Aux2.after_query.
    destruct (embedding_cache (self s) !! query); split; reflexivity. }
  destruct Hi as [-> ->]. rewrite Hq, Ha. reflexivity.
Qed.

(** X6: on an agent that holds no record, every retrieval raises
    [IndexError]; the query has been embedded and cached by then. *)
Theorem retrieve_knowledge_without_data (query : string) (s : State vec) :
  knowledge_data (self s) = [] ->
  let r := retrieve_knowledge query s in
  outcome_of r = Raise IndexError
  /\ is_Some (embedding_cache (self (state_of r)) !! query).
Proof.
  intros Hd r. split.
  - unfold r. rewrite retrieve_knowledge_eq. unfold outcome_of. cbn [fst].
    rewrite Hd.
    pose proof (search_length vec fvec_L2sqr (index (self s))
                  (query_embedding s query) 5) as HI.
    destruct (IndexFlatL2_search _ _ _) as [|i I]; [discriminate|].
    cbn [gather]. pose proof (getitem_outcome (@nil record) i) as Hi.
    destruct (getitem [] i) as [x|e]; [by apply elem_of_nil in Hi|by subst e].
  - apply (retrieve_knowledge_spec vec fvec_L2sqr embeddings_create).
Qed.

(** X7: the cache is shared between loading and retrieval: once a base is
    loaded, a query that is one of its titles sends no embedding request
    and searches with the vector stored for that title. *)
Theorem retrieve_loaded_title_sends_nothing (kb : knowledge_base)
    (title : string) (s : State vec) :
  title ∈ titles kb ->
  let s1 := state_of (load_knowledge kb s) in
  state_of (retrieve_knowledge title s1) = s1
  /\ embedding_requests (world (state_of (retrieve_knowledge title s1)))
     = embedding_requests (world s1)
  /\ embedding_cache (self s1) !! title = Some (query_embedding s1 title).
Proof.
  intros Ht s1.
  assert (Hc : is_Some (embedding_cache (self s1) !! title)).
  { unfold s1. rewrite load_knowledge_state. simpl.
    by apply loaded_titles_cached. }
  destruct Hc as [e He].
  assert (H : state_of (retrieve_knowledge title s1) = s1).
  { rewrite retrieve_knowledge_eq. unfold state_of, Aux2.after_query.
    cbn [snd]. by rewrite He. }
  rewrite H.
  split; [done|]. split; [done|].
  unfold Aux2.query_embedding. by rewrite He.
Qed.

End RetrievalShape.

(** ** The ranking behind a search *)

Section Ranking.

Variable vec : Type.
Variable fvec_L2sqr : vec -> vec -> Q.

Local Abbreviation ranked := (ranked vec fvec_L2sqr).
Local Abbreviation IndexFlatL2_search := (IndexFlatL2_search vec fvec_L2sqr).

Local Instance by_distance_trans : Transitive Aux2.by_distance.
Proof. intros a b c Hab Hbc. unfold Aux2.by_distance in *. by eapply Qle_trans. Qed.

Lemma insert_by_perm x l : insert_by x l ≡ₚ x :: l.
Proof.
  induction l as [|y l IH]; simpl; [done|].
  destruct (Qle_bool (fst x) (fst y)); [done|].
  rewrite IH. apply Permutation_swap.
Qed.

Lemma ranked_perm xb q :
  ranked xb q ≡ₚ imap (fun i x => (fvec_L2sqr q x, i)) xb.
Proof.
  unfold TravelAgent.ranked.
  induction (imap _ xb) as [|x l IH]; simpl; [done|].
  by rewrite insert_by_perm, IH.
Qed.

Lemma ranked_strongly_sorted xb q : StronglySorted Aux2.by_distance (ranked xb q).
Proof.
  apply Sorted_StronglySorted; [apply _|].
  apply (ranked_sorted vec fvec_L2sqr).
Qed.

Lemma ranked_elem xb q d i :
  (d, i) ∈ ranked xb q <-> exists x, xb !! i = Some x /\ d = fvec_L2sqr q x.
Proof.
  rewrite ranked_perm. rewrite list_elem_of_lookup. split.
  - intros [k Hk]. rewrite list_lookup_imap in Hk.
    destruct (xb !! k) as [x|] eqn:E; [|discriminate].
    injection Hk as <- <-. eauto.
  - intros (x & Hx & ->). exists i. by rewrite list_lookup_imap, Hx.
Qed.

Lemma ranked_labels_NoDup xb q : NoDup (map snd (ranked xb q)).
Proof.
  rewrite ranked_perm.
  change (map snd (imap (fun i x => (fvec_L2sqr q x, i)) xb))
    with (snd <$> imap (fun i x => (fvec_L2sqr q x, i)) xb).
  rewrite fmap_imap.
  change (imap (fun n : nat => snd ∘ (fun x => (fvec_L2sqr q x, n))) xb)
    with (imap (fun (n : nat) (_ : vec) => id n) xb).
  rewrite imap_seq_0, list_fmap_id. apply NoDup_seq.
Qed.

End Ranking.

Section Nearest.

Variable vec : Type.
Variable fvec_L2sqr : vec -> vec -> Q.
Variable embeddings_create : nat -> string -> vec.

Local Abbreviation ranked := (ranked vec fvec_L2sqr).
Local Abbreviation IndexFlatL2_search := (IndexFlatL2_search vec fvec_L2sqr).
Local Abbreviation retrieve_knowledge :=
  (retrieve_knowledge vec fvec_L2sqr embeddings_create).
Local Abbreviation query_embedding := (Aux2.query_embedding vec embeddings_create).

Lemma getitem_nat {A} (l : list A) (i : nat) x :
  l !! i = Some x -> getitem l (Z.of_nat i) = Return x.
Proof.
  intros Hx. pose proof (lookup_lt_Some _ _ _ Hx) as Hlt. unfold getitem.
  replace (Z.of_nat i <? 0)%Z with false by (symmetry; apply Z.ltb_ge; lia).
  replace (Z.of_nat i <? 0)%Z with false by (symmetry; apply Z.ltb_ge; lia).
  replace (Z.of_nat (length l) <=? Z.of_nat i)%Z with false
    by (symmetry; apply Z.leb_gt; lia).
  cbn [orb]. by rewrite Nat2Z.id, Hx.
Qed.

Lemma gather_in_range (data : list record) (top : list (Q * nat)) acc :
  Forall (fun p => (snd p < length data)%nat) top ->
  exists l,
    gather data (map (fun p : Q * nat => Z.of_nat (snd p)) top) acc
    = Return (acc ++ l)
    /\ Forall2 (fun p r => data !! snd p = Some r) top l.
Proof.
  intros Hr. revert acc. induction Hr as [|p top Hp _ IH]; intros acc.
  - exists []. simpl. rewrite app_nil_r. split; [done|constructor].
  - destruct (lookup_lt_is_Some_2 data (snd p) Hp) as [r Hr].
    destruct (IH (acc ++ [r])) as (l & Hl & Hf).
    exists (r :: l). cbn [map gather]. rewrite (getitem_nat _ _ _ Hr), Hl.
    rewrite <- app_assoc. split; [done|]. by constructor.
Qed.

(** X8: on an agent whose index and data are aligned and hold at least
    five records, a retrieval returns the records stored at five distinct
    positions of the index, in the order of non-decreasing distance
    between the query's vector and the vectors at these positions, and no
    vector left out is closer to the query than one that was taken. *)
Theorem retrieve_knowledge_five_nearest (query : string) (s : State vec) :
  let data := knowledge_data (self s) in
  let xb := index (self s) in
  let qe := query_embedding s query in
  length xb = length data ->
  5 <= length data ->
  exists (top : list (Q * nat)) (l : list record),
    outcome_of (retrieve_knowledge query s) = Return l
    /\ Forall2 (fun p r => data !! snd p = Some r) top l
    /\ length top = 5
    /\ StronglySorted Aux2.by_distance top
    /\ NoDup (map snd top)
    /\ (forall d i, (d, i) ∈ top ->
          exists x, xb !! i = Some x /\ d = fvec_L2sqr qe x)
    /\ (forall j x d i,
          xb !! j = Some x -> j ∉ map snd top -> (d, i) ∈ top ->
          (d <= fvec_L2sqr qe x)%Q).
Proof.
  intros data xb qe Hal HN.
  set (top := take 5 (ranked xb qe)).
  assert (Hsplit : ranked xb qe = top ++ drop 5 (ranked xb qe))
    by (symmetry; apply take_drop).
  pose proof (ranked_strongly_sorted vec fvec_L2sqr xb qe) as Hss.
  pose proof (ranked_labels_NoDup vec fvec_L2sqr xb qe) as Hnd.
  rewrite Hsplit in Hss, Hnd.
  assert (Hin : forall p, p ∈ top -> p ∈ ranked xb qe).
  { intros p Hp. rewrite Hsplit. apply elem_of_app. by left. }
  assert (Hlen : length top = 5).
  { unfold top. rewrite length_take, (ranked_length vec fvec_L2sqr), Hal.
    generalize dependent (length data). intros n ? Hn. lia. }
  assert (Hrange : Forall (fun p => (snd p < length data)%nat) top).
  { apply Forall_forall. intros [d i] Hp. apply Hin in Hp.
    apply ranked_elem in Hp as (x & Hx & _). apply lookup_lt_Some in Hx.
    simpl. fold xb in Hx. lia. }
  destruct (gather_in_range data top [] Hrange) as (l & Hl & Hf).
  exists top, l. split.
  { rewrite (retrieve_knowledge_eq vec fvec_L2sqr embeddings_create).
    unfold outcome_of. cbn [fst].
    unfold TravelAgent.IndexFlatL2_search. fold xb qe top.
    rewrite length_map, Hlen. cbn [replicate Nat.sub]. rewrite app_nil_r.
    exact Hl. }
  split; [exact Hf|]. split; [exact Hlen|].
  split; [by eapply StronglySorted_app_1_l|].
  split.
  { rewrite map_app in Hnd. by apply NoDup_app in Hnd as (? & _ & _). }
  split.
  { intros d i Hp. apply Hin in Hp. by apply ranked_elem in Hp. }
  intros j x d i Hx Hj Hp.
  assert (Hjr : (fvec_L2sqr qe x, j) ∈ ranked xb qe)
    by (apply ranked_elem; eauto).
  rewrite Hsplit in Hjr. apply elem_of_app in Hjr as [Hjt|Hjd].
  - exfalso. apply Hj. apply list_elem_of_fmap. by exists (fvec_L2sqr qe x, j).
  - apply (StronglySorted_app_1_elem_of _ _ _ (d, i) (fvec_L2sqr qe x, j) Hss Hp Hjd).
Qed.

End Nearest.

(** ** Retrieval after a second load *)

Section DoubleLoad.

Variable vec : Type.
Variable fvec_L2sqr : vec -> vec -> Q.
Variable embeddings_create : nat -> string -> vec.

Local Abbreviation ranked := (ranked vec fvec_L2sqr).
Local Abbreviation IndexFlatL2_search := (IndexFlatL2_search vec fvec_L2sqr).
Local Abbreviation retrieve_knowledge :=
  (retrieve_knowledge vec fvec_L2sqr embeddings_create).
Local Abbreviation load_knowledge := (load_knowledge vec embeddings_create).
Local Abbreviation loaded := (Aux.loaded vec embeddings_create).
Local Abbreviation query_embedding := (Aux2.query_embedding vec embeddings_create).

Lemma Forall2_functional {A B} (R : A -> B -> Prop) l k1 k2 :
  (forall a b1 b2, R a b1 -> R a b2 -> b1 = b2) ->
  Forall2 R l k1 -> Forall2 R l k2 -> k1 = k2.
Proof.
  intros HR H1. revert k2. induction H1 as [|a b l k1 Hab _ IH]; intros k2 H2.
  - by inversion H2.
  - inversion H2 as [|a' b' l' k2' Hab' H2']; subst. f_equal; [by eapply HR|].
    by apply IH.
Qed.

(** After two loads of the same base on a fresh agent the index is three
    copies of the vectors of the first load, over twice the records. *)
Lemma double_load_index (kb : knowledge_base) (nm : string) (cs dim : Z)
    (w : World) :
  let s1 := state_of (load_knowledge kb (mkState (__init__ nm cs dim) w)) in
  let s2 := state_of (load_knowledge kb s1) in
  let E := index (self s1) in
  index (self s2) = E ++ E ++ E
  /\ length E = length (titled_records kb)
  /\ length (knowledge_data (self s2)) = (2 * length E)%nat.
Proof.
  intros s1 s2 E.
  set (l := titled_records kb).
  set (s0 := mkState (__init__ (vec:=vec) nm cs dim) w).
  set (t0 := loaded l s0). set (t1 := loaded l s1).
  assert (H1 : s1 = mkState (index_extend vec (knowledge_embeddings (self t0))
                               (self t0)) (world t0))
    by apply load_knowledge_state.
  assert (H2 : s2 = mkState (index_extend vec (knowledge_embeddings (self t1))
                               (self t1)) (world t1))
    by apply load_knowledge_state.
  destruct (loaded_embeddings vec embeddings_create l s0) as (E0 & HE0 & Hf0).
  fold t0 in HE0, Hf0. cbn in HE0.
  assert (HE : E = E0).
  { unfold E. rewrite H1. cbn [self index index_extend].
    unfold t0 at 1. rewrite loaded_index. cbn. exact HE0. }
  assert (Hemb1 : knowledge_embeddings (self s1) = E0)
    by (rewrite H1; exact HE0).
  assert (Hc1 : embedding_cache (self s1) = embedding_cache (self t0))
    by (rewrite H1; reflexivity).
  destruct (loaded_embeddings vec embeddings_create l s1) as (es & Hes & Hf1).
  fold t1 in Hes, Hf1.
  assert (Hcached : forall t, t ∈ map fst l ->
            is_Some (embedding_cache (self s1) !! t)).
  { intros t Ht. rewrite Hc1. by apply loaded_titles_cached. }
  destruct (loaded_cached vec embeddings_create l s1 Hcached) as [_ Hc2].
  fold t1 in Hc2.
  assert (Hes_eq : es = E0).
  { eapply (Forall2_functional _ l); [|exact Hf1|].
    - intros a b1 b2 Hb1 Hb2. simpl in *. congruence.
    - rewrite Hc2, Hc1. exact Hf0. }
  subst es.
  assert (Hlen : length E0 = length l)
    by (symmetry; apply (Forall2_length _ _ _ Hf0)).
  split; [|split].
  - rewrite H2. cbn [self index index_extend]. unfold t1 at 1.
    rewrite loaded_index. fold E. rewrite Hes, Hemb1, HE. reflexivity.
  - by rewrite HE.
  - rewrite H2. cbn [self knowledge_data index_extend]. unfold t1.
    rewrite loaded_data, length_app, length_map.
    rewrite H1. cbn [self knowledge_data index_extend]. unfold t0.
    rewrite loaded_data, length_app, length_map. cbn. rewrite HE, Hlen.
    fold l. lia.
Qed.

Lemma getitem_return_range {A} (l : list A) i x :
  getitem l i = Return x ->
  (- Z.of_nat (length l) <= i < Z.of_nat (length l))%Z.
Proof.
  unfold getitem. destruct (i <? 0)%Z eqn:E; destruct (_ || _)%bool eqn:E2;
    try discriminate; intros _;
    apply orb_false_iff in E2 as [E3 E4];
    apply Z.ltb_ge in E3; apply Z.leb_gt in E4.
  - apply Z.ltb_lt in E. lia.
  - apply Z.ltb_ge in E. lia.
Qed.

Lemma gather_return_range (data : list record) I acc l :
  gather data I acc = Return l ->
  Forall (fun i => (- Z.of_nat (length data) <= i < Z.of_nat (length data))%Z) I.
Proof.
  revert acc. induction I as [|i I IH]; intros acc; [constructor|].
  cbn [gather]. destruct (getitem data i) as [r|e] eqn:E; [|discriminate].
  intros H. constructor; [by eapply getitem_return_range | by eapply IH].
Qed.

(** A stored vector that nothing beats or ties but its own copies is among
    the first neighbours the search answers with. *)
Lemma search_contains_label (xb : list vec) q k (copies : list nat) i x :
  xb !! i = Some x ->
  i ∉ copies ->
  (forall j y, xb !! j = Some y -> j <> i -> j ∉ copies ->
     (fvec_L2sqr q x < fvec_L2sqr q y)%Q) ->
  length copies < k ->
  Z.of_nat i ∈ IndexFlatL2_search xb q k.
Proof.
  intros Hx Hi Hnear Hk.
  assert (Hr : (fvec_L2sqr q x, i) ∈ ranked xb q)
    by (apply ranked_elem; eauto).
  apply list_elem_of_split in Hr as (l1 & l2 & Hsplit).
  pose proof (ranked_strongly_sorted vec fvec_L2sqr xb q) as Hss.
  pose proof (ranked_labels_NoDup vec fvec_L2sqr xb q) as Hnd.
  rewrite Hsplit in Hss, Hnd.
  rewrite map_app in Hnd. cbn [map snd] in Hnd.
  apply NoDup_app in Hnd as (Hnd1 & Hdisj & _).
  assert (Hsub : forall j, j ∈ map snd l1 -> j ∈ copies).
  { intros j Hj. apply list_elem_of_fmap in Hj as ([d j'] & -> & Hp). simpl.
    assert (Hle : (d <= fvec_L2sqr q x)%Q).
    { apply (StronglySorted_app_1_elem_of _ _ _ (d, j') (fvec_L2sqr q x, i) Hss Hp).
      by left. }
    assert (Hpr : (d, j') ∈ ranked xb q).
    { rewrite Hsplit. apply elem_of_app. by left. }
    apply ranked_elem in Hpr as (y & Hy & ->).
    destruct (decide (j' ∈ copies)) as [|Hnc]; [done|]. exfalso.
    assert (Hne : j' <> i).
    { intros ->. apply (Hdisj i).
      - apply list_elem_of_fmap. by exists (fvec_L2sqr q y, i).
      - by left. }
    specialize (Hnear j' y Hy Hne Hnc).
    by apply Qlt_not_le in Hnear. }
  assert (Hl1 : length l1 <= length copies).
  { rewrite <- (length_map snd l1). apply submseteq_length.
    by apply NoDup_submseteq. }
  unfold TravelAgent.IndexFlatL2_search. apply elem_of_app. left.
  apply list_elem_of_fmap. exists (fvec_L2sqr q x, i). split; [done|].
  apply list_elem_of_lookup. exists (length l1).
  rewrite lookup_take_lt by lia. rewrite Hsplit.
  by rewrite list_lookup_middle.
Qed.

(** X9: once the same base has been loaded twice on a fresh agent, a
    retrieval whose query has one strictly nearest title raises
    [IndexError]: the three copies of that title's vector are the three
    nearest neighbours, and the third copy sits at a position of the index
    for which [knowledge_data] has no record. *)
Theorem retrieve_after_double_load_raises (kb : knowledge_base) (nm : string)
    (cs dim : Z) (w : World) (query : string) (j : nat) (e : vec) :
  let s1 := state_of (load_knowledge kb (mkState (__init__ nm cs dim) w)) in
  let s2 := state_of (load_knowledge kb s1) in
  let qe := query_embedding s2 query in
  index (self s1) !! j = Some e ->
  (forall i x, index (self s1) !! i = Some x -> i <> j ->
     (fvec_L2sqr qe e < fvec_L2sqr qe x)%Q) ->
  outcome_of (retrieve_knowledge query s2) = Raise IndexError.
Proof.
  intros s1 s2 qe Hj Hnear.
  destruct (double_load_index kb nm cs dim w) as (Hidx & HlenE & Hdata).
  fold s1 s2 in Hidx, HlenE, Hdata.
  set (E := index (self s1)) in *. set (N := length E) in *.
  pose proof (lookup_lt_Some _ _ _ Hj) as HjN. fold N in HjN.
  assert (Hlook : forall i x, (E ++ E ++ E) !! i = Some x ->
            exists k, E !! k = Some x /\ (i = k \/ i = N + k \/ i = 2 * N + k)%nat).
  { intros i x Hi. apply lookup_app_Some in Hi as [Hi|[Hge Hi]].
    - exists i. split; [done|]. by left.
    - apply lookup_app_Some in Hi as [Hi|[Hge2 Hi]].
      + exists (i - N). split; [done|]. right. left. fold N in Hge. lia.
      + exists (i - N - N). split; [done|]. right. right.
        fold N in Hge, Hge2. lia. }
  assert (Hthird : (E ++ E ++ E) !! (2 * N + j) = Some e).
  { rewrite lookup_app_r by (fold N; lia).
    rewrite lookup_app_r by (fold N; lia).
    replace (2 * N + j - length E - length E) with j by (fold N; lia).
    exact Hj. }
  assert (Hin : Z.of_nat (2 * N + j)
                ∈ IndexFlatL2_search (index (self s2)) qe 5).
  { rewrite Hidx.
    apply (search_contains_label _ qe 5 [j; N + j] (2 * N + j) e Hthird).
    - intros Hc. apply elem_of_cons in Hc as [Hc|Hc]; [lia|].
      apply list_elem_of_singleton in Hc. lia.
    - intros i y Hy Hne Hnc. destruct (Hlook i y Hy) as (k & Hk & Hik).
      apply Hnear with k; [exact Hk|]. intros ->. apply Hnc.
      destruct Hik as [->|[->| ->]]; [by left | right; by left | done].
    - simpl. lia. }
  rewrite (retrieve_knowledge_eq vec fvec_L2sqr embeddings_create).
  unfold outcome_of. cbn [fst]. fold qe.
  match goal with |- gather ?d ?I [] = _ =>
    pose proof (gather_outcome d I []) as Ho;
    destruct (gather d I []) as [l|err] eqn:Eg; [|by subst err]
  end.
  exfalso. apply gather_return_range in Eg.
  rewrite Forall_forall in Eg. specialize (Eg _ Hin).
  rewrite Hdata in Eg. fold N in Eg. lia.
Qed.

End DoubleLoad.

(** ** More on the presenter *)

Section PresenterMore.

Variable vec : Type.

Lemma add_stdout_nil w : Aux2.add_stdout [] w = w.
Proof. destruct w. unfold Aux2.add_stdout. simpl. by rewrite app_nil_r. Qed.

Lemma add_stdout_app l1 l2 w :
  Aux2.add_stdout l2 (Aux2.add_stdout l1 w) = Aux2.add_stdout (l1 ++ l2) w.
Proof. unfold Aux2.add_stdout. simpl. by rewrite app_assoc. Qed.

Lemma write_stdout_add line w : write_stdout line w = Aux2.add_stdout [line] w.
Proof. reflexivity. Qed.

Lemma print_items_eq (items : list string) (a : Agent vec) w :
  for_each items (fun item => in_world vec (print item)) (mkState a w)
  = (Return tt, mkState a (Aux2.add_stdout items w)).
Proof.
  revert w. induction items as [|x items IH]; intros w.
  - cbn [for_each]. unfold ret. by rewrite add_stdout_nil.
  - cbn [for_each]. erewrite bind_return by reflexivity.
    cbn [self world]. rewrite IH, write_stdout_add, add_stdout_app.
    reflexivity.
Qed.

Lemma print_sections_eq (itinerary : dict (list string)) (a : Agent vec) w :
  for_each itinerary (fun '(section, items) =>
     in_world vec (print (LF +:+ section)) ;;
     in_world vec (print (repeat_str "-" 30)) ;;
     for_each items (fun item => in_world vec (print item)) ;;
     in_world vec (print (repeat_str "-" 20))) (mkState a w)
  = (Return tt, mkState a (Aux2.add_stdout (Aux2.rendered itinerary) w)).
Proof.
  revert w. induction itinerary as [|[section items] it IH]; intros w.
  - cbn [for_each]. unfold ret, Aux2.rendered. cbn. by rewrite add_stdout_nil.
  - cbn [for_each]. erewrite bind_return; cycle 1.
    { erewrite bind_return by reflexivity.
      erewrite bind_return by reflexivity.
      cbn [self world]. erewrite bind_return by apply print_items_eq.
      reflexivity. }
    cbn [self world]. rewrite IH. rewrite !write_stdout_add, !add_stdout_app.
    unfold Aux2.rendered. cbn [map concat fst snd].
    rewrite <- !app_assoc. reflexivity.
Qed.

Lemma getitem_head {A} (x : A) l : getitem (x :: l) 0 = Return x.
Proof. by apply (getitem_nat (x :: l) 0). Qed.

Lemma getitem_second {A} (x y : A) l : getitem (x :: y :: l) 1 = Return y.
Proof. by apply (getitem_nat (x :: y :: l) 1). Qed.

Lemma strptime_raises s e : strptime s = Raise e -> e = ValueError.
Proof.
  unfold strptime.
  destruct (parse_Y s) as [[y [|c r1]]|]; try (by intros [= <-]).
  destruct (Ascii.eqb c "-") eqn:Ec.
  2:{ destruct c as [[] [] [] [] [] [] [] []]; try discriminate Ec;
      by intros [= <-]. }
  apply Ascii.eqb_eq in Ec as ->.
  destruct (parse_m r1) as [[m [|c r2]]|]; try (by intros [= <-]).
  destruct (Ascii.eqb c "-") eqn:Ec.
  2:{ destruct c as [[] [] [] [] [] [] [] []]; try discriminate Ec;
      by intros [= <-]. }
  apply Ascii.eqb_eq in Ec as ->.
  destruct (parse_d r2) as [[d [|c r3]]|]; try (by intros [= <-]).
  destruct (_ && _)%bool; [discriminate|by intros [= <-]].
Qed.

(** X10: [present_itinerary] fails on the dates before it prints: with no
    date it raises [IndexError], with a first date that does not parse
    [ValueError], with a single valid date [IndexError], with a second
    date that does not parse [ValueError], each time leaving the state as
    it was (nothing on the console); with two dates that parse it returns
    normally.  Further entries of the list are ignored. *)
Theorem present_itinerary_date_errors (B : Type) (itinerary_text : string)
    (budget : B) (travel_dates : list string) (s : State vec) :
  let r := present_itinerary vec itinerary_text budget travel_dates s in
  match travel_dates with
  | [] => r = (Raise IndexError, s)
  | d0 :: rest =>
      match strptime d0 with
      | Raise _ => r = (Raise ValueError, s)
      | Return _ =>
          match rest with
          | [] => r = (Raise IndexError, s)
          | d1 :: _ =>
              match strptime d1 with
              | Raise _ => r = (Raise ValueError, s)
              | Return _ => outcome_of r = Return tt
              end
          end
      end
  end.
Proof.
  intros r. unfold r, present_itinerary, num_days, bind, lift_outcome.
  destruct travel_dates as [|d0 rest]; [reflexivity|].
  rewrite getitem_head.
  destruct (strptime d0) as [o0|e0] eqn:E0.
  2:{ by pose proof (strptime_raises _ _ E0) as ->. }
  destruct rest as [|d1 rest]; [reflexivity|].
  rewrite getitem_second.
  destruct (strptime d1) as [o1|e1] eqn:E1.
  2:{ by pose proof (strptime_raises _ _ E1) as ->. }
  destruct s as [a w]. unfold ret. rewrite !in_world_print.
  cbn [self world]. fold (@bind (State vec) unit unit).
  pose proof (print_sections_eq (parse_itinerary itinerary_text) a
    (write_stdout (repeat_str "=" 50)
       (write_stdout "📋 您的详细旅行计划"
          (write_stdout (LF +:+ repeat_str "=" 50) w)))) as H.
  unfold bind in H. rewrite H. reflexivity.
Qed.

Lemma present_itinerary_eq (B : Type) (itinerary_text : string)
    (budget : B) (d0 d1 : string) (more : list string) (o0 o1 : Z)
    (s : State vec) :
  strptime d0 = Return o0 ->
  strptime d1 = Return o1 ->
  present_itinerary vec itinerary_text budget (d0 :: d1 :: more) s
  = (Return tt,
     mkState (self s)
       (Aux2.add_stdout
          (Aux2.banner ++ Aux2.rendered (parse_itinerary itinerary_text))
          (world s))).
Proof.
  intros E0 E1.
  unfold present_itinerary, num_days, bind, lift_outcome.
  rewrite getitem_head, E0, getitem_second, E1.
  destruct s as [a w]. unfold ret. rewrite !in_world_print.
  cbn [self world].
  pose proof (print_sections_eq (parse_itinerary itinerary_text) a
    (write_stdout (repeat_str "=" 50)
       (write_stdout "📋 您的详细旅行计划"
          (write_stdout (LF +:+ repeat_str "=" 50) w)))) as H.
  unfold bind in H. rewrite H.
  rewrite !write_stdout_add, !add_stdout_app. reflexivity.
Qed.


(** X11: with two dates that parse, [present_itinerary] only writes to the
    console: the agent, both request logs and the pending input are as
    before, and the lines written are the three banner lines followed, for
    each section of the parsed itinerary in order, by the label line, a
    rule of 30 dashes, the fragments of the section and a rule of 20
    dashes.  The computed trip length is not among them. *)
Theorem present_itinerary_output (B : Type) (itinerary_text : string)
    (budget : B) (d0 d1 : string) (more : list string) (o0 o1 : Z)
    (s : State vec) :
  strptime d0 = Return o0 ->
  strptime d1 = Return o1 ->
  present_itinerary vec itinerary_text budget (d0 :: d1 :: more) s
  = (Return tt,
     mkState (self s)
       (Aux2.add_stdout
          (Aux2.banner ++ Aux2.rendered (parse_itinerary itinerary_text))
          (world s))).
Proof. apply present_itinerary_eq. Qed.

End PresenterMore.

(** ** Itineraries with any sequence of labels *)

Section Sections.

Lemma strip_prefix_exact p s r : strip_prefix p s = Some r -> s = p +:+ r.
Proof.
  revert s. induction p as [|a p IH]; intros s H.
  - cbn in H. by injection H as ->.
  - destruct s as [|b s]; [discriminate|]. cbn [strip_prefix] in H.
    destruct (Ascii.eqb a b) eqn:E; [|discriminate].
    apply Ascii.eqb_eq in E as ->. rewrite app_cons. f_equal. by apply IH.
Qed.

Lemma str_take_drop k s : s = str_take k s +:+ str_drop k s.
Proof.
  revert s. induction k as [|k IH]; intros s; [reflexivity|].
  destruct s as [|c s]; [reflexivity|].
  cbn [str_take str_drop]. rewrite app_cons. f_equal. apply IH.
Qed.

Lemma rstrip_ends_nonspace s c :
  is_space c = false ->
  rstrip (s +:+ String c EmptyString) = s +:+ String c EmptyString.
Proof.
  intros Hc. induction s as [|d s IH].
  - rewrite app_nil_l_str. cbn [rstrip is_empty]. by rewrite Hc.
  - rewrite app_cons. cbn [rstrip]. rewrite IH.
    destruct s; rewrite ?app_nil_l_str, ?app_cons; cbn [is_empty];
      by rewrite andb_false_r.
Qed.

Lemma str_take_length k s :
  k <= String.length s -> String.length (str_take k s) = k.
Proof.
  revert s. induction k as [|k IH]; intros s Hk; [done|].
  destruct s; cbn [str_take String.length] in *; [lia|].
  rewrite IH; lia.
Qed.

(** A day label ends with its colon. *)
Lemma match_day_tail_whole r :
  match_day_tail r = Some (3 + String.length r)%nat ->
  exists r', r = r' +:+ ":".
Proof.
  unfold match_day_tail. cbv zeta.
  set (n := span is_space r).
  destruct (n =? 0)%nat; [discriminate|].
  set (r1 := str_drop n r). set (m := span is_digit r1).
  destruct (m =? 0)%nat; [discriminate|].
  destruct (str_drop m r1) as [|c x] eqn:E; [discriminate|].
  destruct (Ascii.eqb c ":") eqn:Ec.
  2:{ destruct c as [[] [] [] [] [] [] [] []]; try discriminate Ec;
      discriminate. }
  apply Ascii.eqb_eq in Ec as ->. intros [= Hlen].
  pose proof (str_take_drop n r) as H1. fold r1 in H1.
  pose proof (str_take_drop m r1) as H2. rewrite E in H2.
  assert (Hl1 : String.length r = (String.length (str_take n r) + String.length r1)%nat)
    by (rewrite H1 at 1; apply app_length_str).
  assert (Hl2 : String.length r1
                = (String.length (str_take m r1) + S (String.length x))%nat)
    by (rewrite H2 at 1; apply app_length_str).
  pose proof (str_take_length n r (span_le _ _)) as Hn.
  pose proof (str_take_length m r1 (span_le _ _)) as Hm.
  assert (Hx : x = EmptyString) by (destruct x; [done|cbn [String.length] in *; lia]).
  subst x. exists (str_take n r +:+ str_take m r1).
  rewrite app_assoc_str, <- H2. exact H1.
Qed.

Lemma is_label_cases L :
  Aux2.is_label L = true ->
  L = "Transportation:" \/ L = "Accommodation:"
  \/ exists r', L = "Day" +:+ r' +:+ ":" /\ match_day L = Some (String.length L).
Proof.
  unfold Aux2.is_label, match_label.
  destruct (strip_prefix "Transportation:" L) as [r|] eqn:E1.
  { intros H. apply Nat.eqb_eq in H. left.
    pose proof (strip_prefix_exact _ _ _ E1) as HL.
    destruct r; [by rewrite app_nil_r_str in HL|].
    rewrite HL, app_length_str in H. cbn in H. lia. }
  destruct (strip_prefix "Accommodation:" L) as [r|] eqn:E2.
  { intros H. apply Nat.eqb_eq in H. right. left.
    pose proof (strip_prefix_exact _ _ _ E2) as HL.
    destruct r; [by rewrite app_nil_r_str in HL|].
    rewrite HL, app_length_str in H. cbn in H. lia. }
  destruct (match_day L) as [n|] eqn:E3; [|discriminate].
  intros H. apply Nat.eqb_eq in H. subst n. right. right.
  unfold match_day in E3.
  destruct (strip_prefix "Day" L) as [r|] eqn:E4; [|discriminate].
  pose proof (strip_prefix_exact _ _ _ E4) as HL.
  assert (Hlen : String.length L = (3 + String.length r)%nat)
    by (rewrite HL at 1; apply app_length_str).
  rewrite Hlen in E3. destruct (match_day_tail_whole r E3) as [r' ->].
  exists r'. split; [exact HL|reflexivity].
Qed.

Lemma is_label_match L :
  Aux2.is_label L = true -> match_label L = Some (String.length L).
Proof.
  unfold Aux2.is_label. destruct (match_label L) as [n|]; [|discriminate].
  intros H. apply Nat.eqb_eq in H. by subst n.
Qed.

Lemma is_label_nonempty L : Aux2.is_label L = true -> L <> EmptyString.
Proof. by intros H ->. Qed.

Lemma is_label_boundary L t :
  Aux2.is_label L = true -> Aux.boundary (L +:+ t) = true.
Proof.
  intros H. destruct (is_label_cases L H) as [->|[->|(r' & -> & _)]];
    reflexivity.
Qed.

(** The pieces of a text assembled from labels and label-free texts. *)
Lemma split_aux_assemble parts g :
  has_label g = false ->
  Forall (fun part => Aux2.is_label (fst part) = true
                      /\ has_label (snd part) = false) parts ->
  split_aux (g +:+ Aux2.assemble parts) 0 EmptyString = g :: Aux2.pieces parts.
Proof.
  intros Hg Hparts. revert g Hg.
  induction Hparts as [|[L g'] parts [HL Hg'] _ IH]; intros g Hg.
  - cbn [Aux2.assemble Aux2.pieces]. rewrite app_nil_r_str.
    rewrite split_gap_end by done. by rewrite rev_rev_app.
  - cbn [Aux2.assemble Aux2.pieces fst snd] in *.
    rewrite split_gap_label;
      [|done|by apply is_label_nonempty|by apply is_label_boundary
       |by apply is_label_match].
    rewrite rev_rev_app. f_equal. f_equal. by apply IH.
Qed.

Lemma strip_label L : Aux2.is_label L = true -> strip L = L.
Proof.
  intros H. destruct (is_label_cases L H) as [->|[->|(r' & -> & _)]];
    [reflexivity|reflexivity|].
  unfold strip. change (lstrip ("Day" +:+ r' +:+ ":")) with ("Day" +:+ r' +:+ ":").
  rewrite <- app_assoc_str. by apply rstrip_ends_nonspace.
Qed.

Lemma parse_step_is_label L itinerary current_section :
  Aux2.is_label L = true ->
  parse_step (itinerary, current_section) L = (dict_set L [] itinerary, Some L).
Proof.
  intros H. unfold parse_step. rewrite (strip_label L H).
  destruct (is_label_cases L H) as [->|[->|(r' & -> & Hm)]];
    [reflexivity|reflexivity|].
  change (is_empty ("Day" +:+ r' +:+ ":")) with false.
  change (String.eqb ("Day" +:+ r' +:+ ":") "Transportation:") with false.
  change (String.eqb ("Day" +:+ r' +:+ ":") "Accommodation:") with false.
  cbn [orb]. unfold re_match_day. by rewrite Hm.
Qed.

Lemma dict_append_set L x (itinerary : dict (list string)) :
  dict_append L x (dict_set L [] itinerary) = dict_set L [x] itinerary.
Proof.
  induction itinerary as [|[k v] it IH]; cbn [dict_set dict_append].
  - by rewrite String.eqb_refl.
  - destruct (String.eqb k L) eqn:E; cbn [dict_append].
    + by rewrite String.eqb_refl.
    + by rewrite E, IH.
Qed.

Lemma parse_steps_pieces parts itinerary current_section :
  Forall (fun part => Aux2.is_label (fst part) = true
                      /\ has_label (snd part) = false) parts ->
  fst (fold_left parse_step (Aux2.pieces parts) (itinerary, current_section))
  = fold_left Aux2.store parts itinerary.
Proof.
  intros Hparts. revert itinerary current_section.
  induction Hparts as [|[L g] parts [HL Hg] _ IH]; intros itinerary cur.
  - reflexivity.
  - cbn [Aux2.pieces fold_left fst snd] in *.
    rewrite parse_step_is_label by done.
    rewrite parse_step_gap by done.
    rewrite IH. f_equal. unfold Aux2.store, Aux.fragments. cbn [fst snd].
    destruct (is_empty (strip g)); [reflexivity|apply dict_append_set].
Qed.

(** The mapping built from any text assembled from labels and label-free
    texts: every label stores the fragments of the text behind it. *)
Lemma parse_itinerary_assemble pre parts :
  has_label pre = false ->
  Forall (fun part => Aux2.is_label (fst part) = true
                      /\ has_label (snd part) = false) parts ->
  parse_itinerary (pre +:+ Aux2.assemble parts)
  = fold_left Aux2.store parts [].
Proof.
  intros Hpre Hparts. unfold parse_itinerary, re_split. cbv zeta.
  rewrite split_aux_assemble by done. cbn [fold_left].
  rewrite (parse_step_gap pre) by done. by apply parse_steps_pieces.
Qed.

Lemma dict_get_set {V} k k' (v : V) d :
  dict_get k' (dict_set k v d) = if String.eqb k k' then Some v else dict_get k' d.
Proof.
  induction d as [|[k0 v0] d IH]; cbn [dict_set dict_get].
  - reflexivity.
  - destruct (String.eqb k0 k) eqn:E0; cbn [dict_get].
    + apply String.eqb_eq in E0 as ->. by destruct (String.eqb k k').
    + destruct (String.eqb k0 k') eqn:E1; [|exact IH].
      apply String.eqb_eq in E1 as ->. by rewrite String.eqb_sym, E0.
Qed.

Lemma dict_set_fresh {V} k (v : V) d :
  k ∉ keys d -> dict_set k v d = d ++ [(k, v)].
Proof.
  induction d as [|[k0 v0] d IH]; cbn [dict_set keys map fst]; [done|].
  intros H. apply not_elem_of_cons in H as [Hne Hd].
  destruct (String.eqb k0 k) eqn:E.
  - apply String.eqb_eq in E. congruence.
  - cbn. f_equal. by apply IH.
Qed.

Lemma store_distinct parts (itinerary : dict (list string)) :
  NoDup (keys itinerary ++ map fst parts) ->
  fold_left Aux2.store parts itinerary
  = itinerary ++ map (fun part => (fst part, Aux.fragments (snd part))) parts.
Proof.
  revert itinerary. induction parts as [|[L g] parts IH]; intros it Hnd.
  - cbn. by rewrite app_nil_r.
  - cbn [fold_left map fst snd] in *. unfold Aux2.store at 2. cbn [fst snd].
    apply NoDup_app in Hnd as (Hk & Hdisj & Hp).
    apply NoDup_cons in Hp as [HL Hp].
    rewrite dict_set_fresh; cycle 1.
    { intros Hin. apply (Hdisj L Hin). by left. }
    rewrite IH; [by rewrite <- app_assoc|].
    unfold keys. rewrite map_app. cbn [map fst]. rewrite <- app_assoc.
    cbn [app]. apply NoDup_app. split; [exact Hk|]. split.
    + intros k Hin Hin'. apply elem_of_cons in Hin' as [->|Hin'].
      * apply (Hdisj L Hin). by left.
      * apply (Hdisj k Hin). by right.
    + by constructor.
Qed.

(** X12: for a text assembled from any sequence of pairwise distinct
    labels ([Transportation:], [Accommodation:] or [Day] with blanks and a
    number, in any order and number), with label-free text before and
    behind each, the presenter's mapping has exactly these labels as keys,
    in the order of the text, each with the stripped text behind it (no
    fragment when that is blank). *)
Theorem parse_itinerary_distinct_labels (pre : string)
    (parts : list (string * string)) :
  has_label pre = false ->
  Forall (fun part => Aux2.is_label (fst part) = true
                      /\ has_label (snd part) = false) parts ->
  NoDup (map fst parts) ->
  parse_itinerary (pre +:+ Aux2.assemble parts)
  = map (fun part => (fst part, Aux.fragments (snd part))) parts.
Proof.
  intros Hpre Hparts Hnd. rewrite parse_itinerary_assemble by done.
  by rewrite store_distinct.
Qed.

Lemma last_section_snoc L parts part :
  Aux2.last_section L (parts ++ [part])
  = if String.eqb (fst part) L then Some (snd part)
    else Aux2.last_section L parts.
Proof. unfold Aux2.last_section. by rewrite fold_left_app. Qed.

(** X13: when a label occurs more than once in the text, only the text
    behind its last occurrence is kept: every occurrence resets the
    section.  For every label, the mapping holds the fragments of the text
    behind the last occurrence of that label, and nothing for a label that
    does not occur. *)
Theorem parse_itinerary_last_occurrence_wins (pre : string)
    (parts : list (string * string)) (L : string) :
  has_label pre = false ->
  Forall (fun part => Aux2.is_label (fst part) = true
                      /\ has_label (snd part) = false) parts ->
  dict_get L (parse_itinerary (pre +:+ Aux2.assemble parts))
  = Aux.fragments <$> Aux2.last_section L parts.
Proof.
  intros Hpre Hparts. rewrite parse_itinerary_assemble by done.
  clear. induction parts as [|part parts IH] using rev_ind; [reflexivity|].
  rewrite fold_left_app, last_section_snoc. cbn [fold_left].
  unfold Aux2.store at 1. rewrite dict_get_set.
  destruct (String.eqb (fst part) L); [reflexivity|exact IH].
Qed.

(** X14: a text in which no label occurs yields the empty mapping: all of
    it is dropped without an error, and the presenter (given two valid
    dates) writes its three banner lines and nothing else. *)
Theorem present_itinerary_without_labels (vec B : Type) (text : string)
    (budget : B) (d0 d1 : string) (more : list string) (o0 o1 : Z)
    (s : State vec) :
  has_label text = false ->
  strptime d0 = Return o0 ->
  strptime d1 = Return o1 ->
  parse_itinerary text = []
  /\ present_itinerary vec text budget (d0 :: d1 :: more) s
     = (Return tt, mkState (self s) (Aux2.add_stdout Aux2.banner (world s))).
Proof.
  intros Ht E0 E1.
  assert (Hp : parse_itinerary text = []).
  { pose proof (parse_itinerary_assemble text [] Ht (Forall_nil_2 _)) as H.
    cbn [Aux2.assemble] in H. by rewrite app_nil_r_str in H. }
  split; [exact Hp|].
  rewrite (present_itinerary_eq vec B text budget d0 d1 more o0 o1 s E0 E1).
  rewrite Hp. unfold Aux2.rendered. cbn [map concat]. by rewrite app_nil_r.
Qed.

End Sections.

(** ** Dates *)

Section DateFacts.

Lemma is_digit_val c : is_digit c = true -> (0 <= digit_val c <= 9)%Z.
Proof.
  unfold is_digit, digit_val. cbv zeta. intros H.
  apply andb_true_iff in H as [H1 H2].
  apply Nat.leb_le in H1, H2. lia.
Qed.

Lemma in_range_val lo hi c :
  in_range lo hi c = true ->
  (digit_val lo <= digit_val c <= digit_val hi)%Z.
Proof.
  unfold in_range, digit_val. intros H.
  apply andb_true_iff in H as [H1 H2].
  apply Nat.leb_le in H1, H2. lia.
Qed.

Lemma digit_val_0 : digit_val "0" = 0%Z. Proof. reflexivity. Qed.
Lemma digit_val_1 : digit_val "1" = 1%Z. Proof. reflexivity. Qed.
Lemma digit_val_2 : digit_val "2" = 2%Z. Proof. reflexivity. Qed.
Lemma digit_val_3 : digit_val "3" = 3%Z. Proof. reflexivity. Qed.
Lemma digit_val_9 : digit_val "9" = 9%Z. Proof. reflexivity. Qed.

Ltac digits :=
  rewrite ?digit_val_0, ?digit_val_1, ?digit_val_2, ?digit_val_3,
    ?digit_val_9 in *.

Lemma parse_Y_range s y r : parse_Y s = Some (y, r) -> (0 <= y <= 9999)%Z.
Proof.
  unfold parse_Y. destruct s as [|a [|b [|c [|d r']]]]; try discriminate.
  destruct (is_digit a) eqn:Ea; [|discriminate].
  destruct (is_digit b) eqn:Eb; [|discriminate].
  destruct (is_digit c) eqn:Ec; [|discriminate].
  destruct (is_digit d) eqn:Ed; [|discriminate].
  cbn [andb]. intros [= <- _].
  apply is_digit_val in Ea, Eb, Ec, Ed. lia.
Qed.

Lemma parse_m_range s m r : parse_m s = Some (m, r) -> (1 <= m <= 12)%Z.
Proof.
  unfold parse_m. destruct s as [|a r']; [discriminate|].
  destruct r' as [|b r''].
  - destruct (in_range "1" "9" a) eqn:E; [|discriminate].
    intros [= <- _]. apply in_range_val in E. digits. lia.
  - destruct (Ascii.eqb a "1" && in_range "0" "2" b)%bool eqn:E1.
    { cbn [orb]. intros [= <- _]. apply andb_true_iff in E1 as [Ha Hb].
      apply Ascii.eqb_eq in Ha as ->. apply in_range_val in Hb.
      digits. lia. }
    destruct (Ascii.eqb a "0" && in_range "1" "9" b)%bool eqn:E2.
    { cbn [orb]. intros [= <- _]. apply andb_true_iff in E2 as [Ha Hb].
      apply Ascii.eqb_eq in Ha as ->. apply in_range_val in Hb.
      digits. lia. }
    cbn [orb]. destruct (in_range "1" "9" a) eqn:E; [|discriminate].
    intros [= <- _]. apply in_range_val in E. digits. lia.
Qed.

(** What [strptime] answers, in terms of the fields it reads. *)
Lemma strptime_fields s :
  strptime s
  = match Aux2.date_fields s with
    | Some (y, m, d) =>
        if ((1 <=? y) && (d <=? days_in_month y m))%Z
        then Return (ymd2ord y m d) else Raise ValueError
    | None => Raise ValueError
    end.
Proof.
  unfold strptime, Aux2.date_fields.
  destruct (parse_Y s) as [[y [|c r1]]|]; try reflexivity.
  destruct c as [[] [] [] [] [] [] [] []]; try reflexivity.
  destruct (parse_m r1) as [[m [|c r2]]|]; try reflexivity.
  destruct c as [[] [] [] [] [] [] [] []]; try reflexivity.
  destruct (parse_d r2) as [[d [|c r3]]|]; reflexivity.
Qed.

Lemma parse_d_range s d r : parse_d s = Some (d, r) -> (1 <= d <= 31)%Z.
Proof.
  unfold parse_d. destruct s as [|a r']; [discriminate|].
  destruct r' as [|b r''].
  - destruct (in_range "1" "9" a) eqn:E; [|discriminate].
    intros [= <- _]. apply in_range_val in E. digits. lia.
  - destruct (Ascii.eqb a "3" && in_range "0" "1" b)%bool eqn:E1.
    { cbn [orb]. intros [= <- _]. apply andb_true_iff in E1 as [Ha Hb].
      apply Ascii.eqb_eq in Ha as ->. apply in_range_val in Hb.
      digits. lia. }
    destruct (in_range "1" "2" a && is_digit b)%bool eqn:E2.
    { cbn [orb]. intros [= <- _]. apply andb_true_iff in E2 as [Ha Hb].
      apply in_range_val in Ha. apply is_digit_val in Hb.
      digits. lia. }
    destruct (Ascii.eqb a "0" && in_range "1" "9" b)%bool eqn:E3.
    { cbn [orb]. intros [= <- _]. apply andb_true_iff in E3 as [Ha Hb].
      apply Ascii.eqb_eq in Ha as ->. apply in_range_val in Hb.
      digits. lia. }
    cbn [orb]. destruct (in_range "1" "9" a) eqn:E.
    { intros [= <- _]. apply in_range_val in E. digits. lia. }
    destruct (Ascii.eqb a " " && in_range "1" "9" b)%bool eqn:E4;
      [|discriminate].
    intros [= <- _]. apply andb_true_iff in E4 as [_ Hb].
    apply in_range_val in Hb. digits. lia.
Qed.

Lemma date_fields_range s y m d :
  Aux2.date_fields s = Some (y, m, d) ->
  (0 <= y <= 9999 /\ 1 <= m <= 12 /\ 1 <= d <= 31)%Z.
Proof.
  unfold Aux2.date_fields.
  destruct (parse_Y s) as [[y' [|c r1]]|] eqn:EY; try discriminate.
  destruct c as [[] [] [] [] [] [] [] []]; try discriminate.
  destruct (parse_m r1) as [[m' [|c r2]]|] eqn:EM; try discriminate.
  destruct c as [[] [] [] [] [] [] [] []]; try discriminate.
  destruct (parse_d r2) as [[d' [|c r3]]|] eqn:ED; try discriminate.
  intros [= <- <- <-].
  apply parse_Y_range in EY. apply parse_m_range in EM.
  apply parse_d_range in ED. lia.
Qed.

Lemma strptime_accepts_calendar_dates_aux (s : string) :
  match strptime s with
  | Return o =>
      exists y m d,
        Aux2.date_fields s = Some (y, m, d)
        /\ Aux2.valid_date (y, m, d)
        /\ o = ymd2ord y m d
  | Raise e => e = ValueError
  end.
Proof.
  rewrite strptime_fields.
  destruct (Aux2.date_fields s) as [[[y m] d]|] eqn:E; [|done].
  pose proof (date_fields_range s y m d E) as (Hy & Hm & Hd).
  destruct ((1 <=? y) && (d <=? days_in_month y m))%Z eqn:Ev; [|done].
  apply andb_true_iff in Ev as [H1 H2]. apply Z.leb_le in H1, H2.
  exists y, m, d. split; [done|]. split; [|done].
  unfold Aux2.valid_date. lia.
Qed.

(** X15: [strptime] answers exactly for the strings that match the format
    and name a date of the calendar: the year is between 1 and 9999 (year
    0000 is refused), the month between 1 and 12, and the day exists in
    that month of that year, 29 February only in leap years.  Everything
    else raises [ValueError]. *)
Theorem strptime_accepts_calendar_dates (s : string) :
  match strptime s with
  | Return o =>
      exists y m d,
        Aux2.date_fields s = Some (y, m, d)
        /\ Aux2.valid_date (y, m, d)
        /\ o = ymd2ord y m d
  | Raise e =>
      e = ValueError
      /\ forall y m d, Aux2.date_fields s = Some (y, m, d) ->
                       ~ Aux2.valid_date (y, m, d)
  end.
Proof.
  rewrite strptime_fields.
  destruct (Aux2.date_fields s) as [[[y m] d]|] eqn:E.
  - pose proof (date_fields_range s y m d E) as (Hy & Hm & Hd).
    destruct ((1 <=? y) && (d <=? days_in_month y m))%Z eqn:Ev.
    + apply andb_true_iff in Ev as [H1 H2].
      apply Z.leb_le in H1, H2.
      exists y, m, d. split; [done|]. split; [|done].
      unfold Aux2.valid_date. lia.
    + split; [done|]. intros y' m' d' [= <- <- <-] Hv.
      unfold Aux2.valid_date in Hv.
      apply andb_false_iff in Ev as [Ev|Ev];
        [apply Z.leb_gt in Ev | apply Z.leb_gt in Ev]; lia.
  - split; [done|]. intros y m d Hd. discriminate.
Qed.

Lemma is_leap_spec y :
  is_leap y = true
  <-> (y mod 4 = 0 /\ (y mod 100 <> 0 \/ y mod 400 = 0))%Z.
Proof.
  unfold is_leap.
  destruct (Z.eqb_spec (y mod 4) 0), (Z.eqb_spec (y mod 100) 0),
    (Z.eqb_spec (y mod 400) 0); cbn; intuition congruence.
Qed.

(** A year has 365 days, or 366 when it is a leap year. *)
Lemma days_before_year_succ y :
  (1 <= y)%Z ->
  days_before_year (y + 1)
  = (days_before_year y + 365 + (if is_leap y then 1 else 0))%Z.
Proof.
  intros Hy. unfold days_before_year. cbv zeta.
  replace (y + 1 - 1)%Z with y by lia.
  destruct (is_leap y) eqn:E.
  - apply is_leap_spec in E.
    Z.to_euclidean_division_equations. lia.
  - assert (Hn : ~ (y mod 4 = 0 /\ (y mod 100 <> 0 \/ y mod 400 = 0))%Z).
    { intros H. apply is_leap_spec in H. congruence. }
    Z.to_euclidean_division_equations. lia.
Qed.

Lemma days_before_year_mono y1 y2 :
  (1 <= y1 <= y2)%Z -> (days_before_year y1 <= days_before_year y2)%Z.
Proof.
  intros [H1 H2]. unfold days_before_year. cbv zeta.
  Z.to_euclidean_division_equations. lia.
Qed.

Lemma month_cases m :
  (1 <= m <= 12)%Z ->
  m = 1%Z \/ m = 2%Z \/ m = 3%Z \/ m = 4%Z \/ m = 5%Z \/ m = 6%Z \/ m = 7%Z
  \/ m = 8%Z \/ m = 9%Z \/ m = 10%Z \/ m = 11%Z \/ m = 12%Z.
Proof. lia. Qed.

Ltac each_month H :=
  apply month_cases in H;
  destruct H as [->|[->|[->|[->|[->|[->|[->|[->|[->|[->|[->| ->]]]]]]]]]]].

(** The month table, month by month ([leap] is 1 in a leap year). *)
Lemma month_table y :
  let leap := (if is_leap y then 1 else 0)%Z in
  (days_before_month y 1 = 0%Z /\ days_in_month y 1 = 31%Z)
  /\ (days_before_month y 2 = 31%Z /\ days_in_month y 2 = (28 + leap)%Z)
  /\ (days_before_month y 3 = (59 + leap)%Z /\ days_in_month y 3 = 31%Z)
  /\ (days_before_month y 4 = (90 + leap)%Z /\ days_in_month y 4 = 30%Z)
  /\ (days_before_month y 5 = (120 + leap)%Z /\ days_in_month y 5 = 31%Z)
  /\ (days_before_month y 6 = (151 + leap)%Z /\ days_in_month y 6 = 30%Z)
  /\ (days_before_month y 7 = (181 + leap)%Z /\ days_in_month y 7 = 31%Z)
  /\ (days_before_month y 8 = (212 + leap)%Z /\ days_in_month y 8 = 31%Z)
  /\ (days_before_month y 9 = (243 + leap)%Z /\ days_in_month y 9 = 30%Z)
  /\ (days_before_month y 10 = (273 + leap)%Z /\ days_in_month y 10 = 31%Z)
  /\ (days_before_month y 11 = (304 + leap)%Z /\ days_in_month y 11 = 30%Z)
  /\ (days_before_month y 12 = (334 + leap)%Z /\ days_in_month y 12 = 31%Z).
Proof.
  unfold days_before_month, days_in_month. destruct (is_leap y);
    repeat split; reflexivity.
Qed.

Ltac month_facts y :=
  let H := fresh "T" in
  pose proof (month_table y) as H; cbv zeta in H;
  destruct H as ([? ?] & [? ?] & [? ?] & [? ?] & [? ?] & [? ?] & [? ?]
                 & [? ?] & [? ?] & [? ?] & [? ?] & [? ?]).

(** The days before a month and those of the month stay within the year. *)
Lemma day_of_year_bound y m d :
  (1 <= m <= 12)%Z -> (1 <= d <= days_in_month y m)%Z ->
  (1 <= days_before_month y m + d <= 365 + (if is_leap y then 1 else 0))%Z.
Proof.
  intros Hm Hd. month_facts y.
  each_month Hm; destruct (is_leap y); lia.
Qed.

Lemma days_before_month_mono y m1 m2 d1 :
  (1 <= m1 <= 12)%Z -> (1 <= m2 <= 12)%Z -> (m1 < m2)%Z ->
  (d1 <= days_in_month y m1)%Z ->
  (days_before_month y m1 + d1 <= days_before_month y m2)%Z.
Proof.
  intros Hm1 Hm2 Hlt Hd. month_facts y.
  each_month Hm1; each_month Hm2; try lia; destruct (is_leap y); lia.
Qed.

(** The ordinal respects the order of the calendar. *)
Lemma ymd2ord_lt a b :
  Aux2.valid_date a -> Aux2.valid_date b -> Aux2.date_lt a b ->
  ((let '(y1, m1, d1) := a in ymd2ord y1 m1 d1)
   < (let '(y2, m2, d2) := b in ymd2ord y2 m2 d2))%Z.
Proof.
  destruct a as [[y1 m1] d1], b as [[y2 m2] d2].
  unfold Aux2.valid_date, Aux2.date_lt, ymd2ord.
  intros (Hy1 & Hm1 & Hd1) (Hy2 & Hm2 & Hd2) Hlt.
  destruct Hlt as [Hy|[-> [Hm|[-> Hd]]]].
  - pose proof (day_of_year_bound y1 m1 d1 Hm1 Hd1) as B1.
    pose proof (day_of_year_bound y2 m2 d2 Hm2 Hd2) as B2.
    pose proof (days_before_year_succ y1 ltac:(lia)) as Hs.
    pose proof (days_before_year_mono (y1 + 1) y2 ltac:(lia)) as Hmono.
    lia.
  - pose proof (days_before_month_mono y2 m1 m2 d1 Hm1 Hm2 Hm ltac:(lia)).
    lia.
  - lia.
Qed.

Lemma date_trichotomy a b : Aux2.date_lt a b \/ a = b \/ Aux2.date_lt b a.
Proof.
  destruct a as [[y1 m1] d1], b as [[y2 m2] d2]. unfold Aux2.date_lt.
  destruct (Z.lt_trichotomy y1 y2) as [?|[->|?]]; [tauto| |tauto].
  destruct (Z.lt_trichotomy m1 m2) as [?|[->|?]]; [tauto| |tauto].
  destruct (Z.lt_trichotomy d1 d2) as [?|[->|?]]; tauto.
Qed.

Lemma date_lt_irrefl a : ~ Aux2.date_lt a a.
Proof. destruct a as [[y m] d]. unfold Aux2.date_lt. lia. Qed.

Lemma date_lt_asym a b : Aux2.date_lt a b -> ~ Aux2.date_lt b a.
Proof.
  destruct a as [[y1 m1] d1], b as [[y2 m2] d2]. unfold Aux2.date_lt. lia.
Qed.

(** X16: the trip length has the sign the calendar gives it: when the
    presenter's day count succeeds, both strings name calendar dates, the
    count is positive exactly when the second date is later than the
    first, zero exactly when they are the same day (however the dates are
    written), and negative exactly when the second is earlier; no error is
    raised for an end before the start. *)
Theorem num_days_follows_calendar (S : Type) (a b : string) (n : Z) (s s' : S) :
  num_days [a; b] s = (Return n, s') ->
  exists da db,
    Aux2.date_fields a = Some da /\ Aux2.date_fields b = Some db
    /\ Aux2.valid_date da /\ Aux2.valid_date db
    /\ (0 < n <-> Aux2.date_lt da db)%Z
    /\ (n = 0%Z <-> da = db)
    /\ (n < 0 <-> Aux2.date_lt db da)%Z.
Proof.
  unfold num_days, bind, lift_outcome, ret.
  rewrite getitem_head.
  pose proof (strptime_accepts_calendar_dates_aux a) as Ha.
  pose proof (strptime_accepts_calendar_dates_aux b) as Hb.
  destruct (strptime a) as [oa|]; [|discriminate].
  rewrite getitem_second.
  destruct (strptime b) as [ob|]; [|discriminate].
  intros [= <- _].
  destruct Ha as (y1 & m1 & d1 & Fa & Va & ->).
  destruct Hb as (y2 & m2 & d2 & Fb & Vb & ->).
  exists (y1, m1, d1), (y2, m2, d2).
  split; [done|]. split; [done|]. split; [done|]. split; [done|].
  pose proof (ymd2ord_lt (y1, m1, d1) (y2, m2, d2) Va Vb) as Hlt.
  pose proof (ymd2ord_lt (y2, m2, d2) (y1, m1, d1) Vb Va) as Hgt.
  cbn beta iota in Hlt, Hgt.
  destruct (date_trichotomy (y1, m1, d1) (y2, m2, d2)) as [H|[H|H]].
  - specialize (Hlt H). pose proof (date_lt_asym _ _ H).
    assert ((y1, m1, d1) <> (y2, m2, d2))
      by (intros Heq; rewrite Heq in H; by apply date_lt_irrefl in H).
    repeat split; intros; try done; try lia.
  - injection H as -> -> ->.
    pose proof (date_lt_irrefl (y2, m2, d2)).
    repeat split; intros; try done; try lia.
  - specialize (Hgt H). pose proof (date_lt_asym _ _ H).
    assert ((y1, m1, d1) <> (y2, m2, d2))
      by (intros Heq; rewrite Heq in H; by apply date_lt_irrefl in H).
    repeat split; intros; try done; try lia.
Qed.

End DateFacts.

(** ** Planning *)

Section Planning.

Variable vec : Type.
Variable fvec_L2sqr : vec -> vec -> Q.
Variable embeddings_create : nat -> string -> vec.
Variable chat_completions_create : nat -> string -> string -> string.
Variable str_of_list : list string -> string.

Local Abbreviation retrieve_knowledge :=
  (retrieve_knowledge vec fvec_L2sqr embeddings_create).
Local Abbreviation retrieve_interests :=
  (retrieve_interests vec fvec_L2sqr embeddings_create).
Local Abbreviation plan_nyc_trip :=
  (plan_nyc_trip vec fvec_L2sqr embeddings_create chat_completions_create
     str_of_list).
Local Abbreviation after_query := (Aux2.after_query vec embeddings_create).

(** X17: [plan_nyc_trip] asks two questions on the console before
    anything else: with fewer than two lines of input left it raises
    [EOFError], the pending input is used up, and nothing has been sent to
    either endpoint and nothing has changed in the agent. *)
Theorem plan_nyc_trip_needs_two_lines (B : Type) (travel_dates : list string)
    (budget : B) (preferences : string) (interests : list string)
    (s : State vec) :
  length (stdin (world s)) < 2 ->
  let r := plan_nyc_trip travel_dates budget preferences interests s in
  outcome_of r = Raise EOFError
  /\ self (state_of r) = self s
  /\ embedding_requests (world (state_of r)) = embedding_requests (world s)
  /\ chat_requests (world (state_of r)) = chat_requests (world s)
  /\ stdin (world (state_of r)) = [].
Proof.
  intros Hlen r. destruct s as [a [er cr out inp err]]. cbn in Hlen.
  destruct inp as [|x [|y inp]]; [| |cbn in Hlen; lia];
    repeat split; reflexivity.
Qed.

Local Abbreviation after_queries := (Aux2.after_queries vec embeddings_create).
Local Abbreviation cached_more := (Aux2.cached_more vec).

Lemma cached_more_refl s : cached_more 0 s s.
Proof.
  unfold Aux2.cached_more. repeat split. exists []. by rewrite app_nil_r.
Qed.

Lemma cached_more_trans n1 n2 s1 s2 s3 :
  cached_more n1 s1 s2 -> cached_more n2 s2 s3 -> cached_more (n1 + n2) s1 s3.
Proof.
  intros (A1&A2&A3&A4&A5&A6&A7&(x1&A8&A9)) (B1&B2&B3&B4&B5&B6&B7&(x2&B8&B9)).
  unfold Aux2.cached_more.
  rewrite B1, B2, B3, B4, B5, B6, B7, B8, A1, A2, A3, A4, A5, A6, A7, A8.
  repeat split. exists (x1 ++ x2). rewrite <- app_assoc. split; [done|].
  rewrite length_app. lia.
Qed.

Lemma after_query_cached_more q s : cached_more 1 s (after_query s q).
Proof.
  unfold Aux2.after_query.
  destruct (embedding_cache (self s) !! q).
  - unfold Aux2.cached_more. repeat split. exists []. rewrite app_nil_r.
    split; [done|simpl; lia].
  - unfold Aux2.cached_more. cbn. repeat split. eexists. split; [done|].
    simpl. lia.
Qed.

Lemma after_queries_cached_more qs s :
  cached_more (length qs) s (after_queries qs s).
Proof.
  revert s. induction qs as [|q qs IH]; intros s; [apply cached_more_refl|].
  change (after_queries (q :: qs) s) with (after_queries qs (after_query s q)).
  change (length (q :: qs)) with (1 + length qs).
  eapply cached_more_trans; [apply after_query_cached_more | apply IH].
Qed.

Local Abbreviation ready := (Aux2.ready vec).

Lemma ready_cached_more n s s' : cached_more n s s' -> ready s -> ready s'.
Proof.
  intros (A1&A2&_) [R1 R2]. unfold Aux2.ready. by rewrite A1, A2.
Qed.

Lemma retrieve_knowledge_ready q s :
  ready s ->
  exists l, retrieve_knowledge q s = (Return l, after_query s q)
            /\ length l = 5
            /\ forall r, r ∈ l -> r ∈ knowledge_data (self s).
Proof.
  intros [Hal Hne].
  rewrite (retrieve_knowledge_eq vec fvec_L2sqr embeddings_create).
  match goal with |- context [gather ?d ?I []] =>
    destruct (gather_length d I [] Hne) as (l & Hl & Hlen);
      [rewrite <- Hal; apply search_labels|];
    pose proof (gather_outcome d I []) as Ho; rewrite Hl in Ho |- *
  end.
  exists l. split; [done|]. split.
  - rewrite Hlen, search_length. done.
  - intros r Hr. destruct Ho as [_ Ho].
    destruct (Ho r Hr) as [Hnil|Hd]; [by apply elem_of_nil in Hnil|done].
Qed.

Lemma retrieve_interests_ready interests acc s :
  ready s ->
  exists more,
    retrieve_interests interests acc s
    = (Return (acc ++ more), after_queries interests s)
    /\ forall r, r ∈ more -> r ∈ knowledge_data (self s).
Proof.
  revert acc s. induction interests as [|q qs IH]; intros acc s Hr.
  - exists []. split.
    + cbn. unfold ret. by rewrite app_nil_r.
    + intros r Hr'. by apply elem_of_nil in Hr'.
  - destruct (retrieve_knowledge_ready q s Hr) as (l & Hl & _ & Hin).
    pose proof (after_query_cached_more q s) as Hc.
    destruct (IH (acc ++ l) (after_query s q)) as (more & Hm & Hin').
    { by eapply ready_cached_more. }
    exists (l ++ more). split.
    + cbn [TravelAgent.retrieve_interests]. erewrite bind_return by exact Hl.
      rewrite Hm, <- app_assoc. reflexivity.
    + intros r Hrm. apply elem_of_app in Hrm as [H|H]; [by apply Hin|].
      destruct Hc as (_ & <- & _). by apply Hin'.
Qed.

(** A successful run of [plan_nyc_trip], spelled out: [sq] is the state
    after the retrievals, and the answer of the chat endpoint is printed
    and presented. *)
Lemma plan_nyc_trip_eq (B : Type) (d0 d1 : string) (o0 o1 : Z)
    (budget : B) (preferences : string) (interests : list string)
    (transport accommodation : string) (pending : list string)
    (a : Agent vec) er cr out err :
  let s3 := mkState a
     (mkWorld er cr
        (((out ++ ["正在收集您的旅行偏好..."])
          ++ ["Preferred mode of transport (airplane, train, bus, car): "])
         ++ ["Preferred accommodation type (hotel, Airbnb): "])
        pending err) in
  let sq := after_queries interests (after_query s3 preferences) in
  ready s3 ->
  Forall (fun item => item <> []) (knowledge_data a) ->
  strptime d0 = Return o0 ->
  strptime d1 = Return o1 ->
  exists digest,
    let sys := system_prompt transport accommodation in
    let usr := user_query d0 d1 preferences interests digest in
    let content :=
      chat_completions_create (length (chat_requests (world sq))) sys usr in
    plan_nyc_trip [d0; d1] budget preferences interests
      (mkState a (mkWorld er cr out (transport :: accommodation :: pending) err))
    = (Return tt,
       mkState (self sq)
         (Aux2.add_stdout
            (Aux2.banner ++ Aux2.rendered (parse_itinerary content))
            (Aux2.add_stdout [LF; "🎉 您的个性化旅行计划已生成:"; content]
               (log_chat sys usr
                  (write_stdout "🤖 AI正在为您生成个性化旅行计划..."
                     (world sq)))))).
Proof.
  intros s3 sq Hr3 Hitems E0 E1.
  destruct (retrieve_knowledge_ready preferences s3 Hr3) as (l0 & Hl0 & Hlen0 & Hin0).
  pose proof (after_query_cached_more preferences s3) as Hc1.
  assert (Hr4 : ready (after_query s3 preferences))
    by (by eapply ready_cached_more).
  destruct (retrieve_interests_ready interests l0 _ Hr4) as (more & Hm & Hinm).
  fold sq in Hm.
  assert (Hrk : Forall (fun item : record => item <> []) (l0 ++ more)).
  { apply Forall_forall. intros item Hi. rewrite Forall_forall in Hitems.
    apply Hitems. apply elem_of_app in Hi as [Hi|Hi]; [by apply Hin0|].
    destruct Hc1 as (_ & Hd & _). cbn in Hd. cbn. rewrite <- Hd.
    by apply Hinm. }
  assert (Hdig : exists digest,
            summarize_knowledge str_of_list (l0 ++ more) = Return digest).
  { destruct l0 as [|r0 l0]; [discriminate|].
    unfold summarize_knowledge. cbn [app].
    rewrite summarize_loop_blocks by exact Hrk. eauto. }
  destruct Hdig as [digest Hdig].
  exists digest. cbv zeta.
  unfold TravelAgent.plan_nyc_trip.
  erewrite bind_return by reflexivity.
  erewrite bind_return by reflexivity.
  erewrite bind_return by reflexivity.
  erewrite bind_return; cycle 1.
  { exact Hl0. }
  erewrite bind_return by exact Hm.
  erewrite bind_return by (unfold lift_outcome; rewrite getitem_head; reflexivity).
  erewrite bind_return by (unfold lift_outcome; rewrite getitem_second; reflexivity).
  erewrite bind_return by (unfold lift_outcome; rewrite Hdig; reflexivity).
  erewrite bind_return by reflexivity.
  erewrite bind_return by reflexivity.
  erewrite bind_return by reflexivity.
  erewrite bind_return by reflexivity.
  erewrite bind_return by reflexivity.
  erewrite (present_itinerary_eq vec B) by eassumption.
  cbn [self world]. rewrite !write_stdout_add.
  rewrite !add_stdout_app. reflexivity.
Qed.


End Planning.

(** ** The demo shell *)

Section Containment.

Import Aux3.

Lemma no_exit_ret {S A} (a : A) : no_exit (ret a : M S A).
Proof. intros s. exact I. Qed.

Lemma no_exit_raise {S A} e :
  is_Exception e = true -> no_exit (raise e : M S A).
Proof. intros H s. exact H. Qed.

Lemma no_exit_gets {S A} (f : S -> A) : no_exit (gets f).
Proof. intros s. exact I. Qed.

Lemma no_exit_modify {S} (f : S -> S) : no_exit (modify f).
Proof. intros s. exact I. Qed.

Lemma no_exit_lift {S A} (o : outcome A) :
  match o with Return _ => True | Raise e => is_Exception e = true end ->
  no_exit (lift_outcome o : M S A).
Proof. intros H s. exact H. Qed.

Lemma no_exit_bind {S A B} (m : M S A) (k : A -> M S B) :
  no_exit m -> (forall a, no_exit (k a)) -> no_exit (bind m k).
Proof.
  intros Hm Hk s. specialize (Hm s). unfold bind, outcome_of in *.
  destruct (m s) as [[a|e] s']; [apply Hk|exact Hm].
Qed.

Lemma no_exit_for_each {S A} (l : list A) (body : A -> M S unit) :
  (forall x, no_exit (body x)) -> no_exit (for_each l body).
Proof.
  intros Hb. induction l as [|x l IH]; [apply no_exit_ret|].
  apply no_exit_bind; [apply Hb|intros _; exact IH].
Qed.

(** A [try] whose body lets no [SystemExit] escape and whose handler
    returns always returns. *)
Lemma try_except_returns {S} (m : M S unit) (handler : exn -> M S unit) :
  no_exit m ->
  (forall e s, outcome_of (handler e s) = Return tt) ->
  forall s, outcome_of (try_except m handler s) = Return tt.
Proof.
  intros Hm Hh s. specialize (Hm s). unfold try_except, outcome_of in *.
  destruct (m s) as [[[]|e] s']; [reflexivity|].
  simpl in Hm. rewrite Hm. apply Hh.
Qed.

Lemma getitem_no_exit {S A} (l : list A) i :
  no_exit (lift_outcome (getitem l i) : M S A).
Proof.
  apply no_exit_lift. pose proof (getitem_outcome l i) as H.
  destruct (getitem l i); [exact I|by subst].
Qed.

Lemma strptime_no_exit {S} d : no_exit (lift_outcome (strptime d) : M S Z).
Proof.
  apply no_exit_lift. destruct (strptime d) as [o|e] eqn:E; [exact I|].
  by rewrite (strptime_raises _ _ E).
Qed.

End Containment.

Section AgentContainment.

Import Aux3.

Variable vec : Type.
Variable fvec_L2sqr : vec -> vec -> Q.
Variable embeddings_create : nat -> string -> vec.
Variable chat_completions_create : nat -> string -> string -> string.
Variable str_of_list : list string -> string.
Variable str_of_exn : exn -> string.

Lemma in_world_no_exit {A} (m : M World A) :
  no_exit m -> no_exit (in_world vec m).
Proof.
  intros Hm s. specialize (Hm (world s)).
  unfold in_world, outcome_of in *. by destruct (m (world s)).
Qed.

Lemma print_no_exit line : no_exit (print line).
Proof. apply no_exit_modify. Qed.

Lemma input_no_exit prompt : no_exit (input prompt).
Proof.
  unfold input. apply no_exit_bind; [apply no_exit_modify|intros _].
  apply no_exit_bind; [apply no_exit_gets|intros [|line rest]].
  - by apply no_exit_raise.
  - apply no_exit_bind; [apply no_exit_modify|intros _; apply no_exit_ret].
Qed.

Ltac contained :=
  repeat first
    [ apply no_exit_ret | apply no_exit_gets | apply no_exit_modify
    | apply getitem_no_exit | apply strptime_no_exit
    | apply print_no_exit | apply input_no_exit
    | apply in_world_no_exit
    | apply no_exit_for_each; intros ?
    | apply no_exit_bind; [|intros ?] ].

Lemma get_embedding_no_exit text :
  no_exit (get_embedding vec embeddings_create text).
Proof. unfold get_embedding. contained. Qed.

Lemma cached_or_embedded_no_exit (cache : gmap string vec) key :
  no_exit (match cache !! key with
           | Some e => ret e
           | None =>
               e <- in_world vec (get_embedding vec embeddings_create key) ;;
               on_self vec (cache_put vec key e) ;;
               ret e
           end).
Proof.
  destruct (cache !! key); [apply no_exit_ret|].
  apply no_exit_bind; [|intros e].
  - apply in_world_no_exit, get_embedding_no_exit.
  - unfold on_self. contained.
Qed.

Lemma load_knowledge_no_exit kb :
  no_exit (load_knowledge vec embeddings_create kb).
Proof.
  unfold load_knowledge. apply no_exit_bind; [|intros _].
  - apply no_exit_for_each. intros [category subcategories].
    apply no_exit_for_each. intros [key value]. unfold load_record.
    apply no_exit_bind; [apply no_exit_gets|intros cache].
    apply no_exit_bind; [apply cached_or_embedded_no_exit|intros e].
    unfold on_self. contained.
  - apply no_exit_bind; [apply no_exit_gets|intros [|e batch]].
    + by apply no_exit_raise.
    + apply no_exit_modify.
Qed.

Lemma retrieve_knowledge_no_exit query :
  no_exit (retrieve_knowledge vec fvec_L2sqr embeddings_create query).
Proof.
  intros s. rewrite retrieve_knowledge_eq. unfold outcome_of. cbn [fst].
  match goal with |- context [gather ?d ?labels ?acc] =>
    pose proof (gather_outcome d labels acc) as H;
      destruct (gather d labels acc); [exact I|by subst]
  end.
Qed.

Lemma retrieve_interests_no_exit interests acc :
  no_exit (retrieve_interests vec fvec_L2sqr embeddings_create interests acc).
Proof.
  revert acc. induction interests as [|q qs IH]; intros acc.
  - apply no_exit_ret.
  - cbn [retrieve_interests]. apply no_exit_bind; [|intros more; apply IH].
    apply retrieve_knowledge_no_exit.
Qed.

Lemma summarize_loop_outcome knowledge_list summary :
  match summarize_loop str_of_list summary knowledge_list with
  | Return _ => True
  | Raise e => e = IndexError
  end.
Proof.
  revert summary. induction knowledge_list as [|item rest IH]; intros summary.
  - exact I.
  - cbn [summarize_loop]. destruct item as [|[name v] attrs]; [reflexivity|].
    cbn [summarize_item keys map fst]. apply IH.
Qed.

Lemma summarize_knowledge_no_exit {S} knowledge_list :
  no_exit (lift_outcome (summarize_knowledge str_of_list knowledge_list)
           : M S string).
Proof.
  apply no_exit_lift. destruct knowledge_list as [|item rest]; [exact I|].
  unfold summarize_knowledge.
  pose proof (summarize_loop_outcome (item :: rest) EmptyString) as H.
  destruct (summarize_loop _ _ _); [exact I|by subst].
Qed.

Lemma num_days_no_exit {S} travel_dates :
  no_exit (num_days travel_dates : M S Z).
Proof. unfold num_days. contained. Qed.

Lemma present_itinerary_no_exit {B} text (budget : B) travel_dates :
  no_exit (present_itinerary vec text budget travel_dates).
Proof.
  unfold present_itinerary.
  apply no_exit_bind; [apply num_days_no_exit|intros days].
  contained. destruct x as [section items]. contained.
Qed.

Lemma chat_no_exit sys usr :
  no_exit (chat chat_completions_create sys usr).
Proof. unfold chat. contained. Qed.

Lemma plan_nyc_trip_no_exit {B} travel_dates (budget : B) preferences
    interests :
  no_exit (plan_nyc_trip vec fvec_L2sqr embeddings_create
             chat_completions_create str_of_list
             travel_dates budget preferences interests).
Proof.
  unfold plan_nyc_trip.
  do 3 (apply no_exit_bind; [contained|intros ?]).
  apply no_exit_bind; [apply retrieve_knowledge_no_exit|intros ?].
  apply no_exit_bind; [apply retrieve_interests_no_exit|intros ?].
  do 2 (apply no_exit_bind; [apply getitem_no_exit|intros ?]).
  apply no_exit_bind; [apply summarize_knowledge_no_exit|intros ?].
  apply no_exit_bind; [contained|intros ?].
  apply no_exit_bind; [apply in_world_no_exit, chat_no_exit|intros ?].
  do 3 (apply no_exit_bind; [contained|intros ?]).
  apply present_itinerary_no_exit.
Qed.

(** *** The shell's own functions *)

Lemma demo_in_world_no_exit {A} (m : M World A) :
  no_exit m -> no_exit (Demo.in_world vec m).
Proof.
  intros Hm s. specialize (Hm (Demo.demo_world s)).
  unfold Demo.in_world, outcome_of in *. by destruct (m (Demo.demo_world s)).
Qed.

Lemma on_agent_no_exit {A} (m : M (State vec) A) :
  no_exit m -> no_exit (Demo.on_agent vec m).
Proof.
  intros Hm s. unfold Demo.on_agent, outcome_of.
  destruct (Demo.agent s) as [a|]; [|reflexivity].
  specialize (Hm (mkState a (Demo.demo_world s))). unfold outcome_of in Hm.
  by destruct (m _).
Qed.

Ltac contained' :=
  repeat first
    [ apply no_exit_ret | apply no_exit_gets | apply no_exit_modify
    | apply getitem_no_exit | apply strptime_no_exit
    | apply num_days_no_exit
    | apply print_no_exit | apply input_no_exit
    | apply demo_in_world_no_exit
    | apply no_exit_for_each; intros ?
    | apply no_exit_bind; [|intros ?] ].

Lemma initialize_agent_no_exit :
  no_exit (Demo.initialize_agent vec embeddings_create).
Proof.
  unfold Demo.initialize_agent, Demo.set_agent.
  do 3 (apply no_exit_bind; [contained'|intros ?]).
  apply no_exit_bind; [|intros ?; contained'].
  apply on_agent_no_exit, load_knowledge_no_exit.
Qed.

Lemma generate_travel_plan_no_exit user_prefs :
  no_exit (Demo.generate_travel_plan vec fvec_L2sqr embeddings_create
             chat_completions_create str_of_list user_prefs).
Proof.
  unfold Demo.generate_travel_plan.
  do 12 (apply no_exit_bind; [contained'|intros ?]).
  apply on_agent_no_exit, plan_nyc_trip_no_exit.
Qed.

Lemma analyze_results_no_exit user_prefs :
  no_exit (Demo.analyze_results vec user_prefs).
Proof. unfold Demo.analyze_results. contained'. Qed.

Lemma get_user_preferences_no_exit :
  no_exit (Shell.get_user_preferences vec).
Proof. unfold Shell.get_user_preferences. contained'. Qed.

Lemma setup_environment_with_key env (s : Demo.DemoState vec) :
  Demo.falsy (env !! "OPENAI_API_KEY") = false ->
  Demo.setup_environment vec env s
  = (Return tt,
     Demo.mkDemo (Demo.agent s)
       (Aux2.add_stdout
          ["🔧 正在设置运行环境..."; "✅ OpenAI API密钥已配置";
           "✅ 所有依赖包已安装"]
          (Demo.demo_world s))).
Proof.
  intros H. unfold Demo.setup_environment. rewrite H.
  destruct s as [a [er cr out inp err]].
  unfold bind, Demo.in_world, print, modify, ret, write_stdout,
    Aux2.add_stdout; simpl.
  rewrite <- !app_assoc. reflexivity.
Qed.

Lemma setup_environment_falsy_key env (s : Demo.DemoState vec) :
  Demo.falsy (env !! "OPENAI_API_KEY") = true ->
  Demo.setup_environment vec env s
  = (Raise (SystemExit 1),
     Demo.mkDemo (Demo.agent s)
       (Aux2.add_stdout Aux.missing_key_report (Demo.demo_world s))).
Proof.
  intros H. unfold Demo.setup_environment. rewrite H.
  destruct s as [a [er cr out inp err]].
  unfold bind, Demo.in_world, print, modify, Demo.sys_exit, raise,
    write_stdout, Aux.missing_key_report, Aux2.add_stdout; simpl.
  rewrite <- !app_assoc. reflexivity.
Qed.

End AgentContainment.

Section ShellOutcomes.

Import Aux3.

Variable vec : Type.
Variable fvec_L2sqr : vec -> vec -> Q.
Variable embeddings_create : nat -> string -> vec.
Variable chat_completions_create : nat -> string -> string -> string.
Variable str_of_list : list string -> string.
Variable str_of_exn : exn -> string.

Local Abbreviation setup_environment := (Demo.setup_environment vec).
Local Abbreviation run_quick_demo :=
  (Demo.run_quick_demo vec fvec_L2sqr embeddings_create
     chat_completions_create str_of_list str_of_exn).
Local Abbreviation run_demo :=
  (Shell.run_demo vec fvec_L2sqr embeddings_create chat_completions_create
     str_of_list str_of_exn).
Local Abbreviation test_vector_search :=
  (Shell.test_vector_search vec fvec_L2sqr embeddings_create str_of_list
     str_of_exn).
Local Abbreviation menu :=
  (Shell.menu vec fvec_L2sqr embeddings_create chat_completions_create
     str_of_list str_of_exn).
Local Abbreviation main :=
  (Shell.main vec fvec_L2sqr embeddings_create chat_completions_create
     str_of_list str_of_exn).

Lemma falsy_spec (api_key : option string) :
  Demo.falsy api_key = false <-> exists k, api_key = Some k /\ k <> EmptyString.
Proof.
  destruct api_key as [[|c k]|]; simpl; split; try discriminate.
  - intros (k & [= <-] & Hk). by destruct Hk.
  - intros _. by eexists.
  - done.
  - intros (k & [=] & _).
Qed.

(** X19: [setup_environment] returns exactly when the variable
    [OPENAI_API_KEY] is set to a non-empty string, and otherwise exits with
    status 1 (also for a variable set to the empty string); either way it
    only writes to the console: the agent slot, both request logs and the
    pending input are untouched, and the console shows the three progress
    lines, or the first of them and the three lines of the report. *)
Theorem setup_environment_checks_key (env : environ)
    (s : Demo.DemoState vec) :
  let r := setup_environment env s in
  (outcome_of r = Return tt
   <-> exists k, env !! "OPENAI_API_KEY" = Some k /\ k <> EmptyString)
  /\ (outcome_of r <> Return tt -> outcome_of r = Raise (SystemExit 1))
  /\ Demo.agent (state_of r) = Demo.agent s
  /\ embedding_requests (Demo.demo_world (state_of r))
     = embedding_requests (Demo.demo_world s)
  /\ chat_requests (Demo.demo_world (state_of r))
     = chat_requests (Demo.demo_world s)
  /\ stdin (Demo.demo_world (state_of r)) = stdin (Demo.demo_world s)
  /\ stdout (Demo.demo_world (state_of r))
     = stdout (Demo.demo_world s)
       ++ (if Demo.falsy (env !! "OPENAI_API_KEY")
           then Aux.missing_key_report
           else ["🔧 正在设置运行环境..."; "✅ OpenAI API密钥已配置";
                 "✅ 所有依赖包已安装"]).
Proof.
  intros r. unfold r. rewrite <- falsy_spec.
  destruct (Demo.falsy (env !! "OPENAI_API_KEY")) eqn:E.
  - rewrite (setup_environment_falsy_key vec env s E).
    repeat split; try done.
  - rewrite (setup_environment_with_key vec env s E).
    repeat split; try done.
Qed.

Lemma run_demo_returns (s : Demo.DemoState vec) :
  outcome_of (run_demo s) = Return tt.
Proof.
  unfold Shell.run_demo.
  erewrite bind_return by reflexivity.
  erewrite bind_return by reflexivity.
  apply try_except_returns.
  - apply no_exit_bind; [apply initialize_agent_no_exit|intros _].
    apply no_exit_bind; [apply get_user_preferences_no_exit|intros prefs].
    apply no_exit_bind; [apply generate_travel_plan_no_exit|intros _].
    apply analyze_results_no_exit.
  - reflexivity.
Qed.

Lemma result_line_outcome i result :
  match Shell.result_line str_of_list i result with
  | Return _ => True
  | Raise e => e = IndexError
  end.
Proof. unfold Shell.result_line. by destruct (keys result). Qed.

Lemma print_results_no_exit start results :
  no_exit (Shell.print_results vec str_of_list start results).
Proof.
  revert start. induction results as [|r rest IH]; intros start.
  - apply no_exit_ret.
  - cbn [Shell.print_results]. apply no_exit_bind; [|intros line].
    + apply no_exit_lift. pose proof (result_line_outcome start r) as H.
      destruct (Shell.result_line _ _ _); [exact I|by subst].
    + apply no_exit_bind; [|intros _; apply IH].
      apply demo_in_world_no_exit, print_no_exit.
Qed.

Lemma test_vector_search_returns (s : Demo.DemoState vec) :
  outcome_of (test_vector_search s) = Return tt.
Proof.
  unfold Shell.test_vector_search.
  erewrite bind_return by reflexivity.
  erewrite bind_return by reflexivity.
  apply try_except_returns.
  - apply no_exit_bind; [apply no_exit_modify|intros _].
    apply no_exit_bind; [apply on_agent_no_exit, load_knowledge_no_exit|].
    intros _. apply no_exit_for_each. intros query.
    apply no_exit_bind;
      [apply demo_in_world_no_exit, print_no_exit|intros _].
    apply no_exit_bind;
      [apply on_agent_no_exit, retrieve_knowledge_no_exit|intros results].
    apply no_exit_bind;
      [apply demo_in_world_no_exit, print_no_exit|intros _].
    apply print_results_no_exit.
  - reflexivity.
Qed.

Lemma run_quick_demo_outcome env (s : Demo.DemoState vec) :
  outcome_of (run_quick_demo env s)
  = if Demo.falsy (env !! "OPENAI_API_KEY") then Raise (SystemExit 1)
    else Return tt.
Proof.
  destruct (Demo.falsy (env !! "OPENAI_API_KEY")) eqn:E.
  - unfold Demo.run_quick_demo.
    erewrite bind_return by reflexivity.
    erewrite bind_return by reflexivity.
    erewrite try_except_exit; [reflexivity|].
    erewrite bind_raise; [reflexivity|].
    unfold Demo.__init__. erewrite bind_return by reflexivity.
    apply setup_environment_falsy_key, E.
  - unfold Demo.run_quick_demo.
    erewrite bind_return by reflexivity.
    erewrite bind_return by reflexivity.
    apply try_except_returns; [|reflexivity].
    apply no_exit_bind; [|intros _].
    { intros s0. unfold Demo.__init__.
      erewrite bind_return by reflexivity.
      by rewrite (setup_environment_with_key vec env _ E). }
    apply no_exit_bind; [apply initialize_agent_no_exit|intros _].
    apply no_exit_bind; [apply generate_travel_plan_no_exit|intros _].
    apply analyze_results_no_exit.
Qed.

(** X20: the three modes of the shell contain every failure of the agent
    and of the console: whatever the services answer, whatever is typed
    and whatever state they start in, [run_demo] and [test_vector_search]
    return normally, and so does [run_quick_demo] unless the key is
    missing or empty, in which case it exits with status 1.  An error
    inside a mode therefore never reaches the caller. *)
Theorem shell_modes_contain_failures (env : environ)
    (s : Demo.DemoState vec) :
  outcome_of (run_demo s) = Return tt
  /\ outcome_of (test_vector_search s) = Return tt
  /\ outcome_of (run_quick_demo env s)
     = if Demo.falsy (env !! "OPENAI_API_KEY") then Raise (SystemExit 1)
       else Return tt.
Proof.
  split; [apply run_demo_returns|].
  split; [apply test_vector_search_returns|apply run_quick_demo_outcome].
Qed.

End ShellOutcomes.

Section Menu.

Import Aux3.

Variable vec : Type.
Variable fvec_L2sqr : vec -> vec -> Q.
Variable embeddings_create : nat -> string -> vec.
Variable chat_completions_create : nat -> string -> string -> string.
Variable str_of_list : list string -> string.
Variable str_of_exn : exn -> string.

Local Abbreviation run_quick_demo :=
  (Demo.run_quick_demo vec fvec_L2sqr embeddings_create
     chat_completions_create str_of_list str_of_exn).
Local Abbreviation run_demo :=
  (Shell.run_demo vec fvec_L2sqr embeddings_create chat_completions_create
     str_of_list str_of_exn).
Local Abbreviation test_vector_search :=
  (Shell.test_vector_search vec fvec_L2sqr embeddings_create str_of_list
     str_of_exn).
Local Abbreviation menu :=
  (Shell.menu vec fvec_L2sqr embeddings_create chat_completions_create
     str_of_list str_of_exn).
Local Abbreviation main :=
  (Shell.main vec fvec_L2sqr embeddings_create chat_completions_create
     str_of_list str_of_exn).

(** The state [main] hands to its loop. *)
Lemma main_eq env (s : Demo.DemoState vec) :
  main env s
  = menu env (stdin (Demo.demo_world s))
      (Demo.mkDemo (Demo.agent s)
         (Aux2.add_stdout menu_header (Demo.demo_world s))).
Proof.
  destruct s as [a [er cr out inp err]]. unfold Shell.main.
  do 7 (erewrite bind_return by reflexivity).
  cbn [Demo.demo_world Demo.agent stdin]. f_equal.
  unfold write_stdout, Aux2.add_stdout, menu_header. cbn.
  rewrite <- !app_assoc. reflexivity.
Qed.

(** The loop of [main] as the source has it: one turn, and for an answer
    that is turned away the loop again, on the input then pending. *)
Lemma menu_loop env (s : Demo.DemoState vec) :
  menu env (stdin (Demo.demo_world s)) s
  = (answer <- Demo.in_world vec (input menu_prompt) ;;
     let choice := strip answer in
     if String.eqb choice "1" then Demo.__init__ vec env ;; run_demo
     else if String.eqb choice "2" then run_quick_demo env
     else if String.eqb choice "3" then test_vector_search
     else if String.eqb choice "4" then Demo.in_world vec (print "👋 再见！")
     else
       Demo.in_world vec (print "❌ 无效选择，请重新输入") ;;
       fun s' => menu env (stdin (Demo.demo_world s')) s') s.
Proof.
  destruct s as [a [er cr out [|line rest] err]]; [reflexivity|].
  cbn [Demo.demo_world stdin Shell.menu].
  erewrite bind_return by reflexivity.
  symmetry. erewrite bind_return by reflexivity.
  cbv beta zeta.
  destruct (String.eqb (strip line) "1"); [reflexivity|].
  destruct (String.eqb (strip line) "2"); [reflexivity|].
  destruct (String.eqb (strip line) "3"); [reflexivity|].
  destruct (String.eqb (strip line) "4"); reflexivity.
Qed.

Lemma valid_choice_false answer :
  valid_choice answer = false ->
  String.eqb (strip answer) "1" = false
  /\ String.eqb (strip answer) "2" = false
  /\ String.eqb (strip answer) "3" = false
  /\ String.eqb (strip answer) "4" = false.
Proof.
  unfold valid_choice.
  destruct (String.eqb (strip answer) "1"), (String.eqb (strip answer) "2"),
    (String.eqb (strip answer) "3"), (String.eqb (strip answer) "4");
    simpl; intros H; try discriminate H; done.
Qed.

(** A turn with an answer that is turned away. *)
Lemma menu_turned_away env a er cr out line rest err :
  valid_choice line = false ->
  menu env (line :: rest)
    (Demo.mkDemo a (mkWorld er cr out (line :: rest) err))
  = menu env rest
      (Demo.mkDemo a
         (mkWorld er cr (out ++ turned_away [line]) rest err)).
Proof.
  intros H. apply valid_choice_false in H as (E1 & E2 & E3 & E4).
  cbn [Shell.menu]. erewrite bind_return by reflexivity.
  cbv beta zeta. rewrite E1, E2, E3, E4.
  erewrite bind_return by reflexivity.
  unfold turned_away. cbn [map concat app Demo.demo_world Demo.agent].
  unfold write_stdout. cbn. rewrite <- !app_assoc. reflexivity.
Qed.

Lemma menu_all_turned_away env a er cr out bads lines err :
  Forall (fun answer => valid_choice answer = false) bads ->
  menu env (bads ++ lines)
    (Demo.mkDemo a (mkWorld er cr out (bads ++ lines) err))
  = menu env lines
      (Demo.mkDemo a (mkWorld er cr (out ++ turned_away bads) lines err)).
Proof.
  intros H. revert out. induction H as [|b bads Hb _ IH]; intros out.
  - unfold turned_away. cbn. by rewrite app_nil_r.
  - cbn [app]. rewrite menu_turned_away by exact Hb. rewrite IH.
    unfold turned_away. cbn [map concat]. rewrite <- !app_assoc.
    reflexivity.
Qed.

(** X21: the menu of [main] turns every answer away that is, once
    stripped, none of [1], [2], [3], [4], and asks again.  After any number
    of such answers, the answer [4] (blanks around it allowed) ends the
    program normally: the console shows the menu, one prompt and one
    complaint per answer turned away, a last prompt and the goodbye; the
    lines behind the [4] stay unread, no agent is made and nothing is sent
    to either endpoint. *)
Theorem main_leaves_on_choice_4 (env : environ) (bads : list string)
    (answer : string) (rest : list string) (s : Demo.DemoState vec) :
  Forall (fun answer => valid_choice answer = false) bads ->
  strip answer = "4" ->
  stdin (Demo.demo_world s) = bads ++ answer :: rest ->
  main env s
  = (Return tt,
     Demo.mkDemo (Demo.agent s)
       (mkWorld (embedding_requests (Demo.demo_world s))
          (chat_requests (Demo.demo_world s))
          (stdout (Demo.demo_world s) ++ menu_header ++ turned_away bads
           ++ [menu_prompt; "👋 再见！"])
          rest (stderr (Demo.demo_world s)))).
Proof.
  intros Hbads Hans Hin. destruct s as [a [er cr out inp err]].
  cbn in Hin. subst inp. rewrite main_eq. unfold Aux2.add_stdout.
  cbn [Demo.demo_world Demo.agent embedding_requests chat_requests stdout
       stdin stderr].
  rewrite menu_all_turned_away by exact Hbads.
  cbn [Shell.menu]. erewrite bind_return by reflexivity.
  cbv beta zeta. rewrite Hans. cbn [String.eqb Ascii.eqb Bool.eqb].
  unfold Demo.in_world, print, modify, write_stdout. cbn.
  rewrite <- !app_assoc. reflexivity.
Qed.

(** X22: when the input ends before a valid choice was made, [main] ends
    with an uncaught [EOFError]: the loop around [input] has no handler.
    Every answer has been turned away with a complaint, the last prompt
    is on the console, and nothing was sent to either endpoint. *)
Theorem main_ends_at_end_of_input (env : environ)
    (s : Demo.DemoState vec) :
  Forall (fun answer => valid_choice answer = false)
    (stdin (Demo.demo_world s)) ->
  main env s
  = (Raise EOFError,
     Demo.mkDemo (Demo.agent s)
       (mkWorld (embedding_requests (Demo.demo_world s))
          (chat_requests (Demo.demo_world s))
          (stdout (Demo.demo_world s) ++ menu_header
           ++ turned_away (stdin (Demo.demo_world s)) ++ [menu_prompt])
          [] (stderr (Demo.demo_world s)))).
Proof.
  intros Hbads. rewrite main_eq.
  destruct s as [a [er cr out inp err]]. unfold Aux2.add_stdout.
  cbn [Demo.demo_world Demo.agent embedding_requests chat_requests stdout
       stderr stdin] in *.
  pose proof (menu_all_turned_away env a er cr (out ++ menu_header) inp []
                err Hbads) as H.
  rewrite app_nil_r in H. rewrite H.
  cbn [Shell.menu]. unfold bind, Demo.in_world, input, bind, modify, gets,
    raise, write_stdout. cbn. rewrite <- !app_assoc. reflexivity.
Qed.

Lemma menu_outcome env lines (s : Demo.DemoState vec) :
  stdin (Demo.demo_world s) = lines ->
  outcome_of (menu env lines s)
  = match find valid_choice lines with
    | None => Raise EOFError
    | Some answer =>
        if Demo.falsy (env !! "OPENAI_API_KEY")
           && (String.eqb (strip answer) "1" || String.eqb (strip answer) "2")
        then Raise (SystemExit 1)
        else Return tt
    end.
Proof.
  revert s. induction lines as [|line rest IH]; intros s Hin;
    destruct s as [a [er cr out inp err]]; cbn in Hin; subst inp.
  - reflexivity.
  - cbn [Shell.menu find]. erewrite bind_return by reflexivity.
    cbv beta zeta. unfold valid_choice at 1.
    destruct (String.eqb (strip line) "1") eqn:E1.
    { cbn [orb andb]. rewrite E1. cbn [orb]. rewrite andb_true_r.
      destruct (Demo.falsy (env !! "OPENAI_API_KEY")) eqn:E.
      - erewrite bind_raise; [reflexivity|].
        unfold Demo.__init__. erewrite bind_return by reflexivity.
        apply setup_environment_falsy_key, E.
      - erewrite bind_return; cycle 1.
        { unfold Demo.__init__. erewrite bind_return by reflexivity.
          apply setup_environment_with_key, E. }
        apply run_demo_returns. }
    destruct (String.eqb (strip line) "2") eqn:E2.
    { cbn [orb andb]. rewrite E1, E2. cbn [orb]. rewrite andb_true_r.
      apply run_quick_demo_outcome. }
    destruct (String.eqb (strip line) "3") eqn:E3.
    { cbn [orb andb]. rewrite E1, E2. cbn [orb]. rewrite andb_false_r.
      apply test_vector_search_returns. }
    destruct (String.eqb (strip line) "4") eqn:E4.
    { cbn [orb andb]. rewrite E1, E2. cbn [orb]. rewrite andb_false_r.
      reflexivity. }
    cbn [orb]. erewrite bind_return by reflexivity. apply IH. reflexivity.
Qed.

(** X23: how the shell ends, for every environment, input and answer of
    the services.  The first line of input that is a valid choice decides:
    with no such line the program ends with an uncaught [EOFError]; with
    the key missing or empty, the choices [1] and [2] exit with status 1;
    in every other case [main] returns normally, whatever went wrong in
    the chosen mode. *)
Theorem main_outcome (env : environ) (s : Demo.DemoState vec) :
  outcome_of (main env s)
  = match find valid_choice (stdin (Demo.demo_world s)) with
    | None => Raise EOFError
    | Some answer =>
        if Demo.falsy (env !! "OPENAI_API_KEY")
           && (String.eqb (strip answer) "1" || String.eqb (strip answer) "2")
        then Raise (SystemExit 1)
        else Return tt
    end.
Proof.
  rewrite main_eq. apply menu_outcome.
  by destruct s as [a []].
Qed.

End Menu.

(** ** End-to-end runs *)

Section QueryRequests.

Variable vec : Type.
Variable embeddings_create : nat -> string -> vec.

Local Abbreviation after_query := (Aux2.after_query vec embeddings_create).
Local Abbreviation after_queries := (Aux2.after_queries vec embeddings_create).
Local Abbreviation clean := (replace_char "010" " ").

Lemma after_query_dom q (s : State vec) :
  dom (embedding_cache (self (after_query s q)))
  = {[q]} ∪ dom (embedding_cache (self s)).
Proof.
  unfold Aux2.after_query.
  destruct (embedding_cache (self s) !! q) as [e|] eqn:E.
  - assert (q ∈ dom (embedding_cache (self s))) by (apply elem_of_dom; eauto).
    apply set_eq. intros t. rewrite elem_of_union, elem_of_singleton.
    split; [by right|]. by intros [->|].
  - cbn [self cache_put embedding_cache]. by rewrite dom_insert_L.
Qed.

Lemma after_queries_requests qs (s : State vec) :
  embedding_requests (world (after_queries qs s))
  = embedding_requests (world s)
    ++ map clean (Aux2.uncached (dom (embedding_cache (self s))) qs)
  /\ dom (embedding_cache (self (after_queries qs s)))
     = list_to_set qs ∪ dom (embedding_cache (self s)).
Proof.
  revert s. induction qs as [|q qs IH]; intros s.
  - cbn [Aux2.after_queries fold_left Aux2.uncached map list_to_set].
    rewrite app_nil_r. split; [reflexivity|].
    by rewrite (left_id_L ∅ (∪)).
  - change (after_queries (q :: qs) s) with (after_queries qs (after_query s q)).
    destruct (IH (after_query s q)) as [-> ->].
    cbn [Aux2.uncached list_to_set]. split.
    2:{ rewrite after_query_dom.
        generalize (dom (embedding_cache (self s))).
        generalize (list_to_set qs : gset string).
        intros X Y. apply set_eq. intros t.
        rewrite !elem_of_union. tauto. }
    destruct (embedding_cache (self s) !! q) as [e|] eqn:E.
    + rewrite decide_True by (apply elem_of_dom; eauto).
      unfold Aux2.after_query. rewrite E. reflexivity.
    + rewrite decide_False by (by apply not_elem_of_dom).
      rewrite after_query_dom. unfold Aux2.after_query. rewrite E.
      cbn. by rewrite <- app_assoc.
Qed.

End QueryRequests.

Section PlanRequests.

Variable vec : Type.
Variable fvec_L2sqr : vec -> vec -> Q.
Variable embeddings_create : nat -> string -> vec.
Variable chat_completions_create : nat -> string -> string -> string.
Variable str_of_list : list string -> string.

Local Abbreviation plan_nyc_trip :=
  (plan_nyc_trip vec fvec_L2sqr embeddings_create chat_completions_create
     str_of_list).
Local Abbreviation after_queries := (Aux2.after_queries vec embeddings_create).
Local Abbreviation clean := (replace_char "010" " ").

(** X24: which texts a successful [plan_nyc_trip] has embedded.  Under
    the conditions of its success, the requests it adds are the preference
    text and the interests, in this order, each at most once and none that
    was in the cache when the call began (a loaded title, an earlier
    query, a repeated interest), with line feeds replaced by blanks; all
    of them are cached afterwards. *)
Theorem plan_nyc_trip_embeds_uncached_texts (B : Type) (d0 d1 : string)
    (o0 o1 : Z) (budget : B) (preferences : string)
    (interests : list string) (transport accommodation : string)
    (pending : list string) (s : State vec) :
  Aux2.ready vec s ->
  Forall (fun item => item <> []) (knowledge_data (self s)) ->
  stdin (world s) = transport :: accommodation :: pending ->
  strptime d0 = Return o0 ->
  strptime d1 = Return o1 ->
  let s' := state_of (plan_nyc_trip [d0; d1] budget preferences interests s) in
  embedding_requests (world s')
  = embedding_requests (world s)
    ++ map clean (Aux2.uncached (dom (embedding_cache (self s)))
                    (preferences :: interests))
  /\ dom (embedding_cache (self s'))
     = list_to_set (preferences :: interests)
       ∪ dom (embedding_cache (self s)).
Proof.
  intros Hready Hitems Hin E0 E1 s'. unfold s'. clear s'.
  destruct s as [a [er cr out inp err]]. cbn in Hin. subst inp.
  destruct (plan_nyc_trip_eq vec fvec_L2sqr embeddings_create
              chat_completions_create str_of_list B d0 d1 o0 o1 budget
              preferences interests transport accommodation pending
              a er cr out err Hready Hitems E0 E1) as [digest Hrun].
  cbv zeta in Hrun. rewrite Hrun. clear Hrun.
  unfold state_of. cbn [snd self world].
  match goal with |- context [Aux2.after_queries _ _ ?qs (Aux2.after_query _ _ ?s3 ?q)] =>
    change (Aux2.after_queries vec embeddings_create qs
              (Aux2.after_query vec embeddings_create s3 q))
      with (after_queries (q :: qs) s3);
    destruct (after_queries_requests vec embeddings_create (q :: qs) s3)
      as [Hreq Hdom]
  end.
  split; [|exact Hdom].
  unfold Aux2.add_stdout, log_chat, write_stdout.
  cbn [embedding_requests]. exact Hreq.
Qed.

End PlanRequests.

Section FreshLoad.

Variable vec : Type.
Variable embeddings_create : nat -> string -> vec.

Local Abbreviation loaded := (Aux.loaded vec embeddings_create).
Local Abbreviation load_step := (Aux.load_step vec embeddings_create).
Local Abbreviation load_knowledge := (load_knowledge vec embeddings_create).
Local Abbreviation clean := (replace_char "010" " ").

Lemma load_step_frame entry (s : State vec) :
  chat_requests (world (load_step entry s)) = chat_requests (world s)
  /\ stdout (world (load_step entry s)) = stdout (world s)
  /\ stdin (world (load_step entry s)) = stdin (world s)
  /\ stderr (world (load_step entry s)) = stderr (world s)
  /\ dom (embedding_cache (self (load_step entry s)))
     = {[fst entry]} ∪ dom (embedding_cache (self s)).
Proof.
  unfold Aux.load_step.
  destruct (embedding_cache (self s) !! fst entry) as [e|] eqn:E.
  - do 4 (split; [reflexivity|]).
    assert (fst entry ∈ dom (embedding_cache (self s)))
      by (apply elem_of_dom; eauto).
    cbn [self append_data append_embedding embedding_cache].
    apply set_eq. intros t. rewrite elem_of_union, elem_of_singleton.
    split; [by right|]. by intros [->|].
  - do 4 (split; [reflexivity|]).
    cbn [self append_data append_embedding cache_put embedding_cache].
    by rewrite dom_insert_L.
Qed.

Lemma loaded_frame l (s : State vec) :
  chat_requests (world (loaded l s)) = chat_requests (world s)
  /\ stdout (world (loaded l s)) = stdout (world s)
  /\ stdin (world (loaded l s)) = stdin (world s)
  /\ stderr (world (loaded l s)) = stderr (world s)
  /\ dom (embedding_cache (self (loaded l s)))
     = list_to_set (map fst l) ∪ dom (embedding_cache (self s)).
Proof.
  revert s. induction l as [|x l IH]; intros s.
  - do 4 (split; [reflexivity|]).
    cbn [map list_to_set Aux.loaded fold_left].
    by rewrite (left_id_L ∅ (∪)).
  - rewrite loaded_cons.
    destruct (IH (load_step x s)) as (-> & -> & -> & -> & ->).
    destruct (load_step_frame x s) as (-> & -> & -> & -> & ->).
    do 4 (split; [reflexivity|]).
    cbn [map list_to_set].
    generalize (dom (embedding_cache (self s))).
    generalize (list_to_set (map fst l) : gset string).
    intros X Y. apply set_eq. intros t.
    rewrite !elem_of_union. tauto.
Qed.

Lemma loaded_name l (s : State vec) :
  name (self (loaded l s)) = name (self s).
Proof.
  revert s. induction l as [|x l IH]; intros s; [reflexivity|].
  rewrite loaded_cons, IH. unfold Aux.load_step.
  destruct (_ !! _); reflexivity.
Qed.

(** One load of a base with at least one record on a fresh agent. *)
Lemma load_fresh kb nm cs dim w :
  titled_records kb <> [] ->
  exists L,
    load_knowledge kb (mkState (__init__ nm cs dim) w) = (Return tt, L)
    /\ Aux2.ready vec L
    /\ knowledge_data (self L) = bodies kb
    /\ dom (embedding_cache (self L)) = list_to_set (titles kb)
    /\ embedding_requests (world L)
       = embedding_requests w ++ map clean (Aux2.uncached ∅ (titles kb))
    /\ chat_requests (world L) = chat_requests w
    /\ stdout (world L) = stdout w
    /\ stdin (world L) = stdin w
    /\ stderr (world L) = stderr w.
Proof.
  intros Hne. set (s0 := mkState (__init__ nm cs dim) w).
  exists (state_of (load_knowledge kb s0)).
  pose proof (load_knowledge_outcome vec embeddings_create kb s0) as Ho.
  pose proof (load_knowledge_state vec embeddings_create kb s0) as Hs.
  cbv zeta in Ho, Hs.
  pose proof (loaded_embeddings_length vec embeddings_create
                (titled_records kb) s0) as Hlen.
  pose proof (loaded_data vec embeddings_create (titled_records kb) s0) as Hd.
  pose proof (loaded_index vec embeddings_create (titled_records kb) s0) as Hi.
  pose proof (loaded_requests vec embeddings_create (titled_records kb) s0)
    as Hr.
  destruct (loaded_frame (titled_records kb) s0) as (F1 & F2 & F3 & F4 & F5).
  split.
  { destruct (load_knowledge kb s0) as [o L] eqn:E.
    unfold outcome_of, state_of in *. cbn [fst snd] in *. f_equal.
    rewrite Ho.
    destruct (knowledge_embeddings (self (loaded (titled_records kb) s0)));
      [|reflexivity].
    destruct (titled_records kb); [done|discriminate Hlen]. }
  rewrite Hs. unfold Aux2.ready.
  cbn [self world index_extend index knowledge_data embedding_cache].
  rewrite Hi, Hd, Hr, F1, F2, F3, F4, F5.
  change (embedding_cache (self s0)) with (∅ : gmap string vec).
  rewrite dom_empty_L, (right_id_L ∅ (∪)).
  change (knowledge_data (self s0)) with (@nil record).
  change (index (self s0)) with (@nil vec).
  cbn [app world]. unfold bodies, titles.
  split.
  { split.
    - rewrite Hlen, length_map. reflexivity.
    - destruct (titled_records kb); [done|discriminate]. }
  repeat split; reflexivity.
Qed.

Lemma load_name kb (s : State vec) :
  name (self (state_of (load_knowledge kb s))) = name (self s)
  /\ cache_size (self (state_of (load_knowledge kb s))) = cache_size (self s).
Proof.
  rewrite load_knowledge_state.
  cbn [self index_extend name cache_size].
  by rewrite loaded_name, loaded_cache_size.
Qed.

End FreshLoad.

Section WholeScript.

Variable vec : Type.
Variable fvec_L2sqr : vec -> vec -> Q.
Variable embeddings_create : nat -> string -> vec.
Variable chat_completions_create : nat -> string -> string -> string.
Variable str_of_list : list string -> string.

Local Abbreviation plan_nyc_trip :=
  (plan_nyc_trip vec fvec_L2sqr embeddings_create chat_completions_create
     str_of_list).
Local Abbreviation load_knowledge := (load_knowledge vec embeddings_create).
Local Abbreviation main :=
  (main vec fvec_L2sqr embeddings_create chat_completions_create str_of_list).
Local Abbreviation run_module :=
  (run_module vec fvec_L2sqr embeddings_create chat_completions_create
     str_of_list).
Local Abbreviation after_query := (Aux2.after_query vec embeddings_create).
Local Abbreviation after_queries := (Aux2.after_queries vec embeddings_create).
Local Abbreviation clean := (replace_char "010" " ").

Lemma nyc_titles_sent :
  map clean (Aux2.uncached ∅ (titles nyc_knowledge)) = titles nyc_knowledge.
Proof. vm_compute. reflexivity. Qed.

Lemma preset_queries_sent :
  map clean
    (Aux2.uncached (list_to_set (titles nyc_knowledge))
       (Preset.preferences :: Preset.interests))
  = Preset.queries_sent.
Proof. vm_compute. reflexivity. Qed.

Lemma nyc_bodies_nonempty :
  Forall (fun item : record => item <> []) (bodies nyc_knowledge).
Proof. repeat constructor; discriminate. Qed.

(** The preset call of [plan_nyc_trip] on an agent that has just loaded
    the built-in base, with two lines to read. *)
Lemma preset_plan_runs (B : Type) (budget : B) a er cr out err
    transport accommodation pending :
  Aux2.ready vec
    (mkState a (mkWorld er cr out (transport :: accommodation :: pending) err)) ->
  knowledge_data a = bodies nyc_knowledge ->
  dom (embedding_cache a) = list_to_set (titles nyc_knowledge) ->
  exists digest a' out',
    plan_nyc_trip ["2024-04-10"; "2024-04-15"] budget Preset.preferences
      Preset.interests
      (mkState a (mkWorld er cr out (transport :: accommodation :: pending) err))
    = (Return tt,
       mkState a'
         (mkWorld (er ++ Preset.queries_sent)
            (cr ++ [(system_prompt transport accommodation,
                     user_query "2024-04-10" "2024-04-15" Preset.preferences
                       Preset.interests digest)])
            out' pending err)).
Proof.
  intros Hready Hdata Hdom.
  assert (Hitems : Forall (fun item : record => item <> []) (knowledge_data a))
    by (rewrite Hdata; apply nyc_bodies_nonempty).
  destruct (plan_nyc_trip_eq vec fvec_L2sqr embeddings_create
              chat_completions_create str_of_list B
              "2024-04-10" "2024-04-15" 738986 738991 budget
              Preset.preferences Preset.interests transport accommodation
              pending a er cr out err Hready Hitems eq_refl eq_refl)
    as [digest Hrun].
  cbv zeta in Hrun. rewrite Hrun. clear Hrun.
  match goal with |- context [Aux2.after_queries _ _ ?qs (Aux2.after_query _ _ ?s3 ?q)] =>
    change (Aux2.after_queries vec embeddings_create qs
              (Aux2.after_query vec embeddings_create s3 q))
      with (after_queries (q :: qs) s3);
    destruct (after_queries_requests vec embeddings_create (q :: qs) s3)
      as [Hreq _];
    pose proof (after_queries_cached_more vec embeddings_create (q :: qs) s3)
      as (_ & _ & _ & C4 & _ & C6 & C7 & _);
    destruct (after_queries (q :: qs) s3) as [aq [erq crq outq inpq errq]]
  end.
  cbn [self world embedding_requests chat_requests stdin stderr
       embedding_cache] in Hreq, C4, C6, C7.
  rewrite Hdom, preset_queries_sent in Hreq.
  subst erq crq inpq errq.
  exists digest, aq. eexists. reflexivity.
Qed.

Lemma call_return {A} (agent : Agent vec) (m : M (State vec) A) w x s' :
  m (mkState agent w) = (Return x, s') ->
  call vec agent m w = (Return (x, self s'), world s').
Proof. intros H. unfold call. by rewrite H. Qed.

(** X25: a complete run of the agent script with the key set.  The
    script is not unattended: [plan_nyc_trip] reads two lines from the
    console.  With two lines to read it ends with status 0, having sent
    exactly six embedding requests (the three titles of the built-in base,
    then the preference text, [museums] and [Broadway shows]; the interest
    [Central Park] is a title and is served from the cache) and exactly
    one chat request, built from the two lines and the preset dates,
    preferences and interests.  With fewer than two lines it ends with a
    traceback and status 1, after the three requests of the load and
    before any chat request. *)
Theorem run_module_with_key (env : environ) (k : string) (w : World) :
  env !! "OPENAI_API_KEY" = Some k ->
  (forall transport accommodation pending,
      stdin w = transport :: accommodation :: pending ->
      exists digest w',
        run_module env w = (0%Z, w')
        /\ embedding_requests w'
           = embedding_requests w ++ titles nyc_knowledge
             ++ Preset.queries_sent
        /\ chat_requests w'
           = chat_requests w
             ++ [(system_prompt transport accommodation,
                  user_query "2024-04-10" "2024-04-15" Preset.preferences
                    Preset.interests digest)]
        /\ stdin w' = pending
        /\ stderr w' = stderr w)
  /\ (length (stdin w) < 2 ->
      exists w',
        run_module env w = (1%Z, w')
        /\ embedding_requests w'
           = embedding_requests w ++ titles nyc_knowledge
        /\ chat_requests w' = chat_requests w
        /\ stdin w' = []
        /\ stderr w' = stderr w ++ ["Traceback (most recent call last):"]).
Proof.
  intros Hkey.
  assert (Hmod : module_body env w = (Return tt, w)).
  { unfold module_body, OpenAI. rewrite Hkey. reflexivity. }
  assert (Hload : forall w0,
    exists L,
      load_knowledge nyc_knowledge
        (mkState (__init__ "NYCAI" 1000 default_embedding_dim) w0)
      = (Return tt, L)
      /\ Aux2.ready vec L
      /\ knowledge_data (self L) = bodies nyc_knowledge
      /\ dom (embedding_cache (self L)) = list_to_set (titles nyc_knowledge)
      /\ embedding_requests (world L)
         = embedding_requests w0 ++ titles nyc_knowledge
      /\ chat_requests (world L) = chat_requests w0
      /\ stdout (world L) = stdout w0
      /\ stdin (world L) = stdin w0
      /\ stderr (world L) = stderr w0).
  { intros w0.
    destruct (load_fresh vec embeddings_create nyc_knowledge "NYCAI" 1000
                default_embedding_dim w0) as (L & HL); [discriminate|].
    rewrite nyc_titles_sent in HL. by exists L. }
  destruct w as [er cr out inp err].
  unfold TravelAgent.run_module, python.
  erewrite bind_return by exact Hmod.
  unfold TravelAgent.main.
  do 4 (erewrite bind_return by reflexivity).
  match goal with |- context [bind (call _ _ _) _ ?w0] =>
    destruct (Hload w0) as (L & HL & Hready & Hdata & Hdom & Hreq & Hcr
                            & Hout & Hin & Herr)
  end.
  destruct L as [a [erL crL outL inpL errL]].
  cbn [self world embedding_requests chat_requests stdout stdin stderr]
    in Hdata, Hdom, Hreq, Hcr, Hout, Hin, Herr.
  subst erL crL inpL errL.
  erewrite bind_return by (unfold call; rewrite HL; reflexivity).
  cbv zeta. cbn [snd].
  do 5 (erewrite bind_return by reflexivity).
  cbv beta iota delta [write_stdout embedding_requests chat_requests stdout
                       stdin stderr].
  split.
  - intros transport accommodation pending ->.
    match goal with
    | |- context [bind (call _ _ _) _ (mkWorld ?er' ?cr' ?out' _ ?err')] =>
        destruct (preset_plan_runs string "$10000" a er' cr' out' err'
                    transport accommodation pending Hready Hdata Hdom)
          as (digest & a' & out'' & Hrun)
    end.
    exists digest. eexists.
    erewrite bind_return by (apply call_return; exact Hrun).
    unfold ret. split; [reflexivity|].
    cbn [self world embedding_requests chat_requests stdin stderr].
    rewrite <- app_assoc. done.
  - intros Hlen.
    destruct inp as [|x [|y inp]]; [| |cbn in Hlen; lia].
    + eexists. erewrite bind_raise by reflexivity.
      split; [reflexivity|]. done.
    + eexists. erewrite bind_raise by reflexivity.
      split; [reflexivity|]. done.
Qed.

End WholeScript.

Section QuickDemo.

Variable vec : Type.
Variable fvec_L2sqr : vec -> vec -> Q.
Variable embeddings_create : nat -> string -> vec.
Variable chat_completions_create : nat -> string -> string -> string.
Variable str_of_list : list string -> string.
Variable str_of_exn : exn -> string.

Local Abbreviation run_quick_demo :=
  (Demo.run_quick_demo vec fvec_L2sqr embeddings_create
     chat_completions_create str_of_list str_of_exn).
Local Abbreviation initialize_agent :=
  (Demo.initialize_agent vec embeddings_create).
Local Abbreviation generate_travel_plan :=
  (Demo.generate_travel_plan vec fvec_L2sqr embeddings_create
     chat_completions_create str_of_list).
Local Abbreviation analyze_results := (Demo.analyze_results vec).
Local Abbreviation plan_nyc_trip :=
  (plan_nyc_trip vec fvec_L2sqr embeddings_create chat_completions_create
     str_of_list).

Lemma on_agent_return {A} (m : M (State vec) A) a w x s' :
  m (mkState a w) = (Return x, s') ->
  Demo.on_agent vec m (Demo.mkDemo (Some a) w)
  = (Return x, Demo.mkDemo (Some (self s')) (world s')).
Proof. intros H. unfold Demo.on_agent. cbn. by rewrite H. Qed.

Lemma on_agent_raise {A} (m : M (State vec) A) a w e s' :
  m (mkState a w) = (Raise e, s') ->
  Demo.on_agent vec m (Demo.mkDemo (Some a) w)
  = (Raise e, Demo.mkDemo (Some (self s')) (world s')).
Proof. intros H. unfold Demo.on_agent. cbn. by rewrite H. Qed.

(** [initialize_agent]: a fresh agent with the built-in base loaded. *)
Lemma initialize_agent_eq ag er cr out inp err :
  exists a,
    initialize_agent (Demo.mkDemo ag (mkWorld er cr out inp err))
    = (Return tt,
       Demo.mkDemo (Some a)
         (mkWorld (er ++ titles nyc_knowledge) cr
            (out ++ [LF +:+ "🤖 正在初始化AI旅行代理...";
                     "📚 正在加载纽约旅行知识库..."; "✅ AI旅行代理初始化完成"])
            inp err))
    /\ (forall w, Aux2.ready vec (mkState a w))
    /\ knowledge_data a = bodies nyc_knowledge
    /\ dom (embedding_cache a) = list_to_set (titles nyc_knowledge)
    /\ name a = "NYCAI" /\ cache_size a = 1000%Z.
Proof.
  unfold Demo.initialize_agent, Demo.set_agent.
  do 3 (erewrite bind_return by reflexivity).
  cbv beta iota delta [write_stdout embedding_requests chat_requests stdout
                       stdin stderr Demo.demo_world Demo.agent].
  match goal with
  | |- context [Demo.mkDemo (Some ?a0) ?w0] =>
      destruct (load_fresh vec embeddings_create nyc_knowledge "NYCAI" 1000
                  1536 w0)
        as (L & HL & Hready & Hdata & Hdom & Hreq & Hcr & Hout & Hin & Herr);
        [discriminate|];
      pose proof (load_name vec embeddings_create nyc_knowledge
                    (mkState (__init__ "NYCAI" 1000 1536) w0)) as Hname
  end.
  rewrite nyc_titles_sent in Hreq.
  rewrite HL in Hname. unfold state_of in Hname.
  cbn [snd self name cache_size __init__] in Hname.
  destruct L as [a [erL crL outL inpL errL]].
  cbn [self world embedding_requests chat_requests stdout stdin stderr]
    in Hdata, Hdom, Hreq, Hcr, Hout, Hin, Herr, Hname.
  subst erL crL outL inpL errL.
  exists a. split; [|split; [|split; [|split]]].
  - erewrite bind_return by (apply on_agent_return; exact HL).
    unfold Demo.in_world, print, modify, write_stdout.
    cbn [Demo.demo_world Demo.agent self world embedding_requests
         chat_requests stdout stdin stderr].
    rewrite <- !app_assoc. reflexivity.
  - intros w. exact Hready.
  - exact Hdata.
  - exact Hdom.
  - exact Hname.
Qed.

Lemma initialize_agent_runs ag er cr out inp err :
  exists a out',
    initialize_agent (Demo.mkDemo ag (mkWorld er cr out inp err))
    = (Return tt,
       Demo.mkDemo (Some a)
         (mkWorld (er ++ titles nyc_knowledge) cr out' inp err))
    /\ (forall w, Aux2.ready vec (mkState a w))
    /\ knowledge_data a = bodies nyc_knowledge
    /\ dom (embedding_cache a) = list_to_set (titles nyc_knowledge).
Proof.
  destruct (initialize_agent_eq ag er cr out inp err)
    as (a & H1 & H2 & H3 & H4 & _).
  exists a. eexists. split; [exact H1|]. split; [exact H2|].
  split; [exact H3|exact H4].
Qed.

(** X30: [initialize_agent] always starts afresh.  Whatever agent the
    shell held before (none, or one with a loaded base and a filled
    cache), it makes a new agent named [NYCAI] with cache size 1000 and
    loads the built-in base into it: the three titles are embedded again,
    in order, nothing of an earlier cache is reused, and the shell then
    holds an agent whose index and data are aligned, whose data are the
    three bodies of the base and whose cache holds exactly the three
    titles.  It prints its three progress lines, reads nothing and sends
    no chat request. *)
Theorem initialize_agent_starts_afresh (s : Demo.DemoState vec) :
  exists a,
    initialize_agent s
    = (Return tt,
       Demo.mkDemo (Some a)
         (mkWorld
            (embedding_requests (Demo.demo_world s) ++ titles nyc_knowledge)
            (chat_requests (Demo.demo_world s))
            (stdout (Demo.demo_world s)
             ++ [LF +:+ "🤖 正在初始化AI旅行代理...";
                 "📚 正在加载纽约旅行知识库..."; "✅ AI旅行代理初始化完成"])
            (stdin (Demo.demo_world s))
            (stderr (Demo.demo_world s))))
    /\ name a = "NYCAI" /\ cache_size a = 1000%Z
    /\ length (index a) = length (knowledge_data a)
    /\ knowledge_data a = bodies nyc_knowledge
    /\ dom (embedding_cache a) = list_to_set (titles nyc_knowledge).
Proof.
  destruct s as [ag [er cr out inp err]].
  destruct (initialize_agent_eq ag er cr out inp err)
    as (a & H1 & H2 & H3 & H4 & H5 & H6).
  exists a. split; [exact H1|]. split; [exact H5|]. split; [exact H6|].
  split; [exact (proj1 (H2 (fresh_world [])))|].
  split; [exact H3|exact H4].
Qed.

Lemma num_days_preset {S} (s : S) :
  num_days ["2024-04-10"; "2024-04-15"] s = (Return 5%Z, s).
Proof. reflexivity. Qed.

Lemma pretty_5 : pretty 5%Z = "5".
Proof. vm_compute. reflexivity. Qed.

Lemma analyze_results_preset a er cr out inp err :
  analyze_results Demo.demo_prefs (Demo.mkDemo a (mkWorld er cr out inp err))
  = (Return tt,
     Demo.mkDemo a (mkWorld er cr (out ++ Preset.analysis) inp err)).
Proof.
  unfold Demo.analyze_results.
  do 2 (erewrite bind_return by reflexivity).
  erewrite bind_return by apply num_days_preset.
  rewrite pretty_5.
  do 4 (erewrite bind_return by reflexivity).
  change (Demo.interests Demo.demo_prefs)
    with ["museums"; "Broadway shows"; "Central Park"].
  erewrite bind_return; cycle 1.
  { cbv beta iota delta [for_each].
    do 3 (erewrite bind_return by reflexivity). reflexivity. }
  cbv beta iota delta [Demo.in_world print modify write_stdout
                       Demo.demo_world Demo.agent embedding_requests
                       chat_requests stdout stdin stderr].
  unfold Preset.analysis. rewrite <- !app_assoc. reflexivity.
Qed.

Lemma init_with_key env ag er cr out inp err :
  Demo.falsy (env !! "OPENAI_API_KEY") = false ->
  Demo.__init__ vec env (Demo.mkDemo ag (mkWorld er cr out inp err))
  = (Return tt,
     Demo.mkDemo None
       (mkWorld er cr
          (out ++ ["🔧 正在设置运行环境..."; "✅ OpenAI API密钥已配置";
                   "✅ 所有依赖包已安装"]) inp err)).
Proof.
  intros Hkey. unfold Demo.__init__.
  erewrite bind_return by reflexivity.
  rewrite (setup_environment_with_key vec env _ Hkey). reflexivity.
Qed.

(** The lines [generate_travel_plan] prints for the preset parameters
    before it calls the planner. *)
Lemma generate_travel_plan_preset a er cr out inp err o s' :
  plan_nyc_trip ["2024-04-10"; "2024-04-15"] "$10000" Preset.preferences
    Preset.interests
    (mkState a
       (mkWorld er cr
          (out ++ [LF +:+ "🚀 正在生成您的个性化旅行计划...";
                   repeat_str "=" 60; "📋 您的旅行偏好:";
                   "   📅 旅行日期: 2024-04-10 到 2024-04-15";
                   "   💰 预算: $10000"; "   🚗 交通方式: airplane";
                   "   🏨 住宿类型: hotel";
                   "   🎯 偏好: " +:+ Preset.preferences;
                   "   ❤️ 兴趣: museums, Broadway shows, Central Park";
                   repeat_str "=" 60])
          inp err))
  = (o, s') ->
  generate_travel_plan Demo.demo_prefs
    (Demo.mkDemo (Some a) (mkWorld er cr out inp err))
  = (o, Demo.mkDemo (Some (self s')) (world s')).
Proof.
  intros Hplan. unfold Demo.generate_travel_plan.
  do 12 (erewrite bind_return by reflexivity).
  cbv beta iota delta [write_stdout embedding_requests chat_requests
                       stdout stdin stderr Demo.demo_world Demo.agent].
  rewrite <- !app_assoc. cbn [app].
  unfold Demo.on_agent.
  cbv beta iota delta [Demo.demo_world Demo.agent].
  change (Demo.travel_dates Demo.demo_prefs)
    with ["2024-04-10"; "2024-04-15"].
  change (Demo.budget Demo.demo_prefs) with "$10000".
  change (Demo.preferences Demo.demo_prefs) with Preset.preferences.
  change (Demo.interests Demo.demo_prefs) with Preset.interests.
  change ("   📅 旅行日期: " +:+ "2024-04-10" +:+ " 到 " +:+ "2024-04-15")
    with "   📅 旅行日期: 2024-04-10 到 2024-04-15".
  change ("   💰 预算: " +:+ "$10000") with "   💰 预算: $10000".
  change ("   🚗 交通方式: " +:+ Demo.transport_mode Demo.demo_prefs)
    with "   🚗 交通方式: airplane".
  change ("   🏨 住宿类型: " +:+ Demo.accommodation_type Demo.demo_prefs)
    with "   🏨 住宿类型: hotel".
  change ("   ❤️ 兴趣: " +:+ join ", " Preset.interests)
    with "   ❤️ 兴趣: museums, Broadway shows, Central Park".
  rewrite Hplan. reflexivity.
Qed.

Lemma quick_demo_runs env ag er cr out transport accommodation pending err :
  Demo.falsy (env !! "OPENAI_API_KEY") = false ->
  exists digest a' out',
    run_quick_demo env
      (Demo.mkDemo ag
         (mkWorld er cr out (transport :: accommodation :: pending) err))
    = (Return tt,
       Demo.mkDemo (Some a')
         (mkWorld (er ++ titles nyc_knowledge ++ Preset.queries_sent)
            (cr ++ [(system_prompt transport accommodation,
                     user_query "2024-04-10" "2024-04-15"
                       Preset.preferences Preset.interests digest)])
            (out' ++ Preset.analysis) pending err)).
Proof.
  intros Hkey. unfold Demo.run_quick_demo.
  do 2 (erewrite bind_return by reflexivity).
  cbv beta iota delta [write_stdout embedding_requests chat_requests stdout
                       stdin stderr Demo.demo_world Demo.agent].
  match goal with
  | |- context [try_except _ _ (Demo.mkDemo _ (mkWorld _ _ ?out0 ?inp _))] =>
      pose proof (init_with_key env ag er cr out0 inp err Hkey) as Hsetup;
      destruct (initialize_agent_runs None er cr
                  (out0 ++ ["🔧 正在设置运行环境..."; "✅ OpenAI API密钥已配置";
                            "✅ 所有依赖包已安装"]) inp err)
        as (a & out1 & Hinit & Hready & Hdata & Hdom)
  end.
  edestruct (preset_plan_runs vec fvec_L2sqr embeddings_create
               chat_completions_create str_of_list string "$10000" a
               (er ++ titles nyc_knowledge) cr)
    as (digest & a' & out2 & Hplan); [apply Hready|exact Hdata|exact Hdom|].
  exists digest, a', out2.
  unfold try_except.
  erewrite bind_return by exact Hsetup.
  erewrite bind_return by exact Hinit.
  erewrite bind_return
    by (apply generate_travel_plan_preset; exact Hplan).
  cbv beta iota delta [self world]. rewrite analyze_results_preset.
  rewrite <- app_assoc. reflexivity.
Qed.

Lemma quick_demo_without_input env ag er cr out inp err :
  Demo.falsy (env !! "OPENAI_API_KEY") = false ->
  length inp < 2 ->
  exists a' out',
    run_quick_demo env (Demo.mkDemo ag (mkWorld er cr out inp err))
    = (Return tt,
       Demo.mkDemo (Some a')
         (mkWorld (er ++ titles nyc_knowledge) cr
            (out' ++ ["❌ 演示过程中发生错误: " +:+ str_of_exn EOFError])
            [] err)).
Proof.
  intros Hkey Hlen. unfold Demo.run_quick_demo.
  do 2 (erewrite bind_return by reflexivity).
  cbv beta iota delta [write_stdout embedding_requests chat_requests stdout
                       stdin stderr Demo.demo_world Demo.agent].
  match goal with
  | |- context [try_except _ _ (Demo.mkDemo _ (mkWorld _ _ ?out0 _ _))] =>
      pose proof (init_with_key env ag er cr out0 inp err Hkey) as Hsetup;
      destruct (initialize_agent_runs None er cr
                  (out0 ++ ["🔧 正在设置运行环境..."; "✅ OpenAI API密钥已配置";
                            "✅ 所有依赖包已安装"]) inp err)
        as (a & out1 & Hinit & Hready & Hdata & Hdom)
  end.
  assert (Hplan : exists out2,
    plan_nyc_trip ["2024-04-10"; "2024-04-15"] "$10000" Preset.preferences
      Preset.interests
      (mkState a
         (mkWorld (er ++ titles nyc_knowledge) cr
            (out1 ++ [LF +:+ "🚀 正在生成您的个性化旅行计划...";
                      repeat_str "=" 60; "📋 您的旅行偏好:";
                      "   📅 旅行日期: 2024-04-10 到 2024-04-15";
                      "   💰 预算: $10000"; "   🚗 交通方式: airplane";
                      "   🏨 住宿类型: hotel";
                      "   🎯 偏好: " +:+ Preset.preferences;
                      "   ❤️ 兴趣: museums, Broadway shows, Central Park";
                      repeat_str "=" 60])
            inp err))
    = (Raise EOFError,
       mkState a (mkWorld (er ++ titles nyc_knowledge) cr out2 [] err))).
  { unfold TravelAgent.plan_nyc_trip.
    erewrite bind_return by reflexivity.
    destruct inp as [|x [|y inp]]; [| |cbn in Hlen; lia].
    - eexists. erewrite bind_raise by reflexivity. reflexivity.
    - eexists. erewrite bind_return by reflexivity.
      erewrite bind_raise by reflexivity. reflexivity. }
  destruct Hplan as [out2 Hplan].
  exists a. eexists.
  unfold try_except.
  erewrite bind_return by exact Hsetup.
  erewrite bind_return by exact Hinit.
  erewrite bind_raise
    by (apply generate_travel_plan_preset; exact Hplan).
  cbv beta iota delta [is_Exception self world Demo.in_world print modify
                       write_stdout Demo.demo_world Demo.agent
                       embedding_requests chat_requests stdout stdin stderr].
  reflexivity.
Qed.

(** X26: the quick demo with the key set.  Its parameters are preset,
    but it is not unattended either: the planner reads two lines from the
    console.  With two lines to read it returns after exactly six
    embedding requests and one chat request, and the console ends with
    the analysis of the preset trip, whose length is reported as 5 days.
    With fewer than two lines the [EOFError] of [input] is caught: the
    demo returns normally with the error line as the last line on the
    console, after the three requests of the load and no chat request. *)
Theorem run_quick_demo_with_key (env : environ)
    (s : Demo.DemoState vec) :
  Demo.falsy (env !! "OPENAI_API_KEY") = false ->
  (forall transport accommodation pending,
      stdin (Demo.demo_world s) = transport :: accommodation :: pending ->
      exists digest a' out',
        run_quick_demo env s
        = (Return tt,
           Demo.mkDemo (Some a')
             (mkWorld
                (embedding_requests (Demo.demo_world s)
                 ++ titles nyc_knowledge ++ Preset.queries_sent)
                (chat_requests (Demo.demo_world s)
                 ++ [(system_prompt transport accommodation,
                      user_query "2024-04-10" "2024-04-15"
                        Preset.preferences Preset.interests digest)])
                (out' ++ Preset.analysis)
                pending
                (stderr (Demo.demo_world s)))))
  /\ (length (stdin (Demo.demo_world s)) < 2 ->
      exists a' out',
        run_quick_demo env s
        = (Return tt,
           Demo.mkDemo (Some a')
             (mkWorld
                (embedding_requests (Demo.demo_world s)
                 ++ titles nyc_knowledge)
                (chat_requests (Demo.demo_world s))
                (out' ++ ["❌ 演示过程中发生错误: " +:+ str_of_exn EOFError])
                []
                (stderr (Demo.demo_world s))))).
Proof.
  intros Hkey. destruct s as [ag [er cr out inp err]].
  cbv beta iota delta [Demo.demo_world embedding_requests chat_requests
                       stdin stderr].
  split.
  - intros transport accommodation pending ->.
    by apply quick_demo_runs.
  - by apply quick_demo_without_input.
Qed.

End QuickDemo.

(** ** The interactive questions *)

Section Preferences.

Import Aux3.

Variable vec : Type.

Local Abbreviation get_user_preferences := (Shell.get_user_preferences vec).

Lemma or_default_nonempty answer default :
  default <> EmptyString -> Shell.or_default answer default <> EmptyString.
Proof. intros H. unfold Shell.or_default. by destruct answer. Qed.

Lemma split_char_nonempty sep s : Shell.split_char sep s <> [].
Proof.
  destruct s as [|c s]; [discriminate|]. cbn [Shell.split_char].
  destruct (Ascii.eqb c sep); [discriminate|].
  by destruct (Shell.split_char sep s).
Qed.

Lemma split_char_free sep s :
  Forall (fun piece => sep ∉ list_ascii_of_string piece)
    (Shell.split_char sep s).
Proof.
  induction s as [|c s IH].
  - repeat constructor. cbn. apply not_elem_of_nil.
  - cbn [Shell.split_char]. destruct (Ascii.eqb c sep) eqn:E.
    + constructor; [cbn; apply not_elem_of_nil|exact IH].
    + apply Ascii.eqb_neq in E.
      destruct (Shell.split_char sep s) as [|piece rest].
      * repeat constructor. cbn. intros H.
        apply list_elem_of_singleton in H. congruence.
      * apply Forall_cons in IH as [Hp Hr]. constructor; [|exact Hr].
        cbn [list_ascii_of_string]. intros H.
        apply elem_of_cons in H as [H|H]; [congruence|by apply Hp].
Qed.

Lemma lstrip_suffix s : exists pre, s = pre +:+ lstrip s.
Proof.
  induction s as [|c s [pre IH]]; [by exists EmptyString|].
  cbn [lstrip]. destruct (is_space c).
  - exists (String c pre). rewrite app_cons. by rewrite <- IH.
  - by exists EmptyString.
Qed.

Lemma strip_chars s c :
  c ∈ list_ascii_of_string (strip s) -> c ∈ list_ascii_of_string s.
Proof.
  unfold strip. intros H.
  destruct (lstrip_suffix s) as [pre Hs].
  destruct (rstrip_prefix (lstrip s)) as [suf Hl].
  rewrite Hs, list_ascii_app. apply elem_of_app. right.
  rewrite Hl, list_ascii_app. apply elem_of_app. by left.
Qed.

Lemma rstrip_idem s : rstrip (rstrip s) = rstrip s.
Proof.
  induction s as [|c s IH]; [reflexivity|]. cbn [rstrip].
  destruct (is_space c && is_empty (rstrip s))%bool eqn:E; [reflexivity|].
  cbn [rstrip]. by rewrite IH, E.
Qed.

Lemma lstrip_head_nonspace c s : is_space c = false -> lstrip (String c s) = String c s.
Proof. intros H. cbn [lstrip]. by rewrite H. Qed.

Lemma strip_idem s : strip (strip s) = strip s.
Proof.
  unfold strip.
  assert (H : lstrip (rstrip (lstrip s)) = rstrip (lstrip s)).
  { assert (Hh : lstrip s = EmptyString
                 \/ exists c t, lstrip s = String c t /\ is_space c = false).
    { induction s as [|c s IH]; [by left|]. cbn [lstrip].
      destruct (is_space c) eqn:E; [exact IH|]. right. eauto. }
    destruct Hh as [->|(c & t & -> & Hc)]; [reflexivity|].
    cbn [rstrip]. rewrite Hc. cbn [andb]. by apply lstrip_head_nonspace. }
  rewrite H. apply rstrip_idem.
Qed.

(** X27: [get_user_preferences] with seven lines to read.  It asks its
    seven questions, reads exactly seven lines and touches nothing else
    (no agent, no request).  An empty answer is replaced by the default of
    its question and any other answer is kept as typed; the budget gets a
    dollar sign in front.  Whatever is typed, no date and no budget is
    empty, there is at least one interest, and every interest is free of
    commas and of surrounding blanks. *)
Theorem get_user_preferences_reads_seven_lines
    (a1 a2 a3 a4 a5 a6 a7 : string) (rest : list string)
    (s : Demo.DemoState vec) :
  stdin (Demo.demo_world s) = a1 :: a2 :: a3 :: a4 :: a5 :: a6 :: a7 :: rest ->
  exists prefs,
    get_user_preferences s
    = (Return prefs,
       Demo.mkDemo (Demo.agent s)
         (mkWorld (embedding_requests (Demo.demo_world s))
            (chat_requests (Demo.demo_world s))
            (stdout (Demo.demo_world s)
             ++ (LF +:+ "📝 请提供您的旅行偏好:") :: preference_prompts)
            rest (stderr (Demo.demo_world s))))
    /\ Demo.travel_dates prefs
       = [Shell.or_default a1 "2024-04-10"; Shell.or_default a2 "2024-04-15"]
    /\ Demo.budget prefs = "$" +:+ Shell.or_default a3 "10000"
    /\ Demo.transport_mode prefs = Shell.or_default a4 "airplane"
    /\ Demo.accommodation_type prefs = Shell.or_default a5 "hotel"
    /\ Demo.preferences prefs
       = Shell.or_default a6 "I prefer cultural experiences and local food"
    /\ Forall (fun d => d <> EmptyString) (Demo.travel_dates prefs)
    /\ Demo.budget prefs <> "$"
    /\ Demo.interests prefs <> []
    /\ Forall (fun i => strip i = i /\ comma_free i) (Demo.interests prefs).
Proof.
  intros Hin. destruct s as [ag [er cr out inp err]]. cbn in Hin. subst inp.
  eexists. split.
  { unfold Shell.get_user_preferences.
    do 8 (erewrite bind_return by reflexivity).
    unfold ret.
    cbv beta iota delta [write_stdout set_stdin Demo.demo_world Demo.agent
                         embedding_requests chat_requests stdout stdin
                         stderr].
    unfold preference_prompts. rewrite <- !app_assoc. reflexivity. }
  cbn [Demo.travel_dates Demo.budget Demo.transport_mode
       Demo.accommodation_type Demo.preferences Demo.interests].
  do 5 (split; [reflexivity|]).
  split; [|split; [|split]].
  - repeat constructor; by apply or_default_nonempty.
  - intros H. injection H as H. by apply or_default_nonempty in H.
  - intros H. apply map_eq_nil in H. by apply split_char_nonempty in H.
  - apply Forall_forall. intros i Hi.
    apply list_elem_of_fmap in Hi as (piece & -> & Hp).
    split; [apply strip_idem|].
    intros Hc. apply strip_chars in Hc.
    match type of Hp with _ ∈ Shell.split_char _ ?t =>
      pose proof (split_char_free "," t) as Hf
    end.
    rewrite Forall_forall in Hf. by apply (Hf piece Hp).
Qed.

(** X28: with fewer than seven lines to read, [get_user_preferences]
    raises [EOFError] at the first question left without an answer: the
    input is used up, no preference is returned, and nothing else has
    changed but the console. *)
Theorem get_user_preferences_needs_seven_lines (s : Demo.DemoState vec) :
  length (stdin (Demo.demo_world s)) < 7 ->
  let r := get_user_preferences s in
  outcome_of r = Raise EOFError
  /\ stdin (Demo.demo_world (state_of r)) = []
  /\ Demo.agent (state_of r) = Demo.agent s
  /\ embedding_requests (Demo.demo_world (state_of r))
     = embedding_requests (Demo.demo_world s)
  /\ chat_requests (Demo.demo_world (state_of r))
     = chat_requests (Demo.demo_world s)
  /\ stdout (Demo.demo_world (state_of r))
     = stdout (Demo.demo_world s)
       ++ (LF +:+ "📝 请提供您的旅行偏好:")
          :: take (S (length (stdin (Demo.demo_world s)))) preference_prompts.
Proof.
  intros Hlen r. unfold r. clear r.
  destruct s as [ag [er cr out inp err]]. cbn in Hlen.
  unfold Shell.get_user_preferences.
  erewrite bind_return by reflexivity.
  destruct inp as [|a1 [|a2 [|a3 [|a4 [|a5 [|a6 [|a7 inp]]]]]]];
    [..|cbn in Hlen; lia];
    repeat (first [erewrite bind_raise by reflexivity
                  |erewrite bind_return by reflexivity]);
    unfold state_of, outcome_of;
    cbv beta iota delta [fst snd write_stdout set_stdin Demo.demo_world
                         Demo.agent embedding_requests chat_requests stdout
                         stdin stderr];
    (split; [reflexivity|]); (split; [reflexivity|]);
    (split; [reflexivity|]); (split; [reflexivity|]);
    (split; [reflexivity|]);
    unfold preference_prompts; cbn [length take];
    rewrite <- !app_assoc; reflexivity.
Qed.

End Preferences.

(** ** The search test *)

Section SearchTest.

Variable vec : Type.
Variable fvec_L2sqr : vec -> vec -> Q.
Variable embeddings_create : nat -> string -> vec.
Variable str_of_list : list string -> string.
Variable str_of_exn : exn -> string.

Local Abbreviation test_vector_search :=
  (Shell.test_vector_search vec fvec_L2sqr embeddings_create str_of_list
     str_of_exn).
Local Abbreviation retrieve_knowledge :=
  (retrieve_knowledge vec fvec_L2sqr embeddings_create).
Local Abbreviation after_query := (Aux2.after_query vec embeddings_create).
Local Abbreviation after_queries := (Aux2.after_queries vec embeddings_create).
Local Abbreviation clean := (replace_char "010" " ").

(** The body of the loop of [test_vector_search]. *)
Local Abbreviation search_body := (fun query : string =>
  Demo.in_world vec (print (LF +:+ "🔎 查询: " +:+ query)) ;;
  results <- Demo.on_agent vec (retrieve_knowledge query) ;;
  Demo.in_world vec
    (print ("📋 找到 " +:+ pretty (Z.of_nat (length results))
            +:+ " 个相关结果")) ;;
  Shell.print_results vec str_of_list 1 (take 2 results)).

Lemma after_query_world a er cr out inp err q :
  after_query (mkState a (mkWorld er cr out inp err)) q
  = mkState (self (after_query (mkState a (mkWorld er cr [] inp err)) q))
      (mkWorld
         (embedding_requests
            (world (after_query (mkState a (mkWorld er cr [] inp err)) q)))
         cr out inp err).
Proof.
  unfold Aux2.after_query, Aux2.query_embedding.
  cbn [self world embedding_requests].
  destruct (embedding_cache a !! q); reflexivity.
Qed.

Lemma nyc_body_description (item : record) :
  item ∈ bodies nyc_knowledge ->
  exists d attrs,
    item = ("description", VStr d) :: attrs
    /\ str_take 100 d ∈ Preset.excerpts.
Proof.
  intros H. change (bodies nyc_knowledge) with
    (map snd (titled_records nyc_knowledge)) in H.
  cbn in H.
  repeat (apply elem_of_cons in H as [->|H];
          [do 2 eexists; split; [reflexivity|];
           unfold Preset.excerpts; cbn [bodies titled_records map];
           apply list_elem_of_In; cbn; tauto|]).
  by apply elem_of_nil in H.
Qed.

Lemma pretty_small :
  pretty 1%Z = "1" /\ pretty (1 + 1)%Z = "2"
  /\ pretty (Z.of_nat 5) = "5".
Proof. vm_compute. done. Qed.

Lemma result_line_nyc i (item : record) :
  item ∈ bodies nyc_knowledge ->
  exists d,
    d ∈ Preset.excerpts
    /\ Shell.result_line str_of_list i item
       = Return ("   " +:+ pretty i +:+ ". description: " +:+ d +:+ "...").
Proof.
  intros H. destruct (nyc_body_description item H) as (d & attrs & -> & Hd).
  exists (str_take 100 d). split; [exact Hd|]. reflexivity.
Qed.

Lemma search_iteration query a er cr out inp err :
  (forall w, Aux2.ready vec (mkState a w)) ->
  knowledge_data a = bodies nyc_knowledge ->
  let sq := after_query (mkState a (mkWorld er cr [] inp err)) query in
  exists d1 d2,
    d1 ∈ Preset.excerpts /\ d2 ∈ Preset.excerpts
    /\ search_body query (Demo.mkDemo (Some a) (mkWorld er cr out inp err))
       = (Return tt,
          Demo.mkDemo (Some (self sq))
            (mkWorld (embedding_requests (world sq)) cr
               (out ++ Preset.search_report query d1 d2) inp err)).
Proof.
  intros Hready Hdata sq.
  destruct (retrieve_knowledge_ready vec fvec_L2sqr embeddings_create query
              (mkState a
                 (mkWorld er cr (out ++ [LF +:+ "🔎 查询: " +:+ query])
                    inp err))
              (Hready _)) as (l & Hl & Hlen & Hin).
  rewrite after_query_world in Hl. fold sq in Hl.
  destruct l as [|r1 [|r2 l]]; [discriminate Hlen|discriminate Hlen|].
  cbn [self knowledge_data] in Hin. rewrite Hdata in Hin.
  destruct (result_line_nyc 1 r1) as (d1 & Hd1 & Hr1);
    [apply Hin; by left|].
  destruct (result_line_nyc (1 + 1) r2) as (d2 & Hd2 & Hr2);
    [apply Hin; right; by left|].
  destruct pretty_small as (P1 & P2 & P5).
  rewrite P1 in Hr1. rewrite P2 in Hr2.
  exists d1, d2. split; [exact Hd1|]. split; [exact Hd2|].
  erewrite bind_return by reflexivity.
  erewrite bind_return by (apply on_agent_return; exact Hl).
  rewrite Hlen, P5.
  erewrite bind_return by reflexivity.
  cbn [take Shell.print_results].
  unfold lift_outcome at 1. rewrite Hr1.
  erewrite bind_return by reflexivity.
  erewrite bind_return by reflexivity.
  unfold lift_outcome at 1. rewrite Hr2.
  erewrite bind_return by reflexivity.
  erewrite bind_return by reflexivity.
  unfold ret.
  cbv beta iota delta [write_stdout Demo.demo_world Demo.agent self world
                       embedding_requests chat_requests stdout stdin stderr].
  unfold Preset.search_report. rewrite <- !app_assoc. reflexivity.
Qed.

Lemma search_loop queries a er cr out inp err :
  (forall w, Aux2.ready vec (mkState a w)) ->
  knowledge_data a = bodies nyc_knowledge ->
  let sq := after_queries queries (mkState a (mkWorld er cr [] inp err)) in
  exists blocks,
    for_each queries search_body
      (Demo.mkDemo (Some a) (mkWorld er cr out inp err))
    = (Return tt,
       Demo.mkDemo (Some (self sq))
         (mkWorld (embedding_requests (world sq)) cr
            (out ++ concat blocks) inp err))
    /\ Forall2 (fun query block =>
                  exists d1 d2,
                    d1 ∈ Preset.excerpts /\ d2 ∈ Preset.excerpts
                    /\ block = Preset.search_report query d1 d2)
         queries blocks.
Proof.
  revert a er out. induction queries as [|q qs IH];
    intros a er out Hready Hdata sq.
  - exists []. split; [|constructor].
    cbn [for_each concat]. unfold ret. rewrite app_nil_r. reflexivity.
  - destruct (search_iteration q a er cr out inp err Hready Hdata)
      as (d1 & d2 & Hd1 & Hd2 & Hq).
    cbv zeta in Hq.
    pose proof (after_query_cached_more vec embeddings_create q
                  (mkState a (mkWorld er cr [] inp err)))
      as (C1 & C2 & _ & C4 & C5 & C6 & C7 & _).
    pose proof (after_query_world a er cr [] inp err q) as Hshape.
    set (s1 := after_query (mkState a (mkWorld er cr [] inp err)) q) in *.
    destruct (IH (self s1) (embedding_requests (world s1))
                (out ++ Preset.search_report q d1 d2)) as (blocks & Hrest & HF).
    { intros w. destruct (Hready w) as [R1 R2]. split; cbn [self] in *.
      - by rewrite C1, C2.
      - by rewrite C2. }
    { rewrite C2. exact Hdata. }
    cbv zeta in Hrest.
    exists (Preset.search_report q d1 d2 :: blocks). split.
    + cbn [for_each]. erewrite bind_return by exact Hq.
      rewrite Hrest. cbn [concat]. rewrite <- app_assoc.
      unfold sq.
      change (after_queries (q :: qs) (mkState a (mkWorld er cr [] inp err)))
        with (after_queries qs s1).
      rewrite <- Hshape. reflexivity.
    + constructor; [|exact HF]. by exists d1, d2.
Qed.

Lemma test_queries_sent :
  map clean
    (Aux2.uncached (list_to_set (titles nyc_knowledge)) Shell.test_queries)
  = Shell.test_queries.
Proof. vm_compute. reflexivity. Qed.

(** X29: what [test_vector_search] shows, whatever the services answer
    and whatever state the shell is in.  It always succeeds, and for each
    of its four queries it reports five results, although the base it has
    just loaded holds three records, and labels each of the two results it
    shows with the attribute name [description] instead of the name of the
    place, followed by the start of a description of the base.  It sends
    seven embedding requests (the three titles, then the four queries)
    and no chat request, and reads nothing. *)
Theorem test_vector_search_reports_five (s : Demo.DemoState vec) :
  exists a' blocks,
    test_vector_search s
    = (Return tt,
       Demo.mkDemo (Some a')
         (mkWorld
            (embedding_requests (Demo.demo_world s)
             ++ titles nyc_knowledge ++ Shell.test_queries)
            (chat_requests (Demo.demo_world s))
            (stdout (Demo.demo_world s)
             ++ ["🔍 测试向量搜索功能"; repeat_str "=" 30] ++ concat blocks)
            (stdin (Demo.demo_world s))
            (stderr (Demo.demo_world s))))
    /\ Forall2 (fun query block =>
                  exists d1 d2,
                    d1 ∈ Preset.excerpts /\ d2 ∈ Preset.excerpts
                    /\ block = Preset.search_report query d1 d2)
         Shell.test_queries blocks.
Proof.
  destruct s as [ag [er cr out inp err]].
  cbv beta iota delta [Demo.demo_world embedding_requests chat_requests
                       stdout stdin stderr].
  destruct (load_fresh vec embeddings_create nyc_knowledge "TestAgent" 100
              1536
              (mkWorld er cr
                 ((out ++ ["🔍 测试向量搜索功能"]) ++ [repeat_str "=" 30])
                 inp err))
    as (L & HL & Hready & Hdata & Hdom & Hreq & Hcr & Hout & Hin & Herr);
    [discriminate|].
  rewrite nyc_titles_sent in Hreq.
  destruct L as [a [erL crL outL inpL errL]].
  cbn [self world embedding_requests chat_requests stdout stdin stderr]
    in Hdata, Hdom, Hreq, Hcr, Hout, Hin, Herr.
  subst erL crL outL inpL errL.
  destruct (search_loop Shell.test_queries a (er ++ titles nyc_knowledge) cr
              ((out ++ ["🔍 测试向量搜索功能"]) ++ [repeat_str "=" 30])
              inp err)
    as (blocks & Hloop & HF).
  { intros w. exact Hready. }
  { exact Hdata. }
  cbv zeta in Hloop.
  destruct (after_queries_requests vec embeddings_create Shell.test_queries
              (mkState a (mkWorld (er ++ titles nyc_knowledge) cr [] inp err)))
    as [Hsent _].
  cbn [self world embedding_requests] in Hsent.
  rewrite Hdom, test_queries_sent in Hsent.
  rewrite Hsent in Hloop.
  eexists. exists blocks. split; [|exact HF].
  unfold Shell.test_vector_search.
  do 2 (erewrite bind_return by reflexivity).
  unfold try_except.
  erewrite bind_return by reflexivity.
  erewrite bind_return by (apply on_agent_return; exact HL).
  cbv beta iota delta [self world].
  rewrite Hloop. rewrite <- !app_assoc. reflexivity.
Qed.

End SearchTest.

(** ** Concrete runs of the further properties *)

Lemma retrieve_knowledge_without_data_witness :
  knowledge_data (self (Stub2.fresh_agent [])) = []
  /\ outcome_of (retrieve_knowledge Stub.vec Stub.fvec_L2sqr
                   Stub.embeddings_create "museums" (Stub2.fresh_agent []))
     = Raise IndexError.
Proof.
  split; [reflexivity|].
  exact (proj1 (retrieve_knowledge_without_data Stub.vec Stub.fvec_L2sqr
                  Stub.embeddings_create "museums" (Stub2.fresh_agent [])
                  eq_refl)).
Defined.

Lemma retrieve_loaded_title_sends_nothing_witness :
  "Central Park" ∈ titles nyc_knowledge
  /\ state_of (retrieve_knowledge Stub.vec Stub.fvec_L2sqr
                 Stub.embeddings_create "Central Park" Stub.loaded_nyc)
     = Stub.loaded_nyc.
Proof.
  assert (H : "Central Park" ∈ titles nyc_knowledge) by compute_done.
  split; [exact H|].
  exact (proj1 (retrieve_loaded_title_sends_nothing Stub.vec Stub.fvec_L2sqr
                  Stub.embeddings_create nyc_knowledge "Central Park"
                  (Stub2.fresh_agent []) H)).
Defined.

Lemma retrieve_knowledge_five_nearest_witness :
  length (index (self Stub2.loaded_six))
  = length (knowledge_data (self Stub2.loaded_six))
  /\ 5 <= length (knowledge_data (self Stub2.loaded_six))
  /\ exists l,
       outcome_of (retrieve_knowledge Stub.vec Stub.fvec_L2sqr
                     Stub.embeddings_create "museums" Stub2.loaded_six)
       = Return l.
Proof.
  assert (H1 : length (index (self Stub2.loaded_six))
               = length (knowledge_data (self Stub2.loaded_six)))
    by (vm_compute; reflexivity).
  assert (H2 : 5 <= length (knowledge_data (self Stub2.loaded_six)))
    by (vm_compute; lia).
  split; [exact H1|]. split; [exact H2|].
  destruct (retrieve_knowledge_five_nearest Stub.vec Stub.fvec_L2sqr
              Stub.embeddings_create "museums" Stub2.loaded_six H1 H2)
    as (top & l & Hl & _).
  exists l. exact Hl.
Defined.

Lemma retrieve_after_double_load_raises_witness :
  index (self Stub.loaded_nyc) !! 1
  = Some (Stub.embeddings_create 1 "Central Park")
  /\ outcome_of
       (retrieve_knowledge Stub.vec Stub.fvec_L2sqr Stub.embeddings_create
          "museums"
          (state_of (load_knowledge Stub.vec Stub.embeddings_create
                       nyc_knowledge Stub.loaded_nyc)))
     = Raise IndexError.
Proof.
  assert (H1 : index (self Stub.loaded_nyc) !! 1
               = Some (Stub.embeddings_create 1 "Central Park"))
    by (vm_compute; reflexivity).
  split; [exact H1|].
  apply (retrieve_after_double_load_raises Stub.vec Stub.fvec_L2sqr
           Stub.embeddings_create nyc_knowledge "NYCAI" 1000 1536
           (fresh_world []) "museums" 1
           (Stub.embeddings_create 1 "Central Park") H1).
  intros i x Hi Hne.
  destruct i as [|[|[|i]]]; [| congruence | |];
    vm_compute in Hi; [| |discriminate];
    injection Hi as <-; vm_compute; reflexivity.
Defined.

Lemma present_itinerary_output_witness :
  strptime "2024-04-10" = Return 738986%Z
  /\ strptime "2024-04-15" = Return 738991%Z
  /\ outcome_of (present_itinerary Stub.vec Stub.sample_itinerary "$10000"
                   ["2024-04-10"; "2024-04-15"] (Stub2.fresh_agent []))
     = Return tt.
Proof.
  split; [reflexivity|]. split; [reflexivity|].
  exact (f_equal fst
           (present_itinerary_output Stub.vec string Stub.sample_itinerary
              "$10000" "2024-04-10" "2024-04-15" [] 738986 738991
              (Stub2.fresh_agent []) eq_refl eq_refl)).
Defined.

Lemma parse_itinerary_distinct_labels_witness :
  has_label "Plan: " = false
  /\ NoDup ["Day 2:"; "Transportation:"; "Day 1:"]
  /\ parse_itinerary
       "Plan: Day 2: rest Transportation:  Day 1: walk "
     = [("Day 2:", ["rest"]); ("Transportation:", []); ("Day 1:", ["walk"])].
Proof.
  assert (HN : NoDup ["Day 2:"; "Transportation:"; "Day 1:"]) by compute_done.
  assert (HF : Forall (fun part : string * string =>
                         Aux2.is_label (fst part) = true
                         /\ has_label (snd part) = false)
                 [("Day 2:", " rest "); ("Transportation:", "  ");
                  ("Day 1:", " walk ")])
    by (repeat constructor).
  split; [reflexivity|]. split; [exact HN|].
  exact (parse_itinerary_distinct_labels "Plan: " _ eq_refl HF HN).
Defined.

Lemma parse_itinerary_last_occurrence_wins_witness :
  has_label "Plan: " = false
  /\ dict_get "Day 1:"
       (parse_itinerary "Plan: Day 1: walk Accommodation: inn Day 1: rest")
     = Some ["rest"].
Proof.
  assert (HF : Forall (fun part : string * string =>
                         Aux2.is_label (fst part) = true
                         /\ has_label (snd part) = false)
                 [("Day 1:", " walk "); ("Accommodation:", " inn ");
                  ("Day 1:", " rest")])
    by (repeat constructor).
  split; [reflexivity|].
  exact (parse_itinerary_last_occurrence_wins "Plan: " _ "Day 1:" eq_refl HF).
Defined.

Lemma present_itinerary_without_labels_witness :
  has_label "Sorry, no plan could be made." = false
  /\ parse_itinerary "Sorry, no plan could be made." = [].
Proof.
  split; [reflexivity|].
  exact (proj1 (present_itinerary_without_labels Stub.vec string
                  "Sorry, no plan could be made." "$10000"
                  "2024-04-10" "2024-04-15" [] 738986 738991
                  (Stub2.fresh_agent []) eq_refl eq_refl eq_refl)).
Defined.

Lemma num_days_follows_calendar_witness :
  num_days ["2024-04-15"; "2024-04-10"] tt = (Return (-5)%Z, tt)
  /\ exists da db,
       Aux2.date_fields "2024-04-15" = Some da
       /\ Aux2.date_fields "2024-04-10" = Some db
       /\ Aux2.date_lt db da.
Proof.
  assert (H : num_days ["2024-04-15"; "2024-04-10"] tt = (Return (-5)%Z, tt))
    by reflexivity.
  split; [exact H|].
  destruct (num_days_follows_calendar unit "2024-04-15" "2024-04-10" (-5) tt tt H)
    as (da & db & Ha & Hb & _ & _ & _ & _ & Hlt).
  exists da, db. split; [exact Ha|]. split; [exact Hb|].
  apply Hlt. lia.
Defined.

Lemma plan_nyc_trip_needs_two_lines_witness :
  length (stdin (world (Stub2.fresh_agent ["train"]))) < 2
  /\ outcome_of
       (plan_nyc_trip Stub.vec Stub.fvec_L2sqr Stub.embeddings_create
          Stub.chat_completions_create Stub.str_of_list
          ["2024-04-10"; "2024-04-15"] "$10000" "food" ["museums"]
          (Stub2.fresh_agent ["train"]))
     = Raise EOFError.
Proof.
  assert (H : length (stdin (world (Stub2.fresh_agent ["train"]))) < 2)
    by (simpl; lia).
  split; [exact H|].
  exact (proj1 (plan_nyc_trip_needs_two_lines Stub.vec Stub.fvec_L2sqr
                  Stub.embeddings_create Stub.chat_completions_create
                  Stub.str_of_list string ["2024-04-10"; "2024-04-15"]
                  "$10000" "food" ["museums"] (Stub2.fresh_agent ["train"])
                  H)).
Defined.


Lemma main_leaves_on_choice_4_witness :
  Forall (fun answer => Aux3.valid_choice answer = false) ["7"; "start"]
  /\ strip " 4 " = "4"
  /\ outcome_of
       (Shell.main Stub.vec Stub.fvec_L2sqr Stub.embeddings_create
          Stub.chat_completions_create Stub.str_of_list Stub2.str_of_exn
          Stub2.env_with_key (Stub2.fresh_shell ["7"; "start"; " 4 "; "1"]))
     = Return tt.
Proof.
  assert (H : Forall (fun answer => Aux3.valid_choice answer = false)
                ["7"; "start"]) by (repeat constructor).
  split; [exact H|]. split; [reflexivity|].
  exact (f_equal fst
           (main_leaves_on_choice_4 Stub.vec Stub.fvec_L2sqr
              Stub.embeddings_create Stub.chat_completions_create
              Stub.str_of_list Stub2.str_of_exn Stub2.env_with_key
              ["7"; "start"] " 4 " ["1"]
              (Stub2.fresh_shell ["7"; "start"; " 4 "; "1"])
              H eq_refl eq_refl)).
Defined.

Lemma main_ends_at_end_of_input_witness :
  Forall (fun answer => Aux3.valid_choice answer = false)
    (stdin (Demo.demo_world (Stub2.fresh_shell ["0"; "five"])))
  /\ outcome_of
       (Shell.main Stub.vec Stub.fvec_L2sqr Stub.embeddings_create
          Stub.chat_completions_create Stub.str_of_list Stub2.str_of_exn
          Stub2.env_with_key (Stub2.fresh_shell ["0"; "five"]))
     = Raise EOFError.
Proof.
  assert (H : Forall (fun answer => Aux3.valid_choice answer = false)
                (stdin (Demo.demo_world (Stub2.fresh_shell ["0"; "five"]))))
    by (repeat constructor).
  split; [exact H|].
  exact (f_equal fst
           (main_ends_at_end_of_input Stub.vec Stub.fvec_L2sqr
              Stub.embeddings_create Stub.chat_completions_create
              Stub.str_of_list Stub2.str_of_exn Stub2.env_with_key
              (Stub2.fresh_shell ["0"; "five"]) H)).
Defined.

Lemma plan_nyc_trip_embeds_uncached_texts_witness :
  Aux2.ready Stub.vec Stub2.loaded_nyc_with_input
  /\ stdin (world Stub2.loaded_nyc_with_input) = ["train"; "hotel"]
  /\ embedding_requests
       (world
          (state_of
             (plan_nyc_trip Stub.vec Stub.fvec_L2sqr Stub.embeddings_create
                Stub.chat_completions_create Stub.str_of_list
                ["2024-04-10"; "2024-04-15"] "$10000" "food"
                ["museums"; "Central Park"; "museums"]
                Stub2.loaded_nyc_with_input)))
     = embedding_requests (world Stub2.loaded_nyc_with_input)
       ++ map (replace_char "010" " ")
            (Aux2.uncached
               (dom (embedding_cache (self Stub2.loaded_nyc_with_input)))
               ["food"; "museums"; "Central Park"; "museums"]).
Proof.
  assert (H1 : Aux2.ready Stub.vec Stub2.loaded_nyc_with_input)
    by (split; [vm_compute; reflexivity|vm_compute; discriminate]).
  assert (H2 : Forall (fun item : record => item <> [])
                 (knowledge_data (self Stub2.loaded_nyc_with_input)))
    by (vm_compute; repeat constructor; discriminate).
  assert (H3 : stdin (world Stub2.loaded_nyc_with_input) = ["train"; "hotel"])
    by (vm_compute; reflexivity).
  split; [exact H1|]. split; [exact H3|].
  exact (proj1 (plan_nyc_trip_embeds_uncached_texts Stub.vec Stub.fvec_L2sqr
                  Stub.embeddings_create Stub.chat_completions_create
                  Stub.str_of_list string "2024-04-10" "2024-04-15"
                  738986 738991 "$10000" "food"
                  ["museums"; "Central Park"; "museums"]
                  "train" "hotel" [] Stub2.loaded_nyc_with_input
                  H1 H2 H3 eq_refl eq_refl)).
Defined.

Lemma run_module_with_key_witness :
  Stub2.env_with_key !! "OPENAI_API_KEY" = Some "sk-test"
  /\ stdin (fresh_world ["train"; "hotel"]) = ["train"; "hotel"]
  /\ exists w',
       run_module Stub.vec Stub.fvec_L2sqr Stub.embeddings_create
         Stub.chat_completions_create Stub.str_of_list Stub2.env_with_key
         (fresh_world ["train"; "hotel"])
       = (0%Z, w')
       /\ embedding_requests w'
          = titles nyc_knowledge ++ Preset.queries_sent.
Proof.
  assert (H : Stub2.env_with_key !! "OPENAI_API_KEY" = Some "sk-test")
    by (vm_compute; reflexivity).
  split; [exact H|]. split; [reflexivity|].
  destruct (proj1 (run_module_with_key Stub.vec Stub.fvec_L2sqr
                     Stub.embeddings_create Stub.chat_completions_create
                     Stub.str_of_list Stub2.env_with_key "sk-test"
                     (fresh_world ["train"; "hotel"]) H)
              "train" "hotel" [] eq_refl)
    as (digest & w' & Hrun & Hreq & _).
  exists w'. split; [exact Hrun|exact Hreq].
Defined.

Lemma run_quick_demo_with_key_witness :
  Demo.falsy (Stub2.env_with_key !! "OPENAI_API_KEY") = false
  /\ length (stdin (Demo.demo_world (Stub2.fresh_shell ["train"]))) < 2
  /\ outcome_of
       (Demo.run_quick_demo Stub.vec Stub.fvec_L2sqr Stub.embeddings_create
          Stub.chat_completions_create Stub.str_of_list Stub2.str_of_exn
          Stub2.env_with_key (Stub2.fresh_shell ["train"]))
     = Return tt.
Proof.
  assert (H : Demo.falsy (Stub2.env_with_key !! "OPENAI_API_KEY") = false)
    by (vm_compute; reflexivity).
  assert (Hlen : length (stdin (Demo.demo_world (Stub2.fresh_shell ["train"])))
                 < 2) by (cbn; lia).
  split; [exact H|]. split; [exact Hlen|].
  destruct (proj2 (run_quick_demo_with_key Stub.vec Stub.fvec_L2sqr
                     Stub.embeddings_create Stub.chat_completions_create
                     Stub.str_of_list Stub2.str_of_exn Stub2.env_with_key
                     (Stub2.fresh_shell ["train"]) H) Hlen)
    as (a' & out' & Hrun).
  exact (f_equal fst Hrun).
Defined.

Lemma get_user_preferences_reads_seven_lines_witness :
  stdin (Demo.demo_world
           (Stub2.fresh_shell
              ["2024-05-01"; ""; "2500"; ""; ""; ""; " jazz , food,"; "1"]))
  = ["2024-05-01"; ""; "2500"; ""; ""; ""; " jazz , food,"; "1"]
  /\ exists prefs,
       outcome_of
         (Shell.get_user_preferences Stub.vec
            (Stub2.fresh_shell
               ["2024-05-01"; ""; "2500"; ""; ""; ""; " jazz , food,"; "1"]))
       = Return prefs
       /\ Demo.travel_dates prefs = ["2024-05-01"; "2024-04-15"]
       /\ Demo.budget prefs = "$2500".
Proof.
  split; [reflexivity|].
  destruct (get_user_preferences_reads_seven_lines Stub.vec
              "2024-05-01" "" "2500" "" "" "" " jazz , food," ["1"]
              (Stub2.fresh_shell
                 ["2024-05-01"; ""; "2500"; ""; ""; ""; " jazz , food,"; "1"])
              eq_refl)
    as (prefs & Hrun & Hdates & Hbudget & _).
  exists prefs. split; [exact (f_equal fst Hrun)|].
  split; [exact Hdates|exact Hbudget].
Defined.

Lemma get_user_preferences_needs_seven_lines_witness :
  length (stdin (Demo.demo_world
                   (Stub2.fresh_shell ["2024-05-01"; "2024-05-04"; "900"])))
  < 7
  /\ outcome_of
       (Shell.get_user_preferences Stub.vec
          (Stub2.fresh_shell ["2024-05-01"; "2024-05-04"; "900"]))
     = Raise EOFError.
Proof.
  assert (H : length (stdin (Demo.demo_world
                (Stub2.fresh_shell ["2024-05-01"; "2024-05-04"; "900"]))) < 7)
    by (cbn; lia).
  split; [exact H|].
  exact (proj1 (get_user_preferences_needs_seven_lines Stub.vec
                  (Stub2.fresh_shell ["2024-05-01"; "2024-05-04"; "900"]) H)).
Defined.
